(** * Telnet session manager of the Cisco CLI server: model and properties

    The development follows [server.py]:
    - [Str]: the Python [str] methods the server calls
      ([replace], [strip], [split], [lower], [startswith], [in]);
    - [Re]: a backtracking matcher for the fragment of Python's [re]
      the server's four patterns are written in;
    - [detect_device_mode];
    - [TelnetSessionManager]: [connect], [execute], [list_sessions] and
      [disconnect] as state-passing functions over a world made of the
      [sessions] dictionary and the log of transport effects.

    A Python [str] is a [string] whose characters are the code points
    below 256; the classes [\s], [str.strip] and [str.lower] are the
    Unicode ones restricted to that range. *)

From Stdlib Require Import ZArith QArith Ascii String List Lia DecimalString.
From stdpp Require Import gmap strings list fin_maps.

Local Open Scope string_scope.

(** ** Characters *)

Definition LF : ascii := "010"%char.
Definition CR : ascii := "013"%char.
Definition BS : ascii := "008"%char.

Definition code (c : ascii) : nat := nat_of_ascii c.

Definition in_range (lo hi : ascii) (c : ascii) : bool :=
  Nat.leb (code lo) (code c) && Nat.leb (code c) (code hi).

Definition is_char (a : ascii) (c : ascii) : bool := Ascii.eqb a c.

(** [if s:] for a [str] *)
Definition nonempty (s : string) : bool := negb (String.eqb s EmptyString).

(** ** Python [str] methods *)

Module Str.

(** [str.isspace] on one character, which is also the class [\s] of a
    [str] pattern: 9..13, 28..32, 133 and 160 below 256. *)
Definition isspace (c : ascii) : bool :=
  in_range "009" "013" c || in_range "028" " " c
  || Nat.eqb (code c) 133 || Nat.eqb (code c) 160.

Fixpoint all (p : ascii -> bool) (s : string) : bool :=
  match s with
  | EmptyString => true
  | String c r => p c && all p r
  end.

(** [s.replace(c, '')] for a one-character [c]. *)
Fixpoint remove_char (c : ascii) (s : string) : string :=
  match s with
  | EmptyString => EmptyString
  | String x r =>
      if Ascii.eqb x c then remove_char c r else String x (remove_char c r)
  end.

(** [s.replace(a + b, '')] for the two-character string [a + b]:
    occurrences are found left to right and do not overlap. *)
Fixpoint remove_pair (a b : ascii) (s : string) : string :=
  match s with
  | String x (String y r as t) =>
      if Ascii.eqb x a && Ascii.eqb y b then remove_pair a b r
      else String x (remove_pair a b t)
  | _ => s
  end.

Fixpoint lstrip (s : string) : string :=
  match s with
  | String c r => if isspace c then lstrip r else s
  | EmptyString => EmptyString
  end.

Fixpoint rstrip (s : string) : string :=
  match s with
  | EmptyString => EmptyString
  | String c r =>
      match rstrip r with
      | EmptyString => if isspace c then EmptyString else String c EmptyString
      | r' => String c r'
      end
  end.

(** [s.strip()] *)
Definition strip (s : string) : string := rstrip (lstrip s).

(** [s.split(sep)] for a one-character separator: never empty. *)
Fixpoint split (sep : ascii) (s : string) : list string :=
  match s with
  | EmptyString => [EmptyString]
  | String c r =>
      if Ascii.eqb c sep then EmptyString :: split sep r
      else match split sep r with
           | h :: t => String c h :: t
           | [] => [String c EmptyString]
           end
  end.

(** [l[-n:]] for [n > 0] *)
Definition last_n {A} (n : nat) (l : list A) : list A :=
  skipn (length l - n) l.

(** [str.lower] on one character: A..Z and the capitals of U+00C0..U+00DE
    (all but the multiplication sign U+00D7) move up by 32. *)
Definition lower_char (c : ascii) : ascii :=
  if in_range "A" "Z" c
     || (in_range "192" "222" c && negb (Nat.eqb (code c) 215))
  then ascii_of_nat (code c + 32) else c.

Fixpoint lower (s : string) : string :=
  match s with
  | EmptyString => EmptyString
  | String c r => String (lower_char c) (lower r)
  end.

(** [s.startswith(p)] *)
Definition startswith (s p : string) : bool := String.prefix p s.

(** [p in s] *)
Fixpoint contains (p s : string) : bool :=
  String.prefix p s
  || match s with
     | EmptyString => false
     | String _ r => contains p r
     end.

(** [str(n)] for an [int] *)
Definition of_int (n : Z) : string := NilZero.string_of_int (Z.to_int n).

(** Longest prefix of characters of a class, and what follows it. *)
Fixpoint span (p : ascii -> bool) (s : string) : string * string :=
  match s with
  | String c r =>
      if p c then let '(w, t) := span p r in (String c w, t)
      else (EmptyString, s)
  | EmptyString => (EmptyString, EmptyString)
  end.

End Str.

(** ** The fragment of [re] the server uses

    Repetition is only ever applied to a character class in the four
    patterns, so [Plus] and [Star] take a class; both are greedy and
    give back one character at a time, as Python's do. *)

Module Re.

Inductive regex : Type :=
| Cls (cls : ascii -> bool)
| Plus (cls : ascii -> bool)
| Star (cls : ascii -> bool)
| Seq (r1 r2 : regex)
| Opt (r : regex)
| Group (n : nat) (r : regex)
| Bol
| Eol.

(** Numbered groups of a match, most recent first. *)
Definition groups : Type := list (nat * string).

Fixpoint group (n : nat) (m : groups) : string :=
  match m with
  | [] => EmptyString
  | (i, v) :: m' => if Nat.eqb i n then v else group n m'
  end.

(** [$] without [re.MULTILINE]: at the end of the subject, or just before
    a line feed that ends it. *)
Definition at_eol (s : string) : bool :=
  String.eqb s EmptyString || String.eqb s (String LF EmptyString).

Fixpoint star (cls : ascii -> bool) (pos : nat) (s : string)
    (k : nat -> string -> option groups) : option groups :=
  match s with
  | String c r =>
      if cls c then
        match star cls (S pos) r k with
        | Some m => Some m
        | None => k pos s
        end
      else k pos s
  | EmptyString => k pos s
  end.

(** [exec r pos s m k]: match [r] at offset [pos], where [s] is what is
    left of the subject, then go on with [k]; [None] is failure, after
    which the caller backtracks. *)
Fixpoint exec (r : regex) (pos : nat) (s : string) (m : groups)
    (k : nat -> string -> groups -> option groups) : option groups :=
  match r with
  | Cls cls =>
      match s with
      | String c t => if cls c then k (S pos) t m else None
      | EmptyString => None
      end
  | Plus cls =>
      match s with
      | String c t =>
          if cls c then star cls (S pos) t (fun p u => k p u m) else None
      | EmptyString => None
      end
  | Star cls => star cls pos s (fun p u => k p u m)
  | Seq r1 r2 => exec r1 pos s m (fun p u m' => exec r2 p u m' k)
  | Opt r1 =>
      match exec r1 pos s m k with
      | Some m' => Some m'
      | None => k pos s m
      end
  | Group n r1 =>
      exec r1 pos s m
        (fun p u m' => k p u ((n, String.substring 0 (p - pos) s) :: m'))
  | Bol => if Nat.eqb pos 0 then k pos s m else None
  | Eol => if at_eol s then k pos s m else None
  end.

Definition accept : nat -> string -> groups -> option groups :=
  fun _ _ m => Some m.

(** [re.match(r, s)] *)
Definition re_match (r : regex) (s : string) : option groups :=
  exec r 0 s [] accept.

Fixpoint search_from (r : regex) (pos : nat) (s : string) : option groups :=
  match exec r pos s [] accept with
  | Some m => Some m
  | None =>
      match s with
      | String _ t => search_from r (S pos) t
      | EmptyString => None
      end
  end.

(** [re.search(r, s)]: the leftmost offset at which [r] matches. *)
Definition search (r : regex) (s : string) : option groups :=
  search_from r 0 s.

(** Whether the subject left starts with a character of a class. *)
Definition starts (cls : ascii -> bool) (s : string) : bool :=
  match s with
  | String c _ => cls c
  | EmptyString => false
  end.

(** Characters a match of [r] can be made of. *)
Fixpoint alphabet (r : regex) (c : ascii) : bool :=
  match r with
  | Cls cls | Plus cls | Star cls => cls c
  | Seq r1 r2 => alphabet r1 c || alphabet r2 c
  | Opt r1 | Group _ r1 => alphabet r1 c
  | Bol | Eol => false
  end.

End Re.

Import Re.

Infix ">>" := Seq (at level 60, right associativity).

(** ** The character classes and patterns of [server.py] *)

(** [[A-Za-z0-9_-]] *)
Definition name_char (c : ascii) : bool :=
  in_range "A" "Z" c || in_range "a" "z" c || in_range "0" "9" c
  || is_char "_" c || is_char "-" c.

(** [[a-z0-9-]] *)
Definition submode_char (c : ascii) : bool :=
  in_range "a" "z" c || in_range "0" "9" c || is_char "-" c.

(** [[#>]] *)
Definition mark_char (c : ascii) : bool := is_char "#" c || is_char ">" c.

(** [[\r\n]] *)
Definition newline_char (c : ascii) : bool := is_char CR c || is_char LF c.

(** [[\r\n](body)\s*$]: the shape of the three searched patterns. *)
Definition anchored (body : regex) : regex :=
  Cls newline_char >> Group 1 body >> Star Str.isspace >> Eol.

(** [[A-Za-z0-9_-]+\([a-z0-9-]+\)[#>]] *)
Definition config_body : regex :=
  Plus name_char >> Cls (is_char "(") >> Plus submode_char
  >> Cls (is_char ")") >> Cls mark_char.

(** [[A-Za-z0-9_-]+[#>]] *)
Definition plain_body : regex := Plus name_char >> Cls mark_char.

(** [[A-Za-z0-9_-]+(\([a-z0-9-]+\))?[#>]] *)
Definition prompt_body : regex :=
  Plus name_char
  >> Opt (Group 2 (Cls (is_char "(") >> Plus submode_char >> Cls (is_char ")")))
  >> Cls mark_char.

(** The list [patterns] of [detect_device_mode]. *)
Definition patterns : list regex := [anchored config_body; anchored plain_body].

(** [^[A-Za-z0-9_-]+(\([a-z0-9-]+\))?[#>]$], the pattern of the line scan:
    its optional group is group 1. *)
Definition line_pattern : regex :=
  Bol >> Plus name_char
  >> Opt (Group 1 (Cls (is_char "(") >> Plus submode_char >> Cls (is_char ")")))
  >> Cls mark_char >> Eol.

(** [prompt_pattern] of [execute]. *)
Definition prompt_pattern : regex := anchored prompt_body.

(** [output.replace('\x08', '').replace(' \b', '')] *)
Definition clean (output : string) : string :=
  Str.remove_pair " " BS (Str.remove_char BS output).

(** ** [detect_device_mode] *)

(** The [for pattern in patterns] loop: the first pattern found decides. *)
Fixpoint first_pattern (ps : list regex) (clean_output : string)
    : option string :=
  match ps with
  | [] => None
  | pattern :: rest =>
      match search pattern clean_output with
      | Some m => Some (Str.strip (group 1 m))
      | None => first_pattern rest clean_output
      end
  end.

(** The [for line in reversed(lines[-5:])] loop. *)
Fixpoint scan_lines (lines : list string) : option string :=
  match lines with
  | [] => None
  | line :: rest =>
      let line := Str.strip line in
      match re_match line_pattern line with
      | Some _ => Some line
      | None => scan_lines rest
      end
  end.

Definition detect_device_mode (output : string) : string :=
  if String.eqb output EmptyString then "unknown"
  else
    let clean_output := clean output in
    match first_pattern patterns clean_output with
    | Some mode => mode
    | None =>
        let lines := Str.split LF (Str.strip clean_output) in
        match scan_lines (rev (Str.last_n 5 lines)) with
        | Some line => line
        | None => "unknown"
        end
    end.


(** ** Exceptions, transports and the world

    [reader] and [writer] of a session are references to the two ends of
    one transport; a transport is named by the rank of the
    [open_connection] call that made it.  What a transport, the clock,
    [uuid4] and [datetime.now] answer is given by an [environment]; what
    the server did to them is kept in the log of the world.

    Times are rationals, in seconds; the one float operation that can
    raise, the conversion of [timeout] and [wait_ms] to seconds, is
    [to_seconds].  [write] and [asyncio.sleep] return;
    [open_connection], [read], [drain] and [close] return or raise an
    exception of the class [Exception]; a task cancelled from outside is
    not part of the model. *)

Inductive exn : Type :=
| TimeoutError                       (* asyncio.TimeoutError *)
| ValueError (msg : string)
| ConnectionError (msg : string)
| OtherException (msg : string).     (* any other subclass of Exception *)

(** [str(e)] *)
Definition exn_str (e : exn) : string :=
  match e with
  | TimeoutError => EmptyString
  | ValueError msg | ConnectionError msg | OtherException msg => msg
  end.

Inductive outcome (A : Type) : Type :=
| Ret (a : A)
| Raise (e : exn).
Arguments Ret {A} a.
Arguments Raise {A} e.

(** A [datetime] is held as its [isoformat()] text. *)
Definition datetime : Type := string.
Definition isoformat (d : datetime) : string := d.

Record TelnetSession : Type := {
  session_id : string;
  host : string;
  port : Z;
  reader : nat;
  writer : nat;
  connected_at : datetime;
}.

(** The dictionary built by [TelnetSession.to_dict]. *)
Record SessionDict : Type := {
  sessionId : string;
  dict_host : string;
  dict_port : Z;
  connectedAt : string;
}.

Definition to_dict (self : TelnetSession) : SessionDict :=
  {| sessionId := session_id self;
     dict_host := host self;
     dict_port := port self;
     connectedAt := isoformat (connected_at self) |}.

Inductive read_result : Type :=
| Data (s : string)
| ReadRaises (e : exn).

Inductive event : Type :=
| Open (host : string) (port : Z) (timeout : Q)
| Write (h : nat) (data : string)
| Drain (h : nat)
| Read (h : nat) (n : Z) (timeout : Q)
| Sleep (seconds : Q)
| Close (h : nat).

Record environment : Type := {
  (** the [k]-th [open_connection] under [wait_for]: [None] when it opens *)
  env_open : nat -> option exn;
  (** the [k]-th bounded read on transport [h] *)
  env_read : nat -> nat -> read_result;
  (** the [k]-th [drain] on transport [h]: [None] when it returns *)
  env_drain : nat -> nat -> option exn;
  (** [close] on transport [h]: [None] when it returns *)
  env_close : nat -> option exn;
  (** the [k]-th reading of the event loop's clock, in seconds *)
  env_time : nat -> Q;
  (** [str(uuid.uuid4())] for the [k]-th transport *)
  env_uuid4 : nat -> string;
  (** [datetime.now()] for the [k]-th transport *)
  env_now : nat -> datetime;
}.

Record world : Type := {
  sessions : gmap string TelnetSession;
  log : list event;
  ticks : nat;
}.

Definition is_open (e : event) : bool :=
  match e with Open _ _ _ => true | _ => false end.
Definition is_read (h : nat) (e : event) : bool :=
  match e with Read h' _ _ => Nat.eqb h' h | _ => false end.
Definition is_drain (h : nat) (e : event) : bool :=
  match e with Drain h' => Nat.eqb h' h | _ => false end.

Fixpoint count (p : event -> bool) (l : list event) : nat :=
  match l with
  | [] => 0
  | e :: l' => (if p e then 1 else 0) + count p l'
  end.

Definition with_event (e : event) (w : world) : world :=
  {| sessions := sessions w; log := log w ++ [e]; ticks := ticks w |}.

Definition with_sessions (m : gmap string TelnetSession) (w : world) : world :=
  {| sessions := m; log := log w; ticks := ticks w |}.

Definition with_tick (w : world) : world :=
  {| sessions := sessions w; log := log w; ticks := S (ticks w) |}.

(** ** The monad of the manager: state, exceptions, and [None] for a loop
    that is still running when its fuel runs out. *)

Definition M (A : Type) : Type := world -> option (outcome A * world).

Definition ret {A} (a : A) : M A := fun w => Some (Ret a, w).
Definition raise {A} (e : exn) : M A := fun w => Some (Raise e, w).
Definition diverge {A} : M A := fun _ => None.

Definition bind {A B} (m : M A) (f : A -> M B) : M B :=
  fun w =>
    match m w with
    | Some (Ret a, w') => f a w'
    | Some (Raise e, w') => Some (Raise e, w')
    | None => None
    end.

(** [try: m], with the exception, if any, handed to the caller. *)
Definition attempt {A} (m : M A) : M (outcome A) :=
  fun w =>
    match m w with
    | Some (r, w') => Some (Ret r, w')
    | None => None
    end.

(** [try: m / except ... as e: handler e] *)
Definition try_except {A} (m : M A) (handler : exn -> M A) : M A :=
  fun w =>
    match m w with
    | Some (Ret a, w') => Some (Ret a, w')
    | Some (Raise e, w') => handler e w'
    | None => None
    end.

Notation "x <- m ;; f" := (bind m (fun x => f))
  (at level 100, m at next level, right associativity).
Notation "m ;;; f" := (bind m (fun _ => f))
  (at level 100, right associativity).

Fixpoint repeat_do (n : nat) (body : M unit) : M unit :=
  match n with
  | 0 => ret tt
  | S n' => body ;;; repeat_do n' body
  end.


(** [long_running_commands] of [execute]. *)
Definition long_running_commands : list string :=
  ["ping"; "traceroute"; "tracert"; "show tech"; "copy"; "write"; "reload";
   "debug"].

(** The [for cmd in long_running_commands] loop, with its [break]. *)
Fixpoint adjust_wait (cmds : list string) (command_lower : string)
    (wait_ms : Z) : Z :=
  match cmds with
  | [] => wait_ms
  | cmd :: rest =>
      if Str.startswith command_lower cmd then Z.max wait_ms 12000
      else adjust_wait rest command_lower wait_ms
  end.

(** [wait_ms] as [execute] has it when it starts to poll. *)
Definition effective_wait_ms (command : string) (wait_ms : Z) : Z :=
  let command_lower := Str.strip (Str.lower command) in
  adjust_wait long_running_commands command_lower wait_ms.

(** The value of [ms / 1000.0], in seconds. *)
Definition seconds_of_ms (ms : Z) : Q := (inject_Z ms / inject_Z 1000)%Q.

(** An [int] converts to a [float] when it rounds to a finite double:
    when its magnitude is below [2^1024 - 2^970], which lies halfway
    between the largest double and [2^1024]. *)
Definition converts_to_float (n : Z) : bool :=
  (Z.abs n <? 2 ^ 1024 - 2 ^ 970)%Z.

(** The [OverflowError] of the division of an [int] by a [float]. *)
Definition overflow_error : exn :=
  OtherException "int too large to convert to float".

(** [ms / 1000.0] for an [int] [ms]: the division converts [ms] to a
    [float] first, and raises [OverflowError] when it cannot. *)
Definition to_seconds (ms : Z) : M Q :=
  if converts_to_float ms then ret (seconds_of_ms ms)
  else raise overflow_error.

Definition read_size : Z := 4096.
Definition poll_timeout : Q := (1 # 10)%Q.
Definition grace_delay : Q := (2 # 10)%Q.
Definition idle_threshold : Q := 1%Q.

Definition CRLF : string := String CR (String LF EmptyString).

(** ** [TelnetSessionManager] *)

Section Manager.

Variable env : environment.

(** *** Transport and clock primitives *)

(** [asyncio.wait_for(telnetlib3.open_connection(host, port), timeout)] *)
Definition open_connection (host : string) (port : Z) (timeout : Q)
    : M (nat * nat) :=
  fun w =>
    let h := count is_open (log w) in
    let w' := with_event (Open host port timeout) w in
    match env_open env h with
    | None => Some (Ret (h, h), w')
    | Some e => Some (Raise e, w')
    end.

(** [writer.write(data)] *)
Definition write (h : nat) (data : string) : M unit :=
  fun w => Some (Ret tt, with_event (Write h data) w).

(** [await writer.drain()] *)
Definition drain (h : nat) : M unit :=
  fun w =>
    let k := count (is_drain h) (log w) in
    let w' := with_event (Drain h) w in
    match env_drain env h k with
    | None => Some (Ret tt, w')
    | Some e => Some (Raise e, w')
    end.

(** [await asyncio.wait_for(reader.read(4096), timeout=0.1)] *)
Definition read (h : nat) : M string :=
  fun w =>
    let k := count (is_read h) (log w) in
    let w' := with_event (Read h read_size poll_timeout) w in
    match env_read env h k with
    | Data s => Some (Ret s, w')
    | ReadRaises e => Some (Raise e, w')
    end.

(** [await asyncio.sleep(seconds)] *)
Definition sleep (seconds : Q) : M unit :=
  fun w => Some (Ret tt, with_event (Sleep seconds) w).

(** [writer.close()] *)
Definition close (h : nat) : M unit :=
  fun w =>
    let w' := with_event (Close h) w in
    match env_close env h with
    | None => Some (Ret tt, w')
    | Some e => Some (Raise e, w')
    end.

(** [asyncio.get_event_loop().time()] *)
Definition loop_time : M Q :=
  fun w => Some (Ret (env_time env (ticks w)), with_tick w).

(** [self.sessions[session_id] = session] *)
Definition register (sid : string) (session : TelnetSession) : M unit :=
  fun w => Some (Ret tt, with_sessions (<[sid := session]> (sessions w)) w).

(** [del self.sessions[session_id]] *)
Definition unregister (sid : string) : M unit :=
  fun w => Some (Ret tt, with_sessions (delete sid (sessions w)) w).

(** *** [connect] *)

(** The loop that empties the reader:
<<
    try:
        while True:
            data = await asyncio.wait_for(reader.read(4096), timeout=0.1)
            if not data:
                break
            initial_output += data
    except asyncio.TimeoutError:
        pass
>>
    [acc] is [initial_output]; the two later loops of [connect] are the
    same loop with the data dropped.  Another exception than the timeout
    leaves the loop and [connect]'s [try] body. *)
Fixpoint discard_output (fuel : nat) (h : nat) (acc : string) : M string :=
  match fuel with
  | 0 => diverge
  | S fuel' =>
      r <- attempt (read h) ;;
      match r with
      | Ret data =>
          if nonempty data then discard_output fuel' h (acc ++ data)
          else ret acc
      | Raise TimeoutError => ret acc
      | Raise e => raise e
      end
  end.

Definition connect (fuel : nat) (host : string) (port : Z) (timeout : Z)
    : M string :=
  timeout_seconds <- to_seconds timeout ;;
  try_except
    (rw <- open_connection host port timeout_seconds ;;
     let '(reader, writer) := rw in
     let session_id := env_uuid4 env reader in
     let session :=
       {| session_id := session_id; host := host; port := port;
          reader := reader; writer := writer;
          connected_at := env_now env reader |} in
     register session_id session ;;;
     repeat_do 3 (write writer CRLF ;;; drain writer ;;; sleep (1 # 10)) ;;;
     repeat_do 5
       (write writer ("?" ++ CRLF) ;;; drain writer ;;; sleep (3 # 10)) ;;;
     initial_output <- discard_output fuel reader EmptyString ;;
     (if Str.contains "(config" initial_output then
        write writer ("end" ++ CRLF) ;;;
        drain writer ;;;
        sleep (3 # 10) ;;;
        _ <- discard_output fuel reader EmptyString ;;
        ret tt
      else ret tt) ;;;
     write writer ("terminal length 0" ++ CRLF) ;;;
     drain writer ;;;
     sleep (3 # 10) ;;;
     _ <- discard_output fuel reader EmptyString ;;
     ret session_id)
    (fun e =>
       match e with
       | TimeoutError =>
           raise (ConnectionError
                    ("连接超时: " ++ host ++ ":" ++ Str.of_int port))
       | _ =>
           raise (ConnectionError
                    ("连接失败: " ++ host ++ ":" ++ Str.of_int port
                     ++ " - " ++ exn_str e))
       end).

(** *** [execute] *)

(** The [while True] loop of [execute].  [output] and [last_data_time]
    are the loop's variables. *)
Fixpoint read_loop (fuel : nat) (session : TelnetSession)
    (wait_seconds start_time : Q) (output : string) (last_data_time : Q)
    : M string :=
  match fuel with
  | 0 => diverge
  | S fuel' =>
      current_time <- loop_time ;;
      let elapsed := (current_time - start_time)%Q in
      if Qle_bool wait_seconds elapsed then ret output
      else
        r <- attempt (read (reader session)) ;;
        match r with
        | Ret data =>
            if nonempty data then
              let output := output ++ data in
              let last_data_time := current_time in
              match search prompt_pattern (clean output) with
              | Some _ =>
                  sleep grace_delay ;;;
                  r' <- attempt (read (reader session)) ;;
                  match r' with
                  | Ret extra_data =>
                      if nonempty extra_data then ret (output ++ extra_data)
                      else ret output
                  | Raise TimeoutError => ret output
                  | Raise _ =>
                      read_loop fuel' session wait_seconds start_time
                        output last_data_time
                  end
              | None =>
                  read_loop fuel' session wait_seconds start_time
                    output last_data_time
              end
            else
              read_loop fuel' session wait_seconds start_time
                output last_data_time
        | Raise TimeoutError =>
            let silence_duration := (current_time - last_data_time)%Q in
            if Qle_bool idle_threshold silence_duration && nonempty output
            then
              match search prompt_pattern (clean output) with
              | Some _ => ret output
              | None =>
                  read_loop fuel' session wait_seconds start_time
                    output last_data_time
              end
            else
              read_loop fuel' session wait_seconds start_time
                output last_data_time
        | Raise _ =>
            read_loop fuel' session wait_seconds start_time
              output last_data_time
        end
  end.

(** [execute] from the point where the session is found and the wait is
    adjusted: convert the wait to seconds, write the command, then poll. *)
Definition send_and_poll (fuel : nat) (session : TelnetSession)
    (command : string) (wait_ms : Z) : M string :=
  wait_seconds <- to_seconds wait_ms ;;
  write (writer session) (command ++ CRLF) ;;;
  drain (writer session) ;;;
  start_time <- loop_time ;;
  read_loop fuel session wait_seconds start_time EmptyString start_time.

Definition execute (fuel : nat) (session_id : string) (command : string)
    (wait_ms : Z) : M string :=
  fun w =>
    match sessions w !! session_id with
    | None => raise (ValueError ("会话不存在: " ++ session_id)) w
    | Some session =>
        send_and_poll fuel session command
          (effective_wait_ms command wait_ms) w
    end.

(** *** [list_sessions] and [disconnect] *)

Definition list_sessions (w : world) : list SessionDict :=
  to_dict <$> (map_to_list (sessions w)).*2.

Definition disconnect (session_id : string) : M bool :=
  fun w =>
    match sessions w !! session_id with
    | None => raise (ValueError ("会话不存在: " ++ session_id)) w
    | Some session =>
        (_ <- attempt (close (writer session)) ;;
         unregister session_id ;;;
         ret true) w
    end.

End Manager.


(** ** Prompts, as the specification words them *)

(** [<name>]: one or more of [A-Za-z0-9_-] *)
Definition is_name (s : string) : Prop :=
  s <> EmptyString /\ Str.all name_char s = true.

(** what stands between the parentheses: one or more of [a-z0-9-] *)
Definition is_submode (s : string) : Prop :=
  s <> EmptyString /\ Str.all submode_char s = true.

(** [<name><#|>>] *)
Definition plain_prompt (l : string) : Prop :=
  exists name x,
    is_name name /\ mark_char x = true /\ l = name ++ String x EmptyString.

(** [<name>(<submode>)<#|>>] *)
Definition config_prompt (l : string) : Prop :=
  exists name sub x,
    is_name name /\ is_submode sub /\ mark_char x = true
    /\ l = name ++ "(" ++ sub ++ ")" ++ String x EmptyString.

(** [<name>(<paren-group>)?<#|>>] with nothing after it *)
Definition prompt_line (l : string) : Prop := plain_prompt l \/ config_prompt l.



(** The line scan as the specification words it: the last five lines
    that are not empty, latest first. *)
Definition scan_nonempty_lines (clean_output : string) : option string :=
  let lines := Str.split LF (Str.strip clean_output) in
  scan_lines (rev (Str.last_n 5 (filter (fun l => nonempty l = true) lines))).

Definition detect_as_specified (output : string) : string :=
  match scan_nonempty_lines (clean output) with
  | Some line => line
  | None => "unknown"
  end.

(** ** Slow commands, as the specification words them *)

(** [command] begins, letter case apart, with one of the keywords. *)
Definition begins_with_keyword (command : string) : bool :=
  existsb (fun kw => String.prefix kw (Str.lower command))
    long_running_commands.

(** ** Notions the proofs use *)

(** The characters a prompt is made of. *)
Definition token_char (c : ascii) : bool :=
  name_char c || submode_char c || mark_char c
  || is_char "(" c || is_char ")" c.

(** The optional group of the line pattern. *)
Definition paren_group : regex :=
  Group 1 (Cls (is_char "(") >> Plus submode_char >> Cls (is_char ")")).

(** Whether a string is not empty and ends in a character that is not
    white space. *)
Fixpoint ends_in_text (s : string) : bool :=
  match s with
  | EmptyString => false
  | String c EmptyString => negb (Str.isspace c)
  | String _ r => ends_in_text r
  end.

(** ** The loop of [execute], one round at a time *)

Inductive round : Type :=
| Done (output : string) (w : world)
| Again (output : string) (last_data_time : Q) (w : world).

(** One round of [read_loop]: the reading of the clock, the bounded read
    and, after a prompt, the grace read. *)
Definition loop_round (env : environment) (session : TelnetSession)
    (wait_seconds start_time : Q) (output : string) (last_data_time : Q)
    (w : world) : round :=
  let current_time := env_time env (ticks w) in
  let w1 := with_tick w in
  if Qle_bool wait_seconds (current_time - start_time) then Done output w1
  else
    let h := reader session in
    let w2 := with_event (Read h read_size poll_timeout) w1 in
    match env_read env h (count (is_read h) (log w1)) with
    | Data data =>
        if nonempty data then
          match search prompt_pattern (clean (output ++ data)) with
          | Some _ =>
              let w3 := with_event (Sleep grace_delay) w2 in
              let w4 := with_event (Read h read_size poll_timeout) w3 in
              match env_read env h (count (is_read h) (log w3)) with
              | Data extra_data =>
                  if nonempty extra_data
                  then Done ((output ++ data) ++ extra_data) w4
                  else Done (output ++ data) w4
              | ReadRaises TimeoutError => Done (output ++ data) w4
              | ReadRaises _ => Again (output ++ data) current_time w4
              end
          | None => Again (output ++ data) current_time w2
          end
        else Again output last_data_time w2
    | ReadRaises TimeoutError =>
        if Qle_bool idle_threshold (current_time - last_data_time)
           && nonempty output
        then
          match search prompt_pattern (clean output) with
          | Some _ => Done output w2
          | None => Again output last_data_time w2
          end
        else Again output last_data_time w2
    | ReadRaises _ => Again output last_data_time w2
    end.

(** The cleaned buffer does not end in a prompt. *)
Definition unmatched (output : string) : Prop :=
  search prompt_pattern (clean output) = None.

(** What a bounded read delivers: nothing when it raises. *)
Definition delivered (r : read_result) : string :=
  match r with
  | Data s => s
  | ReadRaises _ => EmptyString
  end.

(** What [n] bounded reads on transport [h] deliver, from the [k]-th on. *)
Fixpoint received (env : environment) (h k n : nat) : string :=
  match n with
  | 0 => EmptyString
  | S n' => delivered (env_read env h k) ++ received env h (S k) n'
  end.

(** Every key of [sessions] is the [session_id] of its session. *)
Definition keys_match (w : world) : Prop :=
  forall k s, sessions w !! k = Some s -> session_id s = k.

(** ** Example inputs *)

Definition blank_lines_output : string :=
  "SW3#" ++ String LF (String LF (String LF (String LF (String LF "zz zz")))).

(** A device that never answers; the clock gains a tenth of a second
    with every reading. *)
Definition quiet : environment :=
  {| env_open := fun _ => None;
     env_read := fun _ _ => ReadRaises TimeoutError;
     env_drain := fun _ _ => None;
     env_close := fun _ => None;
     env_time := fun k => (inject_Z (Z.of_nat k) / 10)%Q;
     env_uuid4 := fun k => "id-" ++ Str.of_int (Z.of_nat k);
     env_now := fun _ => "2024-01-01T00:00:00" |}.

(** A device whose every read fails with a reset. *)
Definition resetting : environment :=
  {| env_open := fun _ => None;
     env_read :=
       fun _ _ => ReadRaises (OtherException "Connection reset by peer");
     env_drain := fun _ _ => None;
     env_close := fun _ => None;
     env_time := fun k => (inject_Z (Z.of_nat k) / 10)%Q;
     env_uuid4 := fun k => "id-" ++ Str.of_int (Z.of_nat k);
     env_now := fun _ => "2024-01-01T00:00:00" |}.

(** A device that answers with its prompt at once, then with a blank;
    [close] fails. *)
Definition prompting : environment :=
  {| env_open := fun _ => None;
     env_read :=
       fun _ k =>
         match k with
         | 0 => Data (CRLF ++ "SW1#")
         | 1 => Data " "
         | _ => ReadRaises TimeoutError
         end;
     env_drain := fun _ _ => None;
     env_close := fun _ => Some (OtherException "already closed");
     env_time := fun k => (inject_Z (Z.of_nat k) / 10)%Q;
     env_uuid4 := fun k => "id-" ++ Str.of_int (Z.of_nat k);
     env_now := fun _ => "2024-01-01T00:00:00" |}.

(** A device that answers with its prompt, after which the next read
    fails with a reset and the following ones time out. *)
Definition reset_after_prompt : environment :=
  {| env_open := fun _ => None;
     env_read :=
       fun _ k =>
         match k with
         | 0 => Data (CRLF ++ "SW1#")
         | 1 => ReadRaises (OtherException "Connection reset by peer")
         | _ => ReadRaises TimeoutError
         end;
     env_drain := fun _ _ => None;
     env_close := fun _ => None;
     env_time := fun k => (inject_Z (Z.of_nat k) / 10)%Q;
     env_uuid4 := fun k => "id-" ++ Str.of_int (Z.of_nat k);
     env_now := fun _ => "2024-01-01T00:00:00" |}.


Definition session0 : TelnetSession :=
  {| session_id := "id-0"; host := "10.0.0.1"; port := 23;
     reader := 0; writer := 0; connected_at := "2024-01-01T00:00:00" |}.

(** No session. *)
Definition world0 : world := {| sessions := ∅; log := []; ticks := 0 |}.

(** One session, on the first transport. *)
Definition world1 : world :=
  {| sessions := {[ "id-0" := session0 ]};
     log := [Open "10.0.0.1" 23 5];
     ticks := 0 |}.

Definition round_output (r : round) : string :=
  match r with
  | Done out _ | Again out _ _ => out
  end.

Definition round_world (r : round) : world :=
  match r with
  | Done _ w | Again _ _ w => w
  end.

(** A computation that leaves [sessions] as it finds it. *)
Definition keeps_sessions {A} (m : M A) : Prop :=
  forall w r w', m w = Some (r, w') -> sessions w' = sessions w.

(** A computation that leaves [sessions] as it finds it and whose value,
    when it returns one, satisfies [P]. *)
Definition yields {A} (P : A -> Prop) (m : M A) : Prop :=
  forall w r w',
    m w = Some (r, w') -> sessions w' = sessions w /\ forall a, r = Ret a -> P a.

(** The world of [world1], the clock read twelve times since. *)
Definition world1_later : world :=
  {| sessions := sessions world1; log := log world1; ticks := 12 |}.

(** ** Further notions *)

(** [s] ends in a line break, the prompt [tok] and white space. *)
Definition ends_in_prompt (s tok : string) : Prop :=
  exists pre c ws,
    s = pre ++ String c (tok ++ ws) /\ newline_char c = true
    /\ prompt_line tok /\ Str.all Str.isspace ws = true.

(** No line break of [s] is followed by a character of a name. *)
Fixpoint no_line_start (s : string) : bool :=
  match s with
  | EmptyString => true
  | String c r =>
      negb (newline_char c && starts name_char r) && no_line_start r
  end.

(** A body is sound for a set of tokens when whatever it matches is one. *)
Definition body_sound (body : regex) (P : string -> Prop) : Prop :=
  forall pos s m k m',
    exec body pos s m k = Some m' ->
    exists tok rest m1,
      s = tok ++ rest /\ P tok
      /\ k (pos + String.length tok) rest m1 = Some m'.


(** The three bodies start with a name. *)
Definition name_first (body : regex) : Prop :=
  forall p s m k, starts name_char s = false -> exec body p s m k = None.


(** The effects of a poll of [execute] on the reader [h]: a bounded read,
    or the sleep before the grace read. *)
Definition is_poll_event (h : nat) (e : event) : bool :=
  match e with
  | Read h' n t =>
      Nat.eqb h' h && Z.eqb n read_size && Qeq_bool t poll_timeout
  | Sleep s => Qeq_bool s grace_delay
  | _ => false
  end.

(** The first [ds] reads from the [k]-th on deliver the chunks [ds], none
    of which is empty, and none of which brings the buffer, [output] at
    first, to end in a prompt. *)
Fixpoint no_prompt_yet (env : environment) (h k : nat) (output : string)
    (ds : list string) : Prop :=
  match ds with
  | [] => True
  | d :: ds' =>
      env_read env h k = Data d /\ d <> EmptyString
      /\ search prompt_pattern (clean (output ++ d)) = None
      /\ no_prompt_yet env h (S k) (output ++ d) ds'
  end.

(** [''.join(ds)] *)
Fixpoint join (ds : list string) : string :=
  match ds with
  | [] => EmptyString
  | d :: ds' => d ++ join ds'
  end.

Definition with_events (evs : list event) (w : world) : world :=
  {| sessions := sessions w; log := (log w ++ evs)%list; ticks := ticks w |}.

(** On transport [h] the reads from the [k]-th on deliver data [n] times,
    and the next one returns the empty string or times out. *)
Definition falls_silent (env : environment) (h k n : nat) : Prop :=
  (forall i, i < n ->
     exists d, env_read env h (k + i) = Data d /\ d <> EmptyString)
  /\ (env_read env h (k + n) = Data EmptyString
      \/ env_read env h (k + n) = ReadRaises TimeoutError).

(** [n] times: write [data], flush, sleep. *)
Fixpoint burst (n : nat) (h : nat) (data : string) (pause : Q) : list event :=
  match n with
  | 0 => []
  | S n' => Write h data :: Drain h :: Sleep pause :: burst n' h data pause
  end.

(** [n] bounded reads. *)
Definition reads (h n : nat) : list event :=
  repeat (Read h read_size poll_timeout) n.

(** What [connect] does on transport [h] after it has opened it, when the
    device falls silent after [n1] reads, after [n2] more once told to
    leave the configuration mode, if it was in it, and after [n3] more
    once told to stop paging. *)
Definition handshake (h : nat) (in_config : bool) (n1 n2 n3 : nat)
    : list event :=
  (burst 3 h CRLF (1 # 10) ++ burst 5 h ("?" ++ CRLF) (3 # 10)
   ++ reads h (S n1)
   ++ (if in_config
       then Write h ("end" ++ CRLF) :: Drain h :: Sleep (3 # 10)
            :: reads h (S n2)
       else [])
   ++ Write h ("terminal length 0" ++ CRLF) :: Drain h :: Sleep (3 # 10)
      :: reads h (S n3))%list.

Definition is_close (e : event) : bool :=
  match e with Close _ => true | _ => false end.

(** ** The tools built on the manager

    The fixed Chinese texts of the server are written as the bytes of
    their UTF-8 encoding.  [ValueError] and [ConnectionError] stand for
    the exceptions of these classes, subclasses included. *)

Definition DQUOTE : ascii := "034"%char.
Definition BACKSLASH : ascii := "092"%char.
Definition TAB : ascii := "009"%char.
Definition FF : ascii := "012"%char.

(** One digit of [format(n, 'x')]. *)
Definition hex_digit (n : nat) : ascii :=
  match String.get n "0123456789abcdef" with
  | Some c => c
  | None => "0"%char
  end.

(** The replacement of one character by [json]'s [encode_basestring]:
    the quote, the backslash and the control characters are escaped. *)
Definition json_escape_char (c : ascii) : string :=
  if Ascii.eqb c DQUOTE then String BACKSLASH (String DQUOTE EmptyString)
  else if Ascii.eqb c BACKSLASH
  then String BACKSLASH (String BACKSLASH EmptyString)
  else if Ascii.eqb c LF then String BACKSLASH "n"
  else if Ascii.eqb c CR then String BACKSLASH "r"
  else if Ascii.eqb c TAB then String BACKSLASH "t"
  else if Ascii.eqb c BS then String BACKSLASH "b"
  else if Ascii.eqb c FF then String BACKSLASH "f"
  else if Nat.ltb (code c) 32
  then String BACKSLASH
         ("u00" ++ String (hex_digit (code c / 16))
                     (String (hex_digit (code c mod 16)) EmptyString))
  else String c EmptyString.

Fixpoint json_escape (s : string) : string :=
  match s with
  | EmptyString => EmptyString
  | String c r => json_escape_char c ++ json_escape r
  end.

(** [json.dumps(s, ensure_ascii=False)] for a [str] *)
Definition json_string (s : string) : string :=
  String DQUOTE (json_escape s ++ String DQUOTE EmptyString).

Inductive json_value : Type :=
| JBool (b : bool)
| JStr (s : string).

Definition json_of_value (v : json_value) : string :=
  match v with
  | JBool true => "true"
  | JBool false => "false"
  | JStr s => json_string s
  end.

Fixpoint json_items (d : list (string * json_value)) : string :=
  match d with
  | [] => EmptyString
  | [(k, v)] => json_string k ++ ": " ++ json_of_value v
  | (k, v) :: d' =>
      json_string k ++ ": " ++ json_of_value v ++ ", " ++ json_items d'
  end.

(** [json.dumps(d, ensure_ascii=False)] for a [dict] of strings and
    Booleans under string keys. *)
Definition json_dumps (d : list (string * json_value)) : string :=
  "{" ++ json_items d ++ "}".

(** [telnet_connect] *)
Definition telnet_connect (env : environment) (fuel : nat) (host : string)
    (port : Z) (timeout : Z) : M string :=
  try_except
    (session_id <- connect env fuel host port timeout ;;
     initial_output <- execute env fuel session_id EmptyString 1000 ;;
     let device_mode := detect_device_mode initial_output in
     ret (json_dumps [("success", JBool true);
                      ("sessionId", JStr session_id);
                      ("deviceMode", JStr device_mode);
                      ("message", JStr "连接成功")]))
    (fun e =>
       match e with
       | ConnectionError _ =>
           ret (json_dumps [("success", JBool false);
                            ("error", JStr (exn_str e))])
       | _ => raise e
       end).

(** The three lines [telnet_list_sessions] writes for a session. *)
Definition session_lines (session : SessionDict) : string :=
  ("- ID: " ++ sessionId session ++ String LF EmptyString)
  ++ ("  主机: " ++ dict_host session ++ ":" ++ Str.of_int (dict_port session)
      ++ String LF EmptyString)
  ++ ("  连接时间: " ++ connectedAt session ++ String LF EmptyString).

(** [telnet_list_sessions] *)
Definition telnet_list_sessions (w : world) : string :=
  match list_sessions w with
  | [] => "当前没有活动会话"
  | sessions =>
      fold_left (fun result session => result ++ session_lines session)
        sessions ("活动会话列表:" ++ String LF EmptyString)
  end.

(** [telnet_disconnect] *)
Definition telnet_disconnect (env : environment) (session_id : string)
    : M string :=
  try_except
    (_ <- disconnect env session_id ;;
     ret ("会话 " ++ session_id ++ " 已断开"))
    (fun e =>
       match e with
       | ValueError _ => ret ("错误: " ++ exn_str e)
       | _ => raise e
       end).

(** ** The silence rule *)

(** The read that brings the prompt, the pause and the grace read. *)
Definition grace_events (h : nat) : list event :=
  [Read h read_size poll_timeout; Sleep grace_delay;
   Read h read_size poll_timeout].

(** ** Further example inputs *)

(** A host that refuses the connection. *)
Definition refusing : environment :=
  {| env_open := fun _ => Some (OtherException "Connection refused");
     env_read := fun _ _ => ReadRaises TimeoutError;
     env_drain := fun _ _ => None;
     env_close := fun _ => None;
     env_time := fun k => (inject_Z (Z.of_nat k) / 10)%Q;
     env_uuid4 := fun k => "id-" ++ Str.of_int (Z.of_nat k);
     env_now := fun _ => "2024-01-01T00:00:00" |}.

(** A device that answers a command with its echo, then with a line and
    its prompt, and is silent from then on. *)
Definition answering : environment :=
  {| env_open := fun _ => None;
     env_read :=
       fun _ k =>
         match k with
         | 0 => Data ("show clock" ++ CRLF)
         | 1 => Data ("12:00:00" ++ CRLF ++ "SW1#")
         | _ => ReadRaises TimeoutError
         end;
     env_drain := fun _ _ => None;
     env_close := fun _ => None;
     env_time := fun k => (inject_Z (Z.of_nat k) / 10)%Q;
     env_uuid4 := fun k => "id-" ++ Str.of_int (Z.of_nat k);
     env_now := fun _ => "2024-01-01T00:00:00" |}.

(** What a switch left in the configuration mode sends: its prompt for
    the warm-up, the prompt of the privileged mode for [end] and for
    [terminal length 0], and for the empty command a line end and the
    prompt, in two reads; after each answer a read times out. *)
Definition configuring_reads : list read_result :=
  [Data (CRLF ++ "SW1(config)#"); ReadRaises TimeoutError;
   Data ("end" ++ CRLF ++ "SW1#"); ReadRaises TimeoutError;
   Data ("terminal length 0" ++ CRLF ++ "SW1#"); ReadRaises TimeoutError;
   Data CRLF; Data "SW1#"].

Definition configuring : environment :=
  {| env_open := fun _ => None;
     env_read := fun _ k => nth k configuring_reads (ReadRaises TimeoutError);
     env_drain := fun _ _ => None;
     env_close := fun _ => None;
     env_time := fun k => (inject_Z (Z.of_nat k) / 10)%Q;
     env_uuid4 := fun k => "id-" ++ Str.of_int (Z.of_nat k);
     env_now := fun _ => "2024-01-01T00:00:00" |}.

(** Two sessions. *)
Definition session1 : TelnetSession :=
  {| session_id := "id-1"; host := "10.0.0.2"; port := 23;
     reader := 1; writer := 1; connected_at := "2024-01-01T00:00:00" |}.

Definition world2 : world :=
  {| sessions := <["id-1" := session1]> {[ "id-0" := session0 ]};
     log := [Open "10.0.0.1" 23 5; Open "10.0.0.2" 23 5];
     ticks := 0 |}.

(** * Properties *)

(** ** Strings *)

Lemma app_cons (c : ascii) (s t : string) :
  String c s ++ t = String c (s ++ t).
Proof. reflexivity. Qed.

Lemma app_nil_l (s : string) : EmptyString ++ s = s.
Proof. reflexivity. Qed.

Lemma app_nil_r (s : string) : s ++ EmptyString = s.
Proof. induction s as [|c s IH]; [reflexivity|]. rewrite app_cons, IH. reflexivity. Qed.

Lemma app_assoc (a b c : string) : (a ++ b) ++ c = a ++ (b ++ c).
Proof.
  induction a as [|x a IH]; [reflexivity|].
  rewrite !app_cons, IH. reflexivity.
Qed.

Lemma length_app (a b : string) :
  String.length (a ++ b) = String.length a + String.length b.
Proof.
  induction a as [|x a IH]; [reflexivity|].
  rewrite app_cons. simpl. rewrite IH. reflexivity.
Qed.

Lemma all_app (p : ascii -> bool) (a b : string) :
  Str.all p (a ++ b) = Str.all p a && Str.all p b.
Proof.
  induction a as [|x a IH]; [reflexivity|].
  rewrite app_cons. simpl. rewrite IH. apply andb_assoc.
Qed.

Lemma all_impl (p q : ascii -> bool) (s : string) :
  (forall c, p c = true -> q c = true) ->
  Str.all p s = true -> Str.all q s = true.
Proof.
  intros Hpq. induction s as [|c s IH]; [reflexivity|].
  simpl. intros [Hc Hs]%andb_prop. rewrite (Hpq c Hc), (IH Hs). reflexivity.
Qed.

(** Two ways of cutting one string in two overlap in a middle part. *)
Lemma app_eq_app (a b c d : string) :
  a ++ b = c ++ d ->
  (exists m, a = c ++ m /\ d = m ++ b) \/ (exists m, c = a ++ m /\ b = m ++ d).
Proof.
  revert c. induction a as [|x a IH]; intros c H.
  - right. exists c. split; [reflexivity | exact H].
  - destruct c as [|y c].
    + left. exists (String x a). split; [reflexivity|]. symmetry. exact H.
    + rewrite !app_cons in H. injection H as -> H.
      destruct (IH _ H) as [[m [-> ->]]|[m [-> ->]]].
      * left. exists m. split; reflexivity.
      * right. exists m. split; reflexivity.
Qed.

Lemma substring_prefix (n : nat) (a b : string) :
  n = String.length a -> String.substring 0 n (a ++ b) = a.
Proof.
  intros ->. induction a as [|x a IH].
  - simpl. destruct b; reflexivity.
  - rewrite app_cons. simpl. rewrite IH. reflexivity.
Qed.

Lemma eqb_empty_app (a : string) (c : ascii) (b : string) :
  a ++ String c b <> EmptyString.
Proof. destruct a; [discriminate|]. rewrite app_cons. discriminate. Qed.

Lemma rstrip_cons c r :
  Str.rstrip (String c r)
  = match Str.rstrip r with
    | EmptyString =>
        if Str.isspace c then EmptyString else String c EmptyString
    | r' => String c r'
    end.
Proof. reflexivity. Qed.

Lemma lstrip_cons c r :
  Str.lstrip (String c r) = if Str.isspace c then Str.lstrip r else String c r.
Proof. reflexivity. Qed.

(** What [rstrip], hence [strip], returns does not end in white space. *)
Lemma rstrip_last (s y : string) (c : ascii) :
  Str.rstrip s = y ++ String c EmptyString -> Str.isspace c = false.
Proof.
  revert y. induction s as [|a r IH]; intros y H; simpl in H.
  - destruct y; discriminate.
  - destruct (Str.rstrip r) as [|b r'] eqn:Hr.
    + destruct (Str.isspace a) eqn:Ha.
      * destruct y; discriminate.
      * destruct y as [|y0 y].
        -- injection H as ->. exact Ha.
        -- rewrite app_cons in H. injection H as _ H. destruct y; discriminate.
    + destruct y as [|y0 y].
      * discriminate.
      * rewrite app_cons in H. injection H as _ H. eapply IH. exact H.
Qed.

Lemma strip_last (s y : string) (c : ascii) :
  Str.strip s = y ++ String c EmptyString -> Str.isspace c = false.
Proof. apply rstrip_last. Qed.

(** A string that neither starts nor ends with white space is its own
    [strip]. *)
Lemma lstrip_id (c : ascii) (s : string) :
  Str.isspace c = false -> Str.lstrip (String c s) = String c s.
Proof. intros H. simpl. rewrite H. reflexivity. Qed.


Lemma remove_char_app (c : ascii) (a b : string) :
  Str.remove_char c (a ++ b) = Str.remove_char c a ++ Str.remove_char c b.
Proof.
  induction a as [|x a IH]; [reflexivity|].
  rewrite app_cons. simpl. destruct (Ascii.eqb x c).
  - exact IH.
  - rewrite app_cons, IH. reflexivity.
Qed.

Lemma remove_char_absent (c : ascii) (s : string) :
  Str.all (fun x => negb (Ascii.eqb x c)) (Str.remove_char c s) = true.
Proof.
  induction s as [|x s IH]; [reflexivity|].
  simpl. destruct (Ascii.eqb x c) eqn:E; [exact IH|].
  simpl. rewrite E, IH. reflexivity.
Qed.

Lemma remove_char_id (c : ascii) (s : string) :
  Str.all (fun x => negb (Ascii.eqb x c)) s = true -> Str.remove_char c s = s.
Proof.
  induction s as [|x s IH]; [reflexivity|].
  simpl. intros [Hx Hs]%andb_prop.
  destruct (Ascii.eqb x c); [discriminate|]. rewrite (IH Hs). reflexivity.
Qed.

Lemma remove_pair_step (a b x y : ascii) (r : string) :
  Str.remove_pair a b (String x (String y r)) =
  if Ascii.eqb x a && Ascii.eqb y b then Str.remove_pair a b r
  else String x (Str.remove_pair a b (String y r)).
Proof. reflexivity. Qed.

(** Once the backspaces are gone there is no [" \b"] left to remove. *)
Lemma remove_pair_id (a b : ascii) (s : string) :
  Str.all (fun x => negb (Ascii.eqb x b)) s = true -> Str.remove_pair a b s = s.
Proof.
  induction s as [|x s IH]; [reflexivity|].
  intros Hs. simpl in Hs. apply andb_prop in Hs as [_ Hs].
  destruct s as [|y r]; [reflexivity|].
  rewrite remove_pair_step, (IH Hs).
  simpl in Hs. apply andb_prop in Hs as [Hy _].
  destruct (Ascii.eqb y b); [discriminate|].
  rewrite andb_false_r. reflexivity.
Qed.

Lemma clean_remove_char (output : string) :
  clean output = Str.remove_char BS output.
Proof. apply remove_pair_id, remove_char_absent. Qed.

Lemma clean_app (a b : string) : clean (a ++ b) = clean a ++ clean b.
Proof. rewrite !clean_remove_char. apply remove_char_app. Qed.

Lemma clean_id (s : string) :
  Str.all (fun x => negb (Ascii.eqb x BS)) s = true -> clean s = s.
Proof. intros H. rewrite clean_remove_char. apply remove_char_id, H. Qed.

(** ** The matcher *)

Lemma star_sound cls pos s k m :
  star cls pos s k = Some m ->
  exists s1 s2,
    s = s1 ++ s2 /\ Str.all cls s1 = true
    /\ k (pos + String.length s1) s2 = Some m.
Proof.
  revert pos. induction s as [|c r IH]; intros pos H; simpl in H.
  - exists EmptyString, EmptyString. rewrite Nat.add_0_r. auto.
  - destruct (cls c) eqn:Hc.
    + destruct (star cls (S pos) r k) as [m'|] eqn:Hs.
      * injection H as ->. destruct (IH _ Hs) as (s1 & s2 & -> & Ha & Hk).
        exists (String c s1), s2. split; [reflexivity|]. split.
        -- simpl. rewrite Hc. exact Ha.
        -- simpl String.length.
           replace (pos + S (String.length s1))
             with (S pos + String.length s1) by lia.
           exact Hk.
      * exists EmptyString, (String c r). rewrite Nat.add_0_r. auto.
    + exists EmptyString, (String c r). rewrite Nat.add_0_r. auto.
Qed.

(** A match consumes a prefix made of the pattern's characters and hands
    the rest to the continuation. *)
Lemma exec_sound r :
  forall pos s m k m',
    exec r pos s m k = Some m' ->
    exists s1 s2 m1,
      s = s1 ++ s2 /\ Str.all (alphabet r) s1 = true
      /\ k (pos + String.length s1) s2 m1 = Some m'.
Proof.
  induction r as [cls|cls|cls|r1 IH1 r2 IH2|r1 IH1|n r1 IH1| |];
    intros pos s m k m' H; simpl in H.
  - destruct s as [|c t]; [discriminate|].
    destruct (cls c) eqn:Hc; [|discriminate].
    exists (String c EmptyString), t, m. split; [reflexivity|]. split.
    + simpl. rewrite Hc. reflexivity.
    + simpl String.length. replace (pos + 1) with (S pos) by lia. exact H.
  - destruct s as [|c t]; [discriminate|].
    destruct (cls c) eqn:Hc; [|discriminate].
    apply star_sound in H as (s1 & s2 & -> & Ha & Hk).
    exists (String c s1), s2, m. split; [reflexivity|]. split.
    + simpl. rewrite Hc. exact Ha.
    + simpl String.length.
      replace (pos + S (String.length s1)) with (S pos + String.length s1)
        by lia.
      exact Hk.
  - apply star_sound in H as (s1 & s2 & -> & Ha & Hk).
    exists s1, s2, m. auto.
  - apply IH1 in H as (s1 & s2 & m1 & -> & Ha & H).
    apply IH2 in H as (s3 & s4 & m2 & -> & Hb & H).
    exists (s1 ++ s3), s4, m2. rewrite app_assoc, all_app, length_app.
    split; [reflexivity|]. split.
    + apply andb_true_intro. split.
      * apply (all_impl (alphabet r1)); [|exact Ha].
        intros c Hc. simpl. rewrite Hc. reflexivity.
      * apply (all_impl (alphabet r2)); [|exact Hb].
        intros c Hc. simpl. rewrite Hc. apply orb_true_r.
    + rewrite Nat.add_assoc. exact H.
  - destruct (exec r1 pos s m k) as [m0|] eqn:He.
    + injection H as ->. apply IH1 in He. exact He.
    + exists EmptyString, s, m. rewrite Nat.add_0_r. auto.
  - apply IH1 in H as (s1 & s2 & m1 & -> & Ha & H). eauto 6.
  - destruct (Nat.eqb pos 0); [|discriminate].
    exists EmptyString, s, m. rewrite Nat.add_0_r. auto.
  - destruct (at_eol s); [|discriminate].
    exists EmptyString, s, m. rewrite Nat.add_0_r. auto.
Qed.

(** Greedy repetition does not give anything back when what follows
    cannot start with a character of the class. *)
Lemma star_commit cls pos w t k :
  (forall p u, starts cls u = true -> k p u = None) ->
  Str.all cls w = true -> starts cls t = false ->
  star cls pos (w ++ t) k = k (pos + String.length w) t.
Proof.
  intros Hk. revert pos. induction w as [|a w IH]; intros pos Hw Ht.
  - rewrite app_nil_l, Nat.add_0_r. destruct t as [|c r]; [reflexivity|].
    simpl in *. rewrite Ht. reflexivity.
  - simpl in Hw. apply andb_prop in Hw as [Ha Hw].
    rewrite app_cons. simpl. rewrite Ha, (IH (S pos) Hw Ht).
    replace (pos + S (String.length w)) with (S pos + String.length w) by lia.
    destruct (k (S pos + String.length w) t); [reflexivity|].
    apply Hk. exact Ha.
Qed.

Lemma exec_plus_seq cls r pos a w t m k :
  (forall p u m', starts cls u = true -> exec r p u m' k = None) ->
  cls a = true -> Str.all cls w = true -> starts cls t = false ->
  exec (Plus cls >> r) pos (String a (w ++ t)) m k
  = exec r (S pos + String.length w) t m k.
Proof.
  intros Hk Ha Hw Ht. simpl. rewrite Ha.
  apply (star_commit cls (S pos) w t (fun p u => exec r p u m k)); auto.
Qed.

Lemma exec_cls_seq cls r pos c t m k :
  exec (Cls cls >> r) pos (String c t) m k
  = if cls c then exec r (S pos) t m k else None.
Proof. reflexivity. Qed.

Lemma at_eol_cons c r :
  at_eol (String c r) = true -> c = LF /\ r = EmptyString.
Proof.
  unfold at_eol. simpl.
  destruct (Ascii.eqb_spec c LF) as [->|]; [|discriminate].
  destruct r; [auto | discriminate].
Qed.

(** [\s*$] asks for white space up to the end of the subject. *)
Lemma star_space_eol pos s m :
  star Str.isspace pos s (fun p u => exec Eol p u m accept)
  = if Str.all Str.isspace s then Some m else None.
Proof.
  revert pos. induction s as [|c r IH]; intros pos; [reflexivity|].
  simpl. destruct (Str.isspace c) eqn:Hc.
  - rewrite IH. simpl. destruct (Str.all Str.isspace r) eqn:Hr; [reflexivity|].
    destruct (at_eol (String c r)) eqn:He; [|reflexivity].
    apply at_eol_cons in He as [_ ->]. discriminate.
  - simpl. destruct (at_eol (String c r)) eqn:He; [|reflexivity].
    apply at_eol_cons in He as [-> _]. discriminate.
Qed.

Lemma exec_seq r1 r2 pos s m k :
  exec (r1 >> r2) pos s m k = exec r1 pos s m (fun p u m' => exec r2 p u m' k).
Proof. reflexivity. Qed.

Lemma exec_group n r pos s m k :
  exec (Group n r) pos s m k
  = exec r pos s m
      (fun p u m' => k p u ((n, String.substring 0 (p - pos) s) :: m')).
Proof. reflexivity. Qed.

Lemma exec_tail pos s m :
  exec (Star Str.isspace >> Eol) pos s m accept
  = if Str.all Str.isspace s then Some m else None.
Proof. apply star_space_eol. Qed.

(** Where an anchored pattern matches, a line break is followed by
    characters of the body and then by white space only. *)
Lemma anchored_shape body pos s m :
  exec (anchored body) pos s [] accept = Some m ->
  exists c b ws,
    s = String c (b ++ ws) /\ newline_char c = true
    /\ Str.all (alphabet body) b = true /\ Str.all Str.isspace ws = true.
Proof.
  unfold anchored. destruct s as [|c t]; [discriminate|].
  rewrite exec_cls_seq. destruct (newline_char c) eqn:Hc; [|discriminate].
  intros H. rewrite exec_seq in H.
  apply exec_sound in H as (b & ws & m1 & -> & Hb & H).
  cbv beta in H. rewrite exec_tail in H.
  destruct (Str.all Str.isspace ws) eqn:Hws; [|discriminate].
  exists c, b, ws. auto.
Qed.

(** The text captured by an anchored pattern that matches at a line break
    followed by [tok] and white space, when the body matches exactly
    [tok] there. *)
Lemma anchored_at body pos c tok ws :
  newline_char c = true -> Str.all Str.isspace ws = true ->
  (forall m k, exec body (S pos) (tok ++ ws) m k
               = k (S pos + String.length tok) ws m) ->
  exec (anchored body) pos (String c (tok ++ ws)) [] accept
  = Some [(1, tok)].
Proof.
  intros Hc Hws Hb. unfold anchored. rewrite exec_cls_seq, Hc.
  rewrite exec_seq, exec_group, Hb, exec_tail, Hws.
  rewrite substring_prefix by lia. reflexivity.
Qed.

Lemma search_hit r pos s m :
  exec r pos s [] accept = Some m -> search_from r pos s = Some m.
Proof. intros H. destruct s; simpl; rewrite H; reflexivity. Qed.

Lemma search_miss r pos c s :
  exec r pos (String c s) [] accept = None ->
  search_from r pos (String c s) = search_from r (S pos) s.
Proof. intros H. simpl. rewrite H. reflexivity. Qed.


Lemma newline_is_space c : newline_char c = true -> Str.isspace c = true.
Proof.
  unfold newline_char, is_char.
  destruct (Ascii.eqb_spec CR c) as [<-|]; [reflexivity|].
  destruct (Ascii.eqb_spec LF c) as [<-|]; [reflexivity | discriminate].
Qed.


(** ** Characters of a prompt *)

Ltac by_character c :=
  destruct c as [[] [] [] [] [] [] [] []]; vm_compute; congruence.

Lemma token_char_not_space c : token_char c = true -> Str.isspace c = false.
Proof. by_character c. Qed.

Lemma token_char_not_backspace c :
  token_char c = true -> negb (Ascii.eqb c BS) = true.
Proof. by_character c. Qed.

Lemma name_not_lparen c : name_char c = true -> is_char "(" c = false.
Proof. by_character c. Qed.

Lemma name_not_mark c : name_char c = true -> mark_char c = false.
Proof. by_character c. Qed.

Lemma submode_not_rparen c : submode_char c = true -> is_char ")" c = false.
Proof. by_character c. Qed.

Lemma mark_not_lparen c : mark_char c = true -> is_char "(" c = false.
Proof. by_character c. Qed.

Lemma mark_not_name c : mark_char c = true -> name_char c = false.
Proof. by_character c. Qed.

Lemma lparen_is c : is_char "(" c = true -> c = "("%char.
Proof. unfold is_char. intros H. symmetry. apply Ascii.eqb_eq, H. Qed.

Lemma rparen_is c : is_char ")" c = true -> c = ")"%char.
Proof. unfold is_char. intros H. symmetry. apply Ascii.eqb_eq, H. Qed.


Ltac norm_app :=
  repeat (rewrite app_assoc || rewrite app_cons || rewrite app_nil_l).

(** ** The bodies match a prompt, and nothing shorter or longer *)

Lemma exec_cls cls pos c t m k :
  exec (Cls cls) pos (String c t) m k = if cls c then k (S pos) t m else None.
Proof. reflexivity. Qed.

Lemma plain_body_exact name x rest pos m k :
  is_name name -> mark_char x = true ->
  exec plain_body pos ((name ++ String x EmptyString) ++ rest) m k
  = k (pos + String.length (name ++ String x EmptyString)) rest m.
Proof.
  intros [Hne Hname] Hx. destruct name as [|a w]; [congruence|].
  simpl in Hname. apply andb_prop in Hname as [Ha Hw].
  rewrite length_app. norm_app. unfold plain_body.
  rewrite exec_plus_seq;
    [ | | exact Ha | exact Hw | exact (mark_not_name x Hx) ].
  - rewrite exec_cls, Hx. f_equal. simpl. lia.
  - intros p [|c u] m' H; [discriminate|]. simpl in H.
    rewrite exec_cls, (name_not_mark c H). reflexivity.
Qed.

Lemma config_body_exact name sub x rest pos m k :
  is_name name -> is_submode sub -> mark_char x = true ->
  exec config_body pos
    ((name ++ "(" ++ sub ++ ")" ++ String x EmptyString) ++ rest) m k
  = k (pos + String.length (name ++ "(" ++ sub ++ ")" ++ String x EmptyString))
      rest m.
Proof.
  intros [Hne Hname] [Hne' Hsub] Hx.
  destruct name as [|a w]; [congruence|]. destruct sub as [|d v]; [congruence|].
  simpl in Hname, Hsub.
  apply andb_prop in Hname as [Ha Hw]. apply andb_prop in Hsub as [Hd Hv].
  rewrite !length_app. norm_app. unfold config_body.
  rewrite exec_plus_seq; [ | | exact Ha | exact Hw | reflexivity ].
  - rewrite exec_cls_seq. change (is_char "(" "(") with true. cbv iota.
    rewrite exec_plus_seq; [ | | exact Hd | exact Hv | reflexivity ].
    + rewrite exec_cls_seq. change (is_char ")" ")") with true. cbv iota.
      rewrite exec_cls, Hx. f_equal. simpl. lia.
    + intros p [|c u] m' H; [discriminate|]. simpl in H.
      rewrite exec_cls_seq, (submode_not_rparen c H). reflexivity.
  - intros p [|c u] m' H; [discriminate|]. simpl in H.
    rewrite exec_cls_seq, (name_not_lparen c H). reflexivity.
Qed.

(** On a plain prompt the configuration pattern fails at the first
    character after the name. *)
Lemma config_body_rejects_plain name x rest pos m k :
  is_name name -> mark_char x = true ->
  exec config_body pos ((name ++ String x EmptyString) ++ rest) m k = None.
Proof.
  intros [Hne Hname] Hx. destruct name as [|a w]; [congruence|].
  simpl in Hname. apply andb_prop in Hname as [Ha Hw].
  norm_app. unfold config_body.
  rewrite exec_plus_seq;
    [ | | exact Ha | exact Hw | exact (mark_not_name x Hx) ].
  - rewrite exec_cls_seq, (mark_not_lparen x Hx). reflexivity.
  - intros p [|c u] m' H; [discriminate|]. simpl in H.
    rewrite exec_cls_seq, (name_not_lparen c H). reflexivity.
Qed.

(** ** Prompts are made of token characters *)

Lemma name_is_token s :
  Str.all name_char s = true -> Str.all token_char s = true.
Proof.
  apply all_impl. intros c H. unfold token_char. rewrite H. reflexivity.
Qed.

Lemma submode_is_token s :
  Str.all submode_char s = true -> Str.all token_char s = true.
Proof.
  apply all_impl. intros c H. unfold token_char. rewrite H.
  rewrite orb_true_r. reflexivity.
Qed.

Lemma mark_is_token x : mark_char x = true -> token_char x = true.
Proof.
  intros H. unfold token_char. rewrite H. rewrite !orb_true_r. reflexivity.
Qed.

Lemma prompt_line_token l : prompt_line l -> Str.all token_char l = true.
Proof.
  intros [(name & x & [_ Hn] & Hx & ->)
         |(name & sub & x & [_ Hn] & [_ Hs] & Hx & ->)].
  - rewrite all_app, (name_is_token _ Hn). simpl.
    rewrite (mark_is_token _ Hx). reflexivity.
  - rewrite !all_app, (name_is_token _ Hn), (submode_is_token _ Hs). simpl.
    rewrite (mark_is_token _ Hx). reflexivity.
Qed.

Lemma prompt_line_nonempty l : prompt_line l -> l <> EmptyString.
Proof.
  intros [(name & x & [Hne _] & _ & ->)|(name & sub & x & [Hne _] & _ & _ & ->)];
    destruct name; congruence || discriminate.
Qed.

(** A prompt is its own [strip] and its own [clean]. *)
Lemma token_strip l :
  l <> EmptyString -> Str.all token_char l = true -> Str.strip l = l.
Proof.
  intros Hne Hl. unfold Str.strip.
  destruct l as [|c l]; [congruence|].
  pose proof Hl as Hl'. simpl in Hl'. apply andb_prop in Hl' as [Hc _].
  rewrite lstrip_id by (apply token_char_not_space, Hc).
  clear Hc Hne. revert c Hl. induction l as [|d l IH]; intros c Hl.
  - simpl in *. apply andb_prop in Hl as [Hc _].
    rewrite (token_char_not_space _ Hc). reflexivity.
  - simpl in Hl. apply andb_prop in Hl as [_ Hl].
    change (Str.rstrip (String c (String d l)))
      with (match Str.rstrip (String d l) with
            | EmptyString =>
                if Str.isspace c then EmptyString else String c EmptyString
            | r' => String c r'
            end).
    rewrite (IH d Hl). reflexivity.
Qed.




Lemma token_then_space_not_blank tok ws :
  tok <> EmptyString -> Str.all token_char tok = true ->
  Str.all Str.isspace (tok ++ ws) = false.
Proof.
  intros Hne Ht. destruct tok as [|c tok]; [congruence|].
  simpl in Ht. apply andb_prop in Ht as [Hc _].
  rewrite app_cons. simpl. rewrite (token_char_not_space _ Hc). reflexivity.
Qed.


(** ** The pattern of the line scan *)

Lemma exec_bol r s m k : exec (Bol >> r) 0 s m k = exec r 0 s m k.
Proof. reflexivity. Qed.

Lemma exec_opt r r2 pos s m k :
  exec (Opt r >> r2) pos s m k
  = match exec r pos s m (fun p u m' => exec r2 p u m' k) with
    | Some m' => Some m'
    | None => exec r2 pos s m k
    end.
Proof. reflexivity. Qed.

Lemma paren_group_skip r2 pos s m k :
  starts (is_char "(") s = false ->
  exec (Opt paren_group >> r2) pos s m k = exec r2 pos s m k.
Proof.
  intros H. rewrite exec_opt. unfold paren_group. rewrite exec_group.
  destruct s as [|c u]; [reflexivity|].
  change (is_char "(" c = false) in H.
  rewrite exec_cls_seq, H. reflexivity.
Qed.

Lemma mark_eol_inv p u m m' :
  exec (Cls mark_char >> Eol) p u m accept = Some m' ->
  exists x, mark_char x = true
    /\ (u = String x EmptyString \/ u = String x (String LF EmptyString)).
Proof.
  destruct u as [|x u]; [discriminate|]. rewrite exec_cls_seq.
  destruct (mark_char x) eqn:Hx; [|discriminate]. simpl.
  destruct (at_eol u) eqn:He; [|discriminate]. intros _.
  exists x. split; [exact Hx|].
  destruct u as [|c u]; [auto|]. apply at_eol_cons in He as [-> ->]. auto.
Qed.

(** Every prompt matches the pattern. *)
Lemma line_pattern_complete l :
  prompt_line l -> exists m, re_match line_pattern l = Some m.
Proof.
  unfold re_match, line_pattern. fold paren_group. rewrite exec_bol.
  assert (Hk : forall p u m', starts name_char u = true ->
            exec (Opt paren_group >> Cls mark_char >> Eol) p u m' accept
            = None).
  { intros p [|c u] m' H; [discriminate|]. simpl in H.
    rewrite paren_group_skip by (apply (name_not_lparen c), H).
    rewrite exec_cls_seq, (name_not_mark c H). reflexivity. }
  intros [(name & x & [Hne Hn] & Hx & ->)
         |(name & sub & x & [Hne Hn] & [Hne' Hs] & Hx & ->)].
  - destruct name as [|a w]; [congruence|].
    simpl in Hn. apply andb_prop in Hn as [Ha Hw]. norm_app.
    rewrite exec_plus_seq;
      [ | exact Hk | exact Ha | exact Hw | exact (mark_not_name x Hx) ].
    rewrite paren_group_skip by (apply (mark_not_lparen x), Hx).
    rewrite exec_cls_seq, Hx. eexists. reflexivity.
  - destruct name as [|a w]; [congruence|].
    destruct sub as [|d v]; [congruence|].
    simpl in Hn, Hs.
    apply andb_prop in Hn as [Ha Hw]. apply andb_prop in Hs as [Hd Hv].
    norm_app.
    rewrite exec_plus_seq; [ | exact Hk | exact Ha | exact Hw | reflexivity ].
    rewrite exec_opt. unfold paren_group at 1. rewrite exec_group.
    rewrite exec_cls_seq. change (is_char "(" "(") with true. cbv iota.
    rewrite exec_plus_seq; [ | | exact Hd | exact Hv | reflexivity ].
    + rewrite exec_cls. change (is_char ")" ")") with true. cbv iota.
      rewrite exec_cls_seq, Hx. eexists. reflexivity.
    + intros p [|c u] m' H; [discriminate|]. simpl in H.
      rewrite exec_cls, (submode_not_rparen c H). reflexivity.
Qed.

Lemma plus_sound cls pos s m k m' :
  exec (Plus cls) pos s m k = Some m' ->
  exists c w t,
    s = String c (w ++ t) /\ cls c = true /\ Str.all cls w = true
    /\ k (S pos + String.length w) t m = Some m'.
Proof.
  intros H. simpl in H. destruct s as [|c s]; [discriminate|].
  destruct (cls c) eqn:Hc; [|discriminate].
  apply star_sound in H as (w & t & -> & Hw & H).
  exists c, w, t. auto.
Qed.

(** What the pattern matches is a prompt, but for the line feed [$] lets
    through at the very end. *)
Lemma line_pattern_sound l m :
  re_match line_pattern l = Some m ->
  (forall y, l <> y ++ String LF EmptyString) ->
  prompt_line l.
Proof.
  unfold re_match, line_pattern. fold paren_group. rewrite exec_bol.
  intros H Hlf. rewrite exec_seq in H.
  apply plus_sound in H as (a & w & u & -> & Ha & Hw & H).
  assert (Hname : is_name (String a w)).
  { split; [discriminate|]. simpl. rewrite Ha. exact Hw. }
  cbv beta in H. rewrite exec_opt in H.
  destruct (exec paren_group (1 + String.length w) u []
              (fun p u0 m' => exec (Cls mark_char >> Eol) p u0 m' accept))
    as [m0|] eqn:Hg.
  - clear H. unfold paren_group in Hg. rewrite exec_group in Hg.
    destruct u as [|c u]; [discriminate|]. rewrite exec_cls_seq in Hg.
    destruct (is_char "(" c) eqn:Hc; [|discriminate].
    apply lparen_is in Hc as ->. rewrite exec_seq in Hg.
    apply plus_sound in Hg as (d & v & u' & -> & Hd & Hv & Hg).
    cbv beta in Hg.
    destruct u' as [|e u']; [discriminate|]. rewrite exec_cls in Hg.
    destruct (is_char ")" e) eqn:He; [|discriminate].
    apply rparen_is in He as ->.
    apply mark_eol_inv in Hg as (x & Hx & [-> | ->]).
    + assert (Hsub : is_submode (String d v)).
      { split; [discriminate|]. simpl. rewrite Hd. exact Hv. }
      right. exists (String a w), (String d v), x.
      split; [exact Hname|]. split; [exact Hsub|]. split; [exact Hx|].
      norm_app. reflexivity.
    + exfalso.
      apply (Hlf (String a w ++ "(" ++ String d v ++ ")" ++ String x EmptyString)).
      norm_app. reflexivity.
  - apply mark_eol_inv in H as (x & Hx & [-> | ->]).
    + left. exists (String a w), x.
      split; [exact Hname|]. split; [exact Hx|]. reflexivity.
    + exfalso. apply (Hlf (String a w ++ String x EmptyString)).
      norm_app. reflexivity.
Qed.

(** On a stripped line the pattern and the grammar agree. *)
Lemma line_pattern_strip x :
  (exists m, re_match line_pattern (Str.strip x) = Some m)
  <-> prompt_line (Str.strip x).
Proof.
  split.
  - intros [m H]. apply (line_pattern_sound _ _ H).
    intros y E. apply strip_last in E. discriminate.
  - apply line_pattern_complete.
Qed.

(** The line scan returns the first line, stripped, that is a prompt. *)
Lemma scan_lines_spec lines :
  match scan_lines lines with
  | Some l =>
      exists before line after,
        lines = (before ++ line :: after)%list /\ l = Str.strip line
        /\ prompt_line l
        /\ Forall (fun x => ~ prompt_line (Str.strip x)) before
  | None => Forall (fun x => ~ prompt_line (Str.strip x)) lines
  end.
Proof.
  induction lines as [|line rest IH]; simpl; [constructor|].
  destruct (re_match line_pattern (Str.strip line)) as [m|] eqn:Hm.
  - exists [], line, rest. repeat split; [|constructor].
    apply line_pattern_strip. eauto.
  - assert (Hno : ~ prompt_line (Str.strip line)).
    { intros Hp. apply line_pattern_strip in Hp as [m Hp]. congruence. }
    destruct (scan_lines rest) as [l|].
    + destruct IH as (before & line' & after & -> & -> & Hp & Hb).
      exists (line :: before), line', after.
      repeat split; [exact Hp | constructor; assumption].
    + constructor; assumption.
Qed.

(** ** [detect_device_mode] on a text that ends in a prompt *)



Lemma config_alphabet x :
  alphabet config_body x = true -> Str.isspace x = false.
Proof. by_character x. Qed.

Lemma plain_alphabet x :
  alphabet plain_body x = true -> Str.isspace x = false.
Proof. by_character x. Qed.

Lemma newline_not_backspace c :
  newline_char c = true -> negb (Ascii.eqb c BS) = true.
Proof. by_character c. Qed.


Lemma first_pattern_hit p ps s tok :
  search p s = Some [(1, tok)] ->
  first_pattern (p :: ps) s = Some (Str.strip tok).
Proof. intros H. simpl. rewrite H. reflexivity. Qed.

Lemma first_pattern_miss p ps s :
  search p s = None -> first_pattern (p :: ps) s = first_pattern ps s.
Proof. intros H. simpl. rewrite H. reflexivity. Qed.

Lemma detect_nonempty output :
  output <> EmptyString ->
  detect_device_mode output =
  match first_pattern patterns (clean output) with
  | Some mode => mode
  | None =>
      match scan_lines
              (rev (Str.last_n 5 (Str.split LF (Str.strip (clean output)))))
      with
      | Some line => line
      | None => "unknown"
      end
  end.
Proof.
  intros H. unfold detect_device_mode.
  apply String.eqb_neq in H. rewrite H. reflexivity.
Qed.





(** ** [detect_device_mode] when no pattern is found *)

Lemma detect_by_scan output :
  search (anchored config_body) (clean output) = None ->
  search (anchored plain_body) (clean output) = None ->
  detect_device_mode output =
  match scan_lines
          (rev (Str.last_n 5 (Str.split LF (Str.strip (clean output)))))
  with
  | Some line => line
  | None => "unknown"
  end.
Proof.
  intros H1 H2. destruct output as [|c output]; [reflexivity|].
  rewrite detect_nonempty by discriminate.
  unfold patterns. rewrite !first_pattern_miss by assumption. reflexivity.
Qed.

(** C8, as the code has it: [detect_device_mode] is a function, defined on
    every string.  When neither pattern is found in the cleaned text, it
    goes through the last five lines at most of the stripped cleaned
    text, empty lines counted, from the last one up, and returns the
    first that, stripped, is a prompt [<name>(<paren-group>)?<#|>>] with
    nothing after it; when none is, it returns ["unknown"]. *)
Theorem detect_fallback_scan (output : string) :
  search (anchored config_body) (clean output) = None ->
  search (anchored plain_body) (clean output) = None ->
  let lines :=
    rev (Str.last_n 5 (Str.split LF (Str.strip (clean output)))) in
  (exists before line after,
      lines = (before ++ line :: after)%list
      /\ prompt_line (Str.strip line)
      /\ Forall (fun x => ~ prompt_line (Str.strip x)) before
      /\ detect_device_mode output = Str.strip line)
  \/ (Forall (fun x => ~ prompt_line (Str.strip x)) lines
      /\ detect_device_mode output = "unknown").
Proof.
  intros H1 H2 lines. rewrite (detect_by_scan _ H1 H2). fold lines.
  pose proof (scan_lines_spec lines) as H.
  destruct (scan_lines lines) as [l|].
  - left. destruct H as (before & line & after & E & -> & Hp & Hb).
    exists before, line, after. auto.
  - right. auto.
Qed.

Lemma detect_fallback_scan_witness :
  let lines :=
    rev (Str.last_n 5
           (Str.split LF (Str.strip (clean blank_lines_output)))) in
  (exists before line after,
      lines = (before ++ line :: after)%list
      /\ prompt_line (Str.strip line)
      /\ Forall (fun x => ~ prompt_line (Str.strip x)) before
      /\ detect_device_mode blank_lines_output = Str.strip line)
  \/ (Forall (fun x => ~ prompt_line (Str.strip x)) lines
      /\ detect_device_mode blank_lines_output = "unknown").
Proof.
  apply (detect_fallback_scan blank_lines_output); vm_compute; reflexivity.
Defined.

(** C8 as it is stated fails: the lines gone through are the last five,
    not the last five that are not empty, so a prompt followed by blank
    lines and a last line of text is out of reach. *)
Lemma detect_fallback_scan_counterexample :
  ~ (forall output,
       search (anchored config_body) (clean output) = None ->
       search (anchored plain_body) (clean output) = None ->
       detect_device_mode output = detect_as_specified output).
Proof.
  intros H. specialize (H blank_lines_output eq_refl eq_refl).
  vm_compute in H. discriminate.
Qed.

(** ** A prompt after white space on its line *)












Lemma space_not_token c : Str.isspace c = true -> token_char c = false.
Proof. by_character c. Qed.












(** ** The wait of a slow command *)

Lemma lower_char_space c : Str.isspace (Str.lower_char c) = Str.isspace c.
Proof. by_character c. Qed.

Lemma lstrip_lower s : Str.lstrip (Str.lower s) = Str.lower (Str.lstrip s).
Proof.
  induction s as [|c s IH]; [reflexivity|].
  simpl. rewrite lower_char_space. destruct (Str.isspace c); [exact IH|].
  reflexivity.
Qed.

Lemma rstrip_lower s : Str.rstrip (Str.lower s) = Str.lower (Str.rstrip s).
Proof.
  induction s as [|c s IH]; [reflexivity|].
  simpl. rewrite IH, lower_char_space.
  destruct (Str.rstrip s); simpl; [|reflexivity].
  destruct (Str.isspace c); reflexivity.
Qed.

(** Stripping and lowering commute. *)
Lemma strip_lower s : Str.strip (Str.lower s) = Str.lower (Str.strip s).
Proof. unfold Str.strip. rewrite lstrip_lower, rstrip_lower. reflexivity. Qed.

Lemma adjust_wait_spec cmds command_lower wait_ms :
  adjust_wait cmds command_lower wait_ms =
  if existsb (fun kw => String.prefix kw command_lower) cmds
  then Z.max wait_ms 12000 else wait_ms.
Proof.
  induction cmds as [|cmd rest IH]; [reflexivity|].
  simpl. unfold Str.startswith.
  destruct (String.prefix cmd command_lower); [reflexivity | exact IH].
Qed.

Lemma prefix_cons a k b s :
  String.prefix (String a k) (String b s) = true ->
  a = b /\ String.prefix k s = true.
Proof. simpl. destruct (ascii_dec a b); [auto | discriminate]. Qed.

Lemma prefix_cons_intro a k s :
  String.prefix k s = true -> String.prefix (String a k) (String a s) = true.
Proof. intros H. simpl. destruct (ascii_dec a a); [exact H | congruence]. Qed.

Lemma prefix_rstrip kw s :
  ends_in_text kw = true -> String.prefix kw s = true ->
  String.prefix kw (Str.rstrip s) = true.
Proof.
  revert kw. induction s as [|b s IH]; intros kw Hkw H.
  - destruct kw; [discriminate | exact H].
  - destruct kw as [|a kw]; [discriminate|].
    apply prefix_cons in H as [-> H].
    change (Str.rstrip (String b s))
      with (match Str.rstrip s with
            | EmptyString =>
                if Str.isspace b then EmptyString else String b EmptyString
            | r' => String b r'
            end).
    destruct kw as [|a' kw].
    + simpl in Hkw. destruct (Str.isspace b); [discriminate|].
      destruct (Str.rstrip s); apply prefix_cons_intro; reflexivity.
    + assert (Hkw' : ends_in_text (String a' kw) = true) by exact Hkw.
      specialize (IH _ Hkw' H).
      destruct (Str.rstrip s) as [|c r]; [discriminate|].
      apply prefix_cons_intro, IH.
Qed.

Lemma prefix_strip kw s :
  negb (starts Str.isspace kw) = true -> ends_in_text kw = true ->
  String.prefix kw s = true -> String.prefix kw (Str.strip s) = true.
Proof.
  intros Hs He H. unfold Str.strip. apply prefix_rstrip; [exact He|].
  destruct kw as [|a kw]; [discriminate|]. destruct s as [|b s]; [discriminate|].
  pose proof H as H'. apply prefix_cons in H' as [<- _].
  simpl in Hs. simpl. destruct (Str.isspace a); [discriminate | exact H].
Qed.

Lemma existsb_prefix_strip (cmds : list string) s :
  forallb (fun kw => negb (starts Str.isspace kw) && ends_in_text kw) cmds
  = true ->
  existsb (fun kw => String.prefix kw s) cmds = true ->
  existsb (fun kw => String.prefix kw (Str.strip s)) cmds = true.
Proof.
  induction cmds as [|kw rest IH]; [discriminate|].
  simpl. intros [[Hs He]%andb_prop Hrest]%andb_prop H.
  apply orb_prop in H as [H|H].
  - rewrite (prefix_strip _ _ Hs He H). reflexivity.
  - rewrite (IH Hrest H). apply orb_true_r.
Qed.

(** C4, as the code has it: the wait [execute] polls with is
    [max(wait_ms, 12000)] when the command, once stripped of the white
    space around it, begins with a slow-command keyword, letter case
    apart, and the caller's [wait_ms] otherwise; a command that itself
    begins with a keyword is such a command. *)
Theorem slow_command_wait (command : string) (wait_ms : Z) :
  effective_wait_ms command wait_ms
  = (if begins_with_keyword (Str.strip command)
     then Z.max wait_ms 12000 else wait_ms)
  /\ (begins_with_keyword command = true ->
      effective_wait_ms command wait_ms = Z.max wait_ms 12000)
  /\ forall env fuel sid session w,
       sessions w !! sid = Some session ->
       execute env fuel sid command wait_ms w
       = send_and_poll env fuel session command
           (effective_wait_ms command wait_ms) w.
Proof.
  assert (E : effective_wait_ms command wait_ms
              = (if begins_with_keyword (Str.strip command)
                 then Z.max wait_ms 12000 else wait_ms)).
  { unfold effective_wait_ms, begins_with_keyword.
    rewrite adjust_wait_spec, strip_lower. reflexivity. }
  split; [exact E|]. split.
  - intros H. rewrite E. unfold begins_with_keyword in *.
    rewrite <- strip_lower.
    rewrite (existsb_prefix_strip long_running_commands _ eq_refl H).
    reflexivity.
  - intros env fuel sid session w Hs. unfold execute. rewrite Hs. reflexivity.
Qed.

(** ** The monad and the log *)

Lemma bind_to_seconds {A} ms (f : Q -> M A) w :
  converts_to_float ms = true ->
  bind (to_seconds ms) f w = f (seconds_of_ms ms) w.
Proof. intros H. unfold bind, to_seconds. rewrite H. reflexivity. Qed.

Lemma bind_to_seconds_overflow {A} ms (f : Q -> M A) w :
  converts_to_float ms = false ->
  bind (to_seconds ms) f w = Some (Raise overflow_error, w).
Proof. intros H. unfold bind, to_seconds. rewrite H. reflexivity. Qed.

(** An [int] beyond the floats stops [connect] and [execute] at the
    division, before they have done anything. *)
Lemma connect_overflow env fuel host port timeout w :
  converts_to_float timeout = false ->
  connect env fuel host port timeout w = Some (Raise overflow_error, w).
Proof. intros H. unfold connect. apply bind_to_seconds_overflow, H. Qed.

Lemma connect_ret_converts env fuel host port timeout w sid w' :
  connect env fuel host port timeout w = Some (Ret sid, w') ->
  converts_to_float timeout = true.
Proof.
  intros H. destruct (converts_to_float timeout) eqn:Hc; [reflexivity|].
  rewrite (connect_overflow _ _ _ _ _ _ Hc) in H. discriminate.
Qed.

Lemma send_and_poll_overflow env fuel session command wait_ms w :
  converts_to_float wait_ms = false ->
  send_and_poll env fuel session command wait_ms w
  = Some (Raise overflow_error, w).
Proof. intros H. unfold send_and_poll. apply bind_to_seconds_overflow, H. Qed.

Lemma converts_small n :
  (Z.abs n <= 1000000000)%Z -> converts_to_float n = true.
Proof.
  intros H. unfold converts_to_float. apply Z.ltb_lt.
  assert (1000000000 < 2 ^ 1024 - 2 ^ 970)%Z by (vm_compute; reflexivity).
  lia.
Qed.

Lemma count_app p (l1 l2 : list event) :
  count p (l1 ++ l2)%list = count p l1 + count p l2.
Proof. induction l1 as [|e l1 IH]; simpl; [reflexivity | rewrite IH; lia]. Qed.

Lemma count_read_after_read h n t w :
  count (is_read h) (log (with_event (Read h n t) w))
  = S (count (is_read h) (log w)).
Proof. simpl. rewrite count_app. simpl. rewrite Nat.eqb_refl. lia. Qed.

Lemma count_read_after_sleep h s w :
  count (is_read h) (log (with_event (Sleep s) w)) = count (is_read h) (log w).
Proof. simpl. rewrite count_app. simpl. lia. Qed.

Lemma count_drain_after_write h h' data w :
  count (is_drain h) (log (with_event (Write h' data) w))
  = count (is_drain h) (log w).
Proof. simpl. rewrite count_app. simpl. lia. Qed.

(** [execute] on a known session, once the wait is in seconds: the
    write, the flush, and the loop when the flush returns. *)
Lemma send_and_poll_in_range env fuel session command wait_ms w :
  converts_to_float wait_ms = true ->
  send_and_poll env fuel session command wait_ms w
  = let w1 := with_event (Drain (writer session))
                (with_event (Write (writer session) (command ++ CRLF)) w) in
    match env_drain env (writer session)
            (count (is_drain (writer session)) (log w)) with
    | Some e => Some (Raise e, w1)
    | None =>
        read_loop env fuel session (seconds_of_ms wait_ms)
          (env_time env (ticks w)) EmptyString (env_time env (ticks w))
          (with_tick w1)
    end.
Proof.
  intros H. unfold send_and_poll. rewrite (bind_to_seconds _ _ _ H).
  unfold bind, write, drain, loop_time. cbn beta iota zeta.
  rewrite count_drain_after_write.
  destruct (env_drain env (writer session) _); reflexivity.
Qed.

Lemma nonempty_false s : nonempty s = false -> s = EmptyString.
Proof.
  unfold nonempty. intros H. apply negb_false_iff in H.
  apply String.eqb_eq, H.
Qed.

Lemma nonempty_true s : s <> EmptyString -> nonempty s = true.
Proof.
  unfold nonempty. intros H. apply String.eqb_neq in H. rewrite H. reflexivity.
Qed.

Lemma not_Qle_bool x y : ~ (x <= y)%Q -> Qle_bool x y = false.
Proof.
  intros H. destruct (Qle_bool x y) eqn:E; [|reflexivity].
  apply Qle_bool_iff in E. contradiction.
Qed.

(** ** One round of the loop *)

Lemma read_loop_round env fuel session wait_seconds start_time output
    last_data_time w :
  read_loop env (S fuel) session wait_seconds start_time output
    last_data_time w
  = match loop_round env session wait_seconds start_time output
            last_data_time w with
    | Done out w' => Some (Ret out, w')
    | Again output' last' w' =>
        read_loop env fuel session wait_seconds start_time output' last' w'
    end.
Proof.
  cbn [read_loop]. unfold loop_round, bind, loop_time, attempt, read, sleep, ret.
  cbn beta iota zeta.
  destruct (Qle_bool wait_seconds (env_time env (ticks w) - start_time));
    [reflexivity|].
  destruct (env_read env (reader session)
              (count (is_read (reader session)) (log (with_tick w))))
    as [data|[]]; try reflexivity.
  - destruct (nonempty data); [|reflexivity].
    destruct (search prompt_pattern (clean (output ++ data))); [|reflexivity].
    destruct (env_read env (reader session)
                (count (is_read (reader session))
                   (log (with_event (Sleep grace_delay)
                           (with_event
                              (Read (reader session) read_size poll_timeout)
                              (with_tick w))))))
      as [extra|[]]; try reflexivity.
    destruct (nonempty extra); reflexivity.
  - destruct (Qle_bool idle_threshold
                (env_time env (ticks w) - last_data_time) && nonempty output);
      [|reflexivity].
    destruct (search prompt_pattern (clean output)); reflexivity.
Qed.


(** A round reads the clock once, leaves [sessions] alone, and adds to
    [output] exactly what its reads deliver. *)
Lemma round_facts env session wait_seconds start_time output last w :
  let r := loop_round env session wait_seconds start_time output last w in
  let h := reader session in
  sessions (round_world r) = sessions w
  /\ ticks (round_world r) = S (ticks w)
  /\ exists n,
       count (is_read h) (log (round_world r))
       = count (is_read h) (log w) + n
       /\ round_output r
          = output ++ received env h (count (is_read h) (log w)) n.
Proof.
  cbv zeta. unfold loop_round. cbn zeta.
  destruct (Qle_bool wait_seconds (env_time env (ticks w) - start_time)).
  { split; [reflexivity|]. split; [reflexivity|]. exists 0. simpl.
    rewrite app_nil_r. split; [lia | reflexivity]. }
  change (log (with_tick w)) with (log w).
  destruct (env_read env (reader session)
              (count (is_read (reader session)) (log w)))
    as [data|e] eqn:Hr.
  - destruct (nonempty data) eqn:Hd.
    + destruct (search prompt_pattern (clean (output ++ data))).
      * rewrite count_read_after_sleep, count_read_after_read.
        change (log (with_tick w)) with (log w).
        destruct (env_read env (reader session)
                    (S (count (is_read (reader session)) (log w))))
          as [extra|e] eqn:Hr'.
        -- assert (Hout : (if nonempty extra
                           then (output ++ data) ++ extra
                           else output ++ data)
                          = output
                            ++ received env (reader session)
                                 (count (is_read (reader session)) (log w)) 2).
           { simpl. rewrite Hr, Hr', app_nil_r.
             destruct (nonempty extra) eqn:He.
             - rewrite app_assoc. reflexivity.
             - rewrite (nonempty_false _ He), app_nil_r. reflexivity. }
           destruct (nonempty extra); simpl round_world; simpl round_output;
             (split; [reflexivity|]; split; [reflexivity|]; exists 2;
              split; [|exact Hout]);
             rewrite count_read_after_read, count_read_after_sleep,
               count_read_after_read; simpl; lia.
        -- assert (Hout : output ++ data
                          = output
                            ++ received env (reader session)
                                 (count (is_read (reader session)) (log w)) 2).
           { simpl. rewrite Hr, Hr', !app_nil_r. reflexivity. }
           destruct e; simpl round_world; simpl round_output;
             (split; [reflexivity|]; split; [reflexivity|]; exists 2;
              split; [|exact Hout]);
             rewrite count_read_after_read, count_read_after_sleep,
               count_read_after_read; simpl; lia.
      * split; [reflexivity|]. split; [reflexivity|]. exists 1.
        simpl round_world. simpl round_output.
        rewrite count_read_after_read. simpl. rewrite Hr, app_nil_r.
        split; [lia | reflexivity].
    + split; [reflexivity|]. split; [reflexivity|]. exists 1.
      simpl round_world. simpl round_output.
      rewrite count_read_after_read. simpl.
      rewrite Hr, (nonempty_false _ Hd), !app_nil_r.
      split; [lia | reflexivity].
  - assert (Hout : output
                   = output
                     ++ received env (reader session)
                          (count (is_read (reader session)) (log w)) 1).
    { simpl. rewrite Hr, !app_nil_r. reflexivity. }
    assert (Hn : count (is_read (reader session))
                   (log (with_event
                           (Read (reader session) read_size poll_timeout)
                           (with_tick w)))
                 = count (is_read (reader session)) (log w) + 1).
    { rewrite count_read_after_read. simpl. lia. }
    destruct e;
      repeat match goal with
             | |- context [if ?b then _ else _] => destruct b
             | |- context [match search ?p ?s with _ => _ end] =>
                 destruct (search p s)
             end;
      (split; [reflexivity|]; split; [reflexivity|]; exists 1;
       split; [exact Hn | exact Hout]).
Qed.

(** Past the deadline a round returns [output] as it stands. *)
Lemma round_deadline env session wait_seconds start_time output last w :
  (wait_seconds <= env_time env (ticks w) - start_time)%Q ->
  loop_round env session wait_seconds start_time output last w
  = Done output (with_tick w).
Proof.
  intros H. apply Qle_bool_iff in H. unfold loop_round. cbn zeta.
  rewrite H. reflexivity.
Qed.


Lemma read_loop_sessions env session wait_seconds start_time fuel :
  forall output last w r w',
    read_loop env fuel session wait_seconds start_time output last w
    = Some (r, w') ->
    sessions w' = sessions w.
Proof.
  induction fuel as [|fuel IH]; intros output last w r w' H; [discriminate|].
  rewrite read_loop_round in H.
  pose proof (round_facts env session wait_seconds start_time output last w)
    as (Hs & _).
  destruct (loop_round env session wait_seconds start_time output last w)
    as [out w1|out last' w1]; simpl in Hs.
  - injection H as _ <-. exact Hs.
  - rewrite (IH _ _ _ _ _ H). exact Hs.
Qed.

(** Before the deadline a device that never answers keeps the loop going:
    the wait is the time [execute] is ready to spend. *)
Lemma read_loop_before_deadline env session wait_seconds start_time fuel :
  forall last w,
    (forall i, i < fuel ->
       ~ (wait_seconds <= env_time env (ticks w + i) - start_time)%Q) ->
    (forall k, env_read env (reader session) k = ReadRaises TimeoutError) ->
    read_loop env fuel session wait_seconds start_time EmptyString last w
    = None.
Proof.
  induction fuel as [|fuel IH]; intros last w Hd Hr; [reflexivity|].
  rewrite read_loop_round. unfold loop_round. cbn zeta.
  assert (H0 : ~ (wait_seconds <= env_time env (ticks w) - start_time)%Q).
  { specialize (Hd 0). rewrite Nat.add_0_r in Hd. apply Hd. lia. }
  rewrite (not_Qle_bool _ _ H0), Hr, andb_false_r.
  apply IH; [|exact Hr].
  intros i Hi. simpl ticks.
  replace (S (ticks w) + i) with (ticks w + S i) by lia.
  apply Hd. lia.
Qed.



(** ** [execute] *)

(** C1, where the code keeps it: when a poll read of [execute] returns
    data and the cleaned buffer ends in the prompt pattern, [execute]
    sleeps 200 ms and reads once more; if that read returns, with data or
    without, or times out, [execute] appends what it returned and returns
    in that very round, whatever is left of the deadline.  When that read
    raises another exception the code misses its [break]. *)
Theorem grace_exit env fuel session wait_seconds start_time output last w
    data m :
  let h := reader session in
  let k := count (is_read h) (log w) in
  ~ (wait_seconds <= env_time env (ticks w) - start_time)%Q ->
  env_read env h k = Data data ->
  data <> EmptyString ->
  search prompt_pattern (clean (output ++ data)) = Some m ->
  (exists extra, env_read env h (S k) = Data extra)
  \/ env_read env h (S k) = ReadRaises TimeoutError ->
  read_loop env (S fuel) session wait_seconds start_time output last w
  = Some (Ret ((output ++ data) ++ delivered (env_read env h (S k))),
          with_event (Read h read_size poll_timeout)
            (with_event (Sleep grace_delay)
               (with_event (Read h read_size poll_timeout) (with_tick w)))).
Proof.
  intros h k Hw Hr Hd Hm Hg. rewrite read_loop_round. unfold loop_round.
  cbn zeta. rewrite (not_Qle_bool _ _ Hw).
  change (log (with_tick w)) with (log w). fold h. fold k.
  rewrite Hr, (nonempty_true _ Hd), Hm.
  rewrite count_read_after_sleep, count_read_after_read.
  change (log (with_tick w)) with (log w). fold k.
  destruct Hg as [[extra ->] | ->]; simpl delivered.
  - destruct (nonempty extra) eqn:He; [reflexivity|].
    rewrite (nonempty_false _ He), app_nil_r. reflexivity.
  - rewrite app_nil_r. reflexivity.
Qed.

(** C3: when a bounded read times out, at least one second after the last
    data (or after the start, if there was none), with some output
    already there, and the cleaned buffer ends in the prompt pattern,
    [execute] returns in that round, with no further read. *)
Theorem silence_exit env fuel session wait_seconds start_time output last w
    m :
  let h := reader session in
  ~ (wait_seconds <= env_time env (ticks w) - start_time)%Q ->
  env_read env h (count (is_read h) (log w)) = ReadRaises TimeoutError ->
  (idle_threshold <= env_time env (ticks w) - last)%Q ->
  output <> EmptyString ->
  search prompt_pattern (clean output) = Some m ->
  read_loop env (S fuel) session wait_seconds start_time output last w
  = Some (Ret output,
          with_event (Read h read_size poll_timeout) (with_tick w)).
Proof.
  intros h Hw Hr Hi Ho Hm. rewrite read_loop_round. unfold loop_round.
  cbn zeta. rewrite (not_Qle_bool _ _ Hw).
  change (log (with_tick w)) with (log w). fold h.
  apply Qle_bool_iff in Hi.
  rewrite Hr, Hi, (nonempty_true _ Ho), Hm. reflexivity.
Qed.

Lemma execute_missing env fuel sid command wait_ms w :
  sessions w !! sid = None ->
  execute env fuel sid command wait_ms w
  = Some (Raise (ValueError ("会话不存在: " ++ sid)), w).
Proof. intros H. unfold execute. rewrite H. reflexivity. Qed.

(** C5: [execute] on an identifier that is not a key of [sessions] raises
    the unknown-session error and changes nothing: no write, no read, the
    same [sessions]. *)
Theorem execute_unknown_session env fuel sid command wait_ms w :
  sessions w !! sid = None ->
  exists w',
    execute env fuel sid command wait_ms w
    = Some (Raise (ValueError ("会话不存在: " ++ sid)), w')
    /\ log w' = log w /\ sessions w' = sessions w /\ w' = w.
Proof.
  intros H. exists w. rewrite (execute_missing _ _ _ _ _ _ H). auto.
Qed.

Lemma send_and_poll_sessions env fuel session command wait_ms w r w' :
  send_and_poll env fuel session command wait_ms w = Some (r, w') ->
  sessions w' = sessions w.
Proof.
  destruct (converts_to_float wait_ms) eqn:Hc.
  - rewrite (send_and_poll_in_range _ _ _ _ _ _ Hc). cbn zeta.
    destruct (env_drain env (writer session) _).
    + intros H. injection H as _ <-. reflexivity.
    + intros H. apply read_loop_sessions in H. exact H.
  - rewrite (send_and_poll_overflow _ _ _ _ _ _ Hc).
    intros H. injection H as _ <-. reflexivity.
Qed.

Lemma execute_sessions env fuel sid command wait_ms w r w' :
  execute env fuel sid command wait_ms w = Some (r, w') ->
  sessions w' = sessions w.
Proof.
  unfold execute. destruct (sessions w !! sid) as [session|].
  - apply send_and_poll_sessions.
  - intros H. injection H as _ <-. reflexivity.
Qed.

(** [execute] on a known session with a wait that converts to seconds. *)
Lemma execute_known env fuel sid session command wait_ms w :
  sessions w !! sid = Some session ->
  converts_to_float (effective_wait_ms command wait_ms) = true ->
  execute env fuel sid command wait_ms w
  = let w1 := with_event (Drain (writer session))
                (with_event (Write (writer session) (command ++ CRLF)) w) in
    match env_drain env (writer session)
            (count (is_drain (writer session)) (log w)) with
    | Some e => Some (Raise e, w1)
    | None =>
        read_loop env fuel session
          (seconds_of_ms (effective_wait_ms command wait_ms))
          (env_time env (ticks w)) EmptyString (env_time env (ticks w))
          (with_tick w1)
    end.
Proof.
  intros Hs Hc. unfold execute. rewrite Hs.
  apply send_and_poll_in_range, Hc.
Qed.

(** [execute] on a known session with a wait beyond the floats. *)
Lemma execute_overflow env fuel sid session command wait_ms w :
  sessions w !! sid = Some session ->
  converts_to_float (effective_wait_ms command wait_ms) = false ->
  execute env fuel sid command wait_ms w = Some (Raise overflow_error, w).
Proof.
  intros Hs Hc. unfold execute. rewrite Hs.
  apply send_and_poll_overflow, Hc.
Qed.


(** ** [disconnect] *)

(** C9: [disconnect] on a key of [sessions] calls [close] on the session's
    writer, once, goes on whether [close] raises or not, deletes the
    entry and returns [True]; [execute] on that identifier then raises the
    unknown-session error. *)
Theorem disconnect_then_execute env sid session w :
  sessions w !! sid = Some session ->
  exists w',
    disconnect env sid w = Some (Ret true, w')
    /\ sessions w' = delete sid (sessions w)
    /\ log w' = (log w ++ [Close (writer session)])%list
    /\ forall fuel command wait_ms,
         execute env fuel sid command wait_ms w'
         = Some (Raise (ValueError ("会话不存在: " ++ sid)), w').
Proof.
  intros Hs. unfold disconnect. rewrite Hs.
  unfold bind, attempt, close, unregister, ret. cbn beta iota.
  eexists. split.
  - destruct (env_close env (writer session)); reflexivity.
  - split; [reflexivity|]. split; [reflexivity|].
    intros fuel command wait_ms. apply execute_missing.
    simpl. apply lookup_delete_eq.
Qed.

(** ** [connect] *)

Lemma keeps_ret {A} (a : A) : keeps_sessions (ret a).
Proof. intros w r w' H. injection H as _ <-. reflexivity. Qed.

Lemma keeps_raise {A} e : keeps_sessions (@raise A e).
Proof. intros w r w' H. injection H as _ <-. reflexivity. Qed.

Lemma keeps_bind {A B} (m : M A) (f : A -> M B) :
  keeps_sessions m -> (forall a, keeps_sessions (f a)) ->
  keeps_sessions (bind m f).
Proof.
  intros Hm Hf w r w' H. unfold bind in H.
  destruct (m w) as [[[a|e] w1]|] eqn:E; [| |discriminate].
  - rewrite (Hf a _ _ _ H). apply (Hm _ _ _ E).
  - injection H as _ <-. apply (Hm _ _ _ E).
Qed.

Lemma keeps_attempt {A} (m : M A) :
  keeps_sessions m -> keeps_sessions (attempt m).
Proof.
  intros Hm w r w' H. unfold attempt in H.
  destruct (m w) as [[r1 w1]|] eqn:E; [|discriminate].
  injection H as _ <-. apply (Hm _ _ _ E).
Qed.

Lemma keeps_write h data : keeps_sessions (write h data).
Proof. intros w r w' H. injection H as _ <-. reflexivity. Qed.

Lemma keeps_sleep s : keeps_sessions (sleep s).
Proof. intros w r w' H. injection H as _ <-. reflexivity. Qed.

Lemma keeps_drain env h : keeps_sessions (drain env h).
Proof.
  intros w r w' H. unfold drain in H.
  destruct (env_drain env h _); injection H as _ <-; reflexivity.
Qed.

Lemma keeps_read env h : keeps_sessions (read env h).
Proof.
  intros w r w' H. unfold read in H.
  destruct (env_read env h _); injection H as _ <-; reflexivity.
Qed.

Lemma keeps_repeat n (body : M unit) :
  keeps_sessions body -> keeps_sessions (repeat_do n body).
Proof.
  intros Hb. induction n as [|n IH]; simpl.
  - apply keeps_ret.
  - apply keeps_bind; auto.
Qed.

Lemma keeps_discard env fuel h :
  forall acc, keeps_sessions (discard_output env fuel h acc).
Proof.
  induction fuel as [|fuel IH]; intros acc; simpl.
  - intros w r w' H. discriminate.
  - apply keeps_bind; [apply keeps_attempt, keeps_read|].
    intros [data|[]]; try apply keeps_raise; try apply keeps_ret.
    destruct (nonempty data); [apply IH | apply keeps_ret].
Qed.

Lemma yields_ret {A} (P : A -> Prop) (a : A) : P a -> yields P (ret a).
Proof.
  intros Ha w r w' H. injection H as <- <-.
  split; [reflexivity|]. intros a' E. injection E as <-. exact Ha.
Qed.

Lemma yields_bind {A B} (P : B -> Prop) (m : M A) (f : A -> M B) :
  keeps_sessions m -> (forall a, yields P (f a)) -> yields P (bind m f).
Proof.
  intros Hm Hf w r w' H. unfold bind in H.
  destruct (m w) as [[[a|e] w1]|] eqn:E; [| |discriminate].
  - destruct (Hf a _ _ _ H) as [Hs Hp]. split; [|exact Hp].
    rewrite Hs. apply (Hm _ _ _ E).
  - injection H as <- <-. split; [apply (Hm _ _ _ E)|]. discriminate.
Qed.

Ltac keeps :=
  repeat (first
    [ apply keeps_bind; [|intros ?]
    | apply keeps_repeat
    | apply keeps_write
    | apply keeps_drain
    | apply keeps_sleep
    | apply keeps_discard
    | apply keeps_ret
    | match goal with
      | |- keeps_sessions (if ?b then _ else _) => destruct b
      end ]).

Lemma prefix_app p s : String.prefix p (p ++ s) = true.
Proof.
  induction p as [|a p IH]; [destruct s; reflexivity|].
  rewrite app_cons. apply prefix_cons_intro, IH.
Qed.

Lemma contains_here p s : String.prefix p s = true -> Str.contains p s = true.
Proof. intros H. destruct s; simpl in *; rewrite H; reflexivity. Qed.

Lemma contains_app p pre s :
  Str.contains p s = true -> Str.contains p (pre ++ s) = true.
Proof.
  intros H. induction pre as [|a pre IH]; [exact H|].
  rewrite app_cons.
  change (Str.contains p (String a (pre ++ s)))
    with (String.prefix p (String a (pre ++ s)) || Str.contains p (pre ++ s)).
  rewrite IH. apply orb_true_r.
Qed.

Lemma contains_middle p pre post : Str.contains p (pre ++ p ++ post) = true.
Proof. apply contains_app, contains_here, prefix_app. Qed.

(** What the [except] clauses of [connect] raise names the endpoint. *)
Lemma handler_names_endpoint host port (e : exn) :
  exists msg,
    match e with
    | TimeoutError =>
        ConnectionError ("连接超时: " ++ host ++ ":" ++ Str.of_int port)
    | _ =>
        ConnectionError
          ("连接失败: " ++ host ++ ":" ++ Str.of_int port ++ " - " ++ exn_str e)
    end = ConnectionError msg
    /\ Str.contains (host ++ ":" ++ Str.of_int port) msg = true.
Proof.
  assert (H1 : Str.contains (host ++ ":" ++ Str.of_int port)
                 ("连接超时: " ++ host ++ ":" ++ Str.of_int port) = true).
  { rewrite <- (app_nil_r (host ++ ":" ++ Str.of_int port)) at 2.
    apply contains_middle. }
  assert (H2 : forall d,
             Str.contains (host ++ ":" ++ Str.of_int port)
               ("连接失败: " ++ host ++ ":" ++ Str.of_int port ++ " - " ++ d)
             = true).
  { intros d.
    replace (host ++ ":" ++ Str.of_int port ++ " - " ++ d)
      with ((host ++ ":" ++ Str.of_int port) ++ " - " ++ d)
      by (rewrite !app_assoc; reflexivity).
    apply contains_middle. }
  destruct e; eexists; (split; [reflexivity|]); auto.
Qed.

(** [connect] with a timeout that converts to seconds, by what
    [open_connection] does: when the transport does not
    open, [sessions] is as before; when it opens, the new session is in
    [sessions] under its identifier, whether [connect] then returns that
    identifier or raises.  What [connect] raises is a connection error
    that names the endpoint. *)
Lemma connect_cases env fuel host port timeout w r w' :
  let h := count is_open (log w) in
  let session :=
    {| session_id := env_uuid4 env h; host := host; port := port;
       reader := h; writer := h; connected_at := env_now env h |} in
  converts_to_float timeout = true ->
  connect env fuel host port timeout w = Some (r, w') ->
  (r = Ret (env_uuid4 env h)
   \/ exists msg, r = Raise (ConnectionError msg)
        /\ Str.contains (host ++ ":" ++ Str.of_int port) msg = true)
  /\ match env_open env h with
     | Some _ =>
         sessions w' = sessions w /\ r <> Ret (env_uuid4 env h)
     | None => sessions w' = <[env_uuid4 env h := session]> (sessions w)
     end.
Proof.
  intros h session Hf. unfold connect. rewrite (bind_to_seconds _ _ _ Hf).
  unfold try_except. unfold bind at 1. unfold open_connection. fold h.
  destruct (env_open env h) as [e|].
  - unfold raise. intros H.
    destruct (handler_names_endpoint host port e) as (msg & E & Hc).
    destruct e; injection E as <-; injection H as <- <-;
      (split; [right; eexists; split; [reflexivity | exact Hc]
              | split; [reflexivity | discriminate]]).
  - cbn beta iota zeta. unfold bind at 1. unfold register at 1.
    cbn beta iota. fold session.
    match goal with
    | |- match ?m ?w2 with _ => _ end = _ -> _ =>
        assert (K : yields (fun a => a = env_uuid4 env h) m);
        [| destruct (m w2) as [[[a|e] w3]|] eqn:E; [| |discriminate]]
    end.
    + repeat (apply yields_bind; [keeps | intros ?]).
      apply yields_ret. reflexivity.
    + intros H. injection H as <- <-.
      apply K in E as [E Ha]. simpl in E. split; [|exact E].
      left. f_equal. apply Ha. reflexivity.
    + intros H. apply K in E as [E _]. simpl in E.
      destruct (handler_names_endpoint host port e) as (msg & Em & Hc).
      unfold raise in H.
      destruct e; injection Em as <-; injection H as <- <-;
        (split; [right; eexists; split; [reflexivity | exact Hc] | exact E]).
Qed.

(** ** The invariant of [sessions] *)

Lemma keys_match_insert w sid session :
  keys_match w -> session_id session = sid ->
  forall w', sessions w' = <[sid := session]> (sessions w) -> keys_match w'.
Proof.
  intros Hk Hid w' E k s H. rewrite E in H.
  apply lookup_insert_Some in H as [[<- <-]|[_ H]]; [exact Hid|].
  apply (Hk _ _ H).
Qed.

Lemma keys_match_delete w sid :
  keys_match w ->
  forall w', sessions w' = delete sid (sessions w) -> keys_match w'.
Proof.
  intros Hk w' E k s H. rewrite E in H.
  apply lookup_delete_Some in H as [_ H]. apply (Hk _ _ H).
Qed.

Lemma keys_match_same w :
  keys_match w -> forall w', sessions w' = sessions w -> keys_match w'.
Proof. intros Hk w' E k s H. rewrite E in H. apply (Hk _ _ H). Qed.

Lemma disconnect_cases env sid w r w' :
  disconnect env sid w = Some (r, w') ->
  match sessions w !! sid with
  | Some _ => r = Ret true /\ sessions w' = delete sid (sessions w)
  | None =>
      r = Raise (ValueError ("会话不存在: " ++ sid))
      /\ sessions w' = sessions w
  end.
Proof.
  unfold disconnect. destruct (sessions w !! sid) as [session|].
  - unfold bind, attempt, close, unregister, ret. cbn beta iota.
    destruct (env_close env (writer session)); intros H;
      injection H as <- <-; auto.
  - intros H. injection H as <- <-. auto.
Qed.

(** [disconnect] always comes to an end. *)
Lemma disconnect_runs env sid w :
  exists r w', disconnect env sid w = Some (r, w').
Proof.
  unfold disconnect. destruct (sessions w !! sid) as [session|].
  - unfold bind, attempt, close, unregister, ret. cbn beta iota.
    destruct (env_close env (writer session)); eauto.
  - eauto.
Qed.

(** C10: every operation keeps each key of [sessions] equal to the
    [session_id] of the session it maps to.  [connect], when it returns
    an identifier, has put one session in [sessions], under that
    identifier; [disconnect] comes to an end, returns [True] for a key of
    [sessions] and has then deleted the entry of that key and no other,
    and raises for any other identifier, leaving [sessions] as it was;
    [execute] leaves [sessions] as it was; [list_sessions] is a function
    of the world that gives one dictionary for each session stored. *)
Theorem sessions_keys_match env w :
  keys_match w ->
  (forall fuel host port timeout r w',
      connect env fuel host port timeout w = Some (r, w') ->
      keys_match w'
      /\ forall sid, r = Ret sid ->
           exists session,
             session_id session = sid
             /\ sessions w' = <[sid := session]> (sessions w))
  /\ (forall sid,
         exists r w',
           disconnect env sid w = Some (r, w')
           /\ keys_match w'
           /\ sessions w' = delete sid (sessions w)
           /\ (forall other, other <> sid ->
                 sessions w' !! other = sessions w !! other)
           /\ match sessions w !! sid with
              | Some _ => r = Ret true /\ sessions w' !! sid = None
              | None =>
                  r = Raise (ValueError ("会话不存在: " ++ sid))
                  /\ sessions w' = sessions w
              end)
  /\ (forall fuel sid command wait_ms r w',
         execute env fuel sid command wait_ms w = Some (r, w') ->
         sessions w' = sessions w /\ keys_match w')
  /\ length (list_sessions w) = size (sessions w)
  /\ (forall d, d ∈ list_sessions w
                <-> exists k s, sessions w !! k = Some s /\ d = to_dict s).
Proof.
  intros Hk. split; [|split; [|split; [|split]]].
  - intros fuel host port timeout r w' H.
    destruct (converts_to_float timeout) eqn:Hc.
    + apply connect_cases in H as [Hr Hs]; [|exact Hc].
      destruct (env_open env (count is_open (log w))) as [e|].
      * destruct Hs as [Hs Hne].
        split; [exact (keys_match_same w Hk w' Hs)|].
        intros sid ->. destruct Hr as [Hr|(msg & Hr & _)]; congruence.
      * split; [exact (keys_match_insert w _ _ Hk eq_refl w' Hs)|].
        intros sid ->. destruct Hr as [Hr|(msg & Hr & _)]; [|discriminate].
        injection Hr as ->. eexists. split; [|exact Hs]. reflexivity.
    + rewrite (connect_overflow _ _ _ _ _ _ Hc) in H.
      injection H as <- <-. split; [exact Hk|]. discriminate.
  - intros sid. destruct (disconnect_runs env sid w) as (r & w' & H).
    exists r, w'. split; [exact H|]. apply disconnect_cases in H.
    destruct (sessions w !! sid) as [session|] eqn:E.
    + destruct H as [-> Hs].
      split; [exact (keys_match_delete w sid Hk w' Hs)|].
      split; [exact Hs|]. split.
      * intros other Ho. rewrite Hs. apply lookup_delete_ne. congruence.
      * split; [reflexivity|]. rewrite Hs. apply lookup_delete_eq.
    + destruct H as [-> Hs].
      split; [exact (keys_match_same w Hk w' Hs)|].
      split; [rewrite Hs; symmetry; apply delete_id, E|].
      split; [intros other _; rewrite Hs; reflexivity|].
      split; [reflexivity | exact Hs].
  - intros fuel sid command wait_ms r w' H. apply execute_sessions in H.
    split; [exact H | exact (keys_match_same w Hk w' H)].
  - unfold list_sessions. rewrite !length_fmap. apply length_map_to_list.
  - intros d. unfold list_sessions. rewrite list_elem_of_fmap. split.
    + intros (s & -> & Hs). apply list_elem_of_fmap in Hs as ([k s'] & -> & Hs).
      apply elem_of_map_to_list in Hs. exists k, s'. auto.
    + intros (k & s & Hs & ->). exists s. split; [reflexivity|].
      apply list_elem_of_fmap. exists (k, s). split; [reflexivity|].
      apply elem_of_map_to_list, Hs.
Qed.

(** ** [connect] that fails after the transport is open *)

(** C6 fails on the code: when the transport opens and a step of the
    baseline initialisation raises, [connect] raises the connection error,
    endpoint named, and the session registered before the initialisation
    stays in [sessions]. *)
Theorem connect_failure_keeps_session :
  exists w',
    connect resetting 1 "10.0.0.1" 23 5000 world0
    = Some (Raise (ConnectionError
                     "连接失败: 10.0.0.1:23 - Connection reset by peer"), w')
    /\ sessions world0 !! "id-0" = None
    /\ sessions w' !! "id-0" = Some session0.
Proof. eexists. split; [vm_compute; reflexivity|]. split; reflexivity. Qed.

(** ** The theorems at work on the example inputs *)

Lemma keys_match_world1 : keys_match world1.
Proof.
  intros k s H. unfold world1 in H. cbn [sessions] in H.
  apply lookup_singleton_Some in H as [<- <-]. reflexivity.
Defined.

Lemma grace_exit_witness :
  exists w',
    read_loop prompting 1 session0 2 0 EmptyString 0 world1
    = Some (Ret (CRLF ++ "SW1# "), w').
Proof.
  eexists.
  refine (grace_exit prompting 0 session0 2 0 EmptyString 0 world1
            (CRLF ++ "SW1#") [(1, "SW1#")] _ _ _ _ _).
  - intros H. apply Qle_bool_iff in H. vm_compute in H. discriminate.
  - reflexivity.
  - discriminate.
  - vm_compute. reflexivity.
  - left. eexists. reflexivity.
Defined.

(** C1 fails on the code: when the grace read raises another exception
    than the timeout, the outer handler swallows it, the [break] is
    missed and the loop goes on polling, here until the deadline. *)
Lemma grace_exit_counterexample :
  ~ (forall env fuel session wait_seconds start_time output last w data m,
        ~ (wait_seconds <= env_time env (ticks w) - start_time)%Q ->
        env_read env (reader session)
          (count (is_read (reader session)) (log w)) = Data data ->
        data <> EmptyString ->
        search prompt_pattern (clean (output ++ data)) = Some m ->
        exists out w',
          read_loop env (S fuel) session wait_seconds start_time output last w
          = Some (Ret out, w')
          /\ log w'
             = (log w
                ++ [Read (reader session) read_size poll_timeout;
                    Sleep grace_delay;
                    Read (reader session) read_size poll_timeout])%list).
Proof.
  intros H.
  destruct (H reset_after_prompt 9 session0 (1 # 2)%Q 0%Q EmptyString 0%Q
              world1 (CRLF ++ "SW1#") [(1, "SW1#")])
    as (out & w' & E & L).
  - intros C. apply Qle_bool_iff in C. vm_compute in C. discriminate.
  - reflexivity.
  - discriminate.
  - vm_compute. reflexivity.
  - vm_compute in E. injection E as _ <-. vm_compute in L. discriminate.
Qed.

Lemma silence_exit_witness :
  read_loop quiet 1 session0 5 0 (CRLF ++ "SW1#") 0 world1_later
  = Some (Ret (CRLF ++ "SW1#"),
          with_event (Read 0 read_size poll_timeout) (with_tick world1_later)).
Proof.
  refine (silence_exit quiet 0 session0 5 0 (CRLF ++ "SW1#") 0 world1_later
            [(1, "SW1#")] _ _ _ _ _).
  - intros H. apply Qle_bool_iff in H. vm_compute in H. discriminate.
  - reflexivity.
  - apply Qle_bool_iff. vm_compute. reflexivity.
  - discriminate.
  - vm_compute. reflexivity.
Defined.



Lemma slow_command_wait_witness :
  effective_wait_ms "PING 10.0.0.9" 2000 = 12000%Z
  /\ execute quiet 3 "id-0" "PING 10.0.0.9" 2000 world1
     = send_and_poll quiet 3 session0 "PING 10.0.0.9" 12000 world1.
Proof.
  destruct (slow_command_wait "PING 10.0.0.9" 2000) as (_ & H2 & H3).
  split; [exact (H2 eq_refl)|].
  exact (H3 quiet 3 "id-0" session0 world1 eq_refl).
Defined.

(** C4 as it is stated fails: a command with white space before the
    keyword does not begin with it, and still gets the longer wait. *)
Lemma slow_command_wait_counterexample :
  ~ (forall command wait_ms,
        (begins_with_keyword command = true ->
         effective_wait_ms command wait_ms = Z.max wait_ms 12000)
        /\ (begins_with_keyword command = false ->
            effective_wait_ms command wait_ms = wait_ms)).
Proof.
  intros H. destruct (H " ping 10.0.0.9" 2000%Z) as [_ H2].
  specialize (H2 eq_refl). vm_compute in H2. discriminate.
Qed.

Lemma execute_unknown_session_witness :
  exists w',
    execute quiet 5 "id-9" "show version" 2000 world1
    = Some (Raise (ValueError ("会话不存在: " ++ "id-9")), w')
    /\ log w' = log world1 /\ sessions w' = sessions world1 /\ w' = world1.
Proof.
  exact (execute_unknown_session quiet 5 "id-9" "show version" 2000 world1
           eq_refl).
Defined.

Lemma disconnect_then_execute_witness :
  exists w',
    disconnect prompting "id-0" world1 = Some (Ret true, w')
    /\ sessions w' = delete "id-0" (sessions world1)
    /\ log w' = (log world1 ++ [Close 0])%list
    /\ forall fuel command wait_ms,
         execute prompting fuel "id-0" command wait_ms w'
         = Some (Raise (ValueError ("会话不存在: " ++ "id-0")), w').
Proof.
  exact (disconnect_then_execute prompting "id-0" session0 world1 eq_refl).
Defined.

Lemma sessions_keys_match_witness :
  keys_match world1
  /\ length (list_sessions world1) = size (sessions world1)
  /\ (exists w',
        disconnect prompting "id-0" world1 = Some (Ret true, w')
        /\ keys_match w'
        /\ sessions w' = delete "id-0" (sessions world1))
  /\ (exists w',
        disconnect prompting "id-9" world1
        = Some (Raise (ValueError ("会话不存在: " ++ "id-9")), w')
        /\ sessions w' = sessions world1)
  /\ match connect quiet 2 "10.0.0.2" 23 5000 world1 with
     | Some (r, w') =>
         keys_match w'
         /\ exists session,
              session_id session = "id-1"
              /\ sessions w' = <["id-1" := session]> (sessions world1)
     | None => False
     end.
Proof.
  destruct (sessions_keys_match quiet world1 keys_match_world1)
    as (Hc & _ & _ & Hl & _).
  destruct (sessions_keys_match prompting world1 keys_match_world1)
    as (_ & Hd & _).
  split; [exact keys_match_world1|]. split; [exact Hl|].
  split; [|split].
  - destruct (Hd "id-0") as (r & w' & E & Hk & Hs & _ & Hr).
    change (sessions world1 !! "id-0") with (Some session0) in Hr.
    destruct Hr as [-> _]. exists w'. auto.
  - destruct (Hd "id-9") as (r & w' & E & _ & _ & _ & Hr).
    change (sessions world1 !! "id-9") with (@None TelnetSession) in Hr.
    destruct Hr as [-> Hs]. exists w'. auto.
  - destruct (connect quiet 2 "10.0.0.2" 23 5000 world1) as [[r w']|] eqn:E.
    + destruct (Hc _ _ _ _ _ _ E) as [Hk Hr]. split; [exact Hk|].
      apply Hr. vm_compute in E. injection E as <- _. reflexivity.
    + vm_compute in E. discriminate.
Defined.

(** * Further properties *)

(** ** What a search that succeeds has found *)

Lemma search_from_inv r pos s m :
  search_from r pos s = Some m ->
  exists pre s',
    s = pre ++ s' /\ exec r (pos + String.length pre) s' [] accept = Some m.
Proof.
  revert pos. induction s as [|c s IH]; intros pos H; simpl in H.
  - destruct (exec r pos EmptyString [] accept) eqn:E; [|discriminate].
    injection H as ->. exists EmptyString, EmptyString.
    rewrite Nat.add_0_r. auto.
  - destruct (exec r pos (String c s) [] accept) eqn:E.
    + injection H as ->. exists EmptyString, (String c s).
      rewrite Nat.add_0_r. auto.
    + apply IH in H as (pre & s' & -> & H).
      exists (String c pre), s'. split; [reflexivity|].
      simpl String.length.
      replace (pos + S (String.length pre)) with (S pos + String.length pre)
        by lia.
      exact H.
Qed.

Lemma search_from_some r pos pre s' m :
  exec r (pos + String.length pre) s' [] accept = Some m ->
  exists m', search_from r pos (pre ++ s') = Some m'.
Proof.
  revert pos. induction pre as [|c pre IH]; intros pos H.
  - rewrite Nat.add_0_r in H. rewrite app_nil_l.
    exists m. apply search_hit, H.
  - rewrite app_cons.
    destruct (exec r pos (String c (pre ++ s')) [] accept) as [m0|] eqn:E.
    + exists m0. apply search_hit, E.
    + rewrite (search_miss _ _ _ _ E). apply IH.
      simpl String.length in H.
      replace (S pos + String.length pre) with (pos + S (String.length pre))
        by lia.
      exact H.
Qed.

Lemma cls_sound cls pos s m k m' :
  exec (Cls cls) pos s m k = Some m' ->
  exists c t, s = String c t /\ cls c = true /\ k (S pos) t m = Some m'.
Proof.
  destruct s as [|c t]; [discriminate|]. rewrite exec_cls.
  destruct (cls c) eqn:E; [|discriminate]. eauto.
Qed.

Lemma plain_body_sound : body_sound plain_body plain_prompt.
Proof.
  intros pos s m k m' H. unfold plain_body in H. rewrite exec_seq in H.
  apply plus_sound in H as (a & w & t & -> & Ha & Hw & H). cbv beta in H.
  apply cls_sound in H as (x & rest & -> & Hx & H).
  exists (String a w ++ String x EmptyString), rest, m.
  split; [norm_app; reflexivity|]. split.
  - exists (String a w), x. split; [|auto].
    split; [discriminate|]. simpl. rewrite Ha. exact Hw.
  - rewrite length_app. simpl String.length.
    replace (pos + (S (String.length w) + 1))
      with (S (S pos + String.length w)) by lia.
    exact H.
Qed.

Lemma paren_sound pos s m k m' :
  exec (Cls (is_char "(") >> Plus submode_char >> Cls (is_char ")")) pos s m k
  = Some m' ->
  exists sub rest,
    s = ("(" ++ sub ++ ")") ++ rest /\ is_submode sub
    /\ k (pos + String.length ("(" ++ sub ++ ")")) rest m = Some m'.
Proof.
  intros H. rewrite exec_seq in H.
  apply cls_sound in H as (c & t & -> & Hc & H). apply lparen_is in Hc as ->.
  rewrite exec_seq in H.
  apply plus_sound in H as (d & v & t' & -> & Hd & Hv & H). cbv beta in H.
  apply cls_sound in H as (e & rest & -> & He & H). apply rparen_is in He as ->.
  exists (String d v), rest. split; [norm_app; reflexivity|]. split.
  - split; [discriminate|]. simpl. rewrite Hd. exact Hv.
  - rewrite !length_app. simpl String.length.
    replace (pos + (1 + (S (String.length v) + 1)))
      with (S (S (S pos) + String.length v)) by lia.
    exact H.
Qed.

Lemma config_body_sound : body_sound config_body config_prompt.
Proof.
  intros pos s m k m' H. unfold config_body in H. rewrite exec_seq in H.
  apply plus_sound in H as (a & w & t & -> & Ha & Hw & H). cbv beta in H.
  change (exec ((Cls (is_char "(") >> Plus submode_char >> Cls (is_char ")"))
                >> Cls mark_char) (S pos + String.length w) t m k = Some m')
    in H.
  rewrite exec_seq in H.
  apply paren_sound in H as (sub & t' & -> & Hsub & H).
  apply cls_sound in H as (x & rest & -> & Hx & H).
  exists (String a w ++ "(" ++ sub ++ ")" ++ String x EmptyString), rest, m.
  split; [norm_app; reflexivity|]. split.
  - exists (String a w), sub, x. split; [|auto].
    split; [discriminate|]. simpl. rewrite Ha. exact Hw.
  - match goal with
    | H : k ?p _ _ = _ |- k ?q _ _ = _ => replace q with p; [exact H|]
    end.
    rewrite !length_app. simpl String.length. lia.
Qed.

Lemma prompt_body_sound : body_sound prompt_body prompt_line.
Proof.
  intros pos s m k m' H. unfold prompt_body in H. rewrite exec_seq in H.
  apply plus_sound in H as (a & w & t & -> & Ha & Hw & H). cbv beta in H.
  assert (Hname : is_name (String a w)).
  { split; [discriminate|]. simpl. rewrite Ha. exact Hw. }
  rewrite exec_opt in H.
  destruct (exec (Group 2
                    (Cls (is_char "(") >> Plus submode_char
                     >> Cls (is_char ")")))
              (S pos + String.length w) t m
              (fun p u m'0 => exec (Cls mark_char) p u m'0 k))
    as [m0|] eqn:Hg.
  - injection H as ->. rewrite exec_group in Hg.
    apply paren_sound in Hg as (sub & t' & -> & Hsub & Hg). cbv beta in Hg.
    apply cls_sound in Hg as (x & rest & -> & Hx & Hg).
    exists (String a w ++ "(" ++ sub ++ ")" ++ String x EmptyString), rest.
    eexists. split; [norm_app; reflexivity|]. split.
    + right. exists (String a w), sub, x. auto.
    + match goal with
      | H : k ?p _ _ = _ |- k ?q _ _ = _ => replace q with p; [exact H|]
      end.
      rewrite !length_app. simpl String.length. lia.
  - apply cls_sound in H as (x & rest & -> & Hx & H).
    exists (String a w ++ String x EmptyString), rest, m.
    split; [norm_app; reflexivity|]. split.
    + left. exists (String a w), x. auto.
    + match goal with
      | H : k ?p _ _ = _ |- k ?q _ _ = _ => replace q with p; [exact H|]
      end.
      rewrite length_app. simpl String.length. lia.
Qed.

(** Where an anchored pattern matches, a line break is followed by a token
    of its body, which is group 1, and by white space up to the end. *)
Lemma anchored_sound body P pos s m :
  body_sound body P ->
  exec (anchored body) pos s [] accept = Some m ->
  exists c tok ws,
    s = String c (tok ++ ws) /\ newline_char c = true /\ P tok
    /\ Str.all Str.isspace ws = true /\ group 1 m = tok.
Proof.
  intros Hb. unfold anchored. destruct s as [|c t]; [discriminate|].
  rewrite exec_cls_seq. destruct (newline_char c) eqn:Hc; [|discriminate].
  rewrite exec_seq, exec_group. intros H.
  apply Hb in H as (tok & ws & m1 & -> & Hp & H). cbv beta in H.
  rewrite exec_tail in H.
  destruct (Str.all Str.isspace ws) eqn:Hws; [|discriminate].
  injection H as <-. exists c, tok, ws.
  repeat (split; [auto|]). simpl.
  apply substring_prefix. lia.
Qed.

Lemma search_anchored_inv body P s m :
  body_sound body P ->
  search (anchored body) s = Some m ->
  exists pre c tok ws,
    s = pre ++ String c (tok ++ ws) /\ newline_char c = true /\ P tok
    /\ Str.all Str.isspace ws = true /\ group 1 m = tok.
Proof.
  intros Hb H. apply search_from_inv in H as (pre & s' & -> & H).
  apply (anchored_sound _ _ _ _ _ Hb) in H
    as (c & tok & ws & -> & Hc & Hp & Hws & Hg).
  exists pre, c, tok, ws. auto.
Qed.

(** ** Where a search must succeed *)

Lemma space_not_name c : Str.isspace c = true -> name_char c = false.
Proof. by_character c. Qed.

Lemma token_not_newline c : token_char c = true -> newline_char c = false.
Proof. by_character c. Qed.

Lemma plus_name_first r : name_first (Plus name_char >> r).
Proof.
  intros p [|c s] m k H; [reflexivity|]. simpl in H. simpl. rewrite H.
  reflexivity.
Qed.

Lemma anchored_needs_name body pos c s :
  name_first body -> newline_char c && starts name_char s = false ->
  exec (anchored body) pos (String c s) [] accept = None.
Proof.
  intros Hb H. unfold anchored. rewrite exec_cls_seq.
  destruct (newline_char c); [|reflexivity]. simpl in H.
  rewrite exec_seq, exec_group. apply Hb, H.
Qed.

Lemma search_no_line_start body pos s :
  name_first body -> no_line_start s = true ->
  search_from (anchored body) pos s = None.
Proof.
  intros Hb. revert pos. induction s as [|c s IH]; intros pos H; [reflexivity|].
  simpl in H. apply andb_prop in H as [Hc Hs].
  rewrite search_miss; [apply IH, Hs|].
  apply anchored_needs_name; [exact Hb|].
  apply negb_true_iff, Hc.
Qed.

Lemma no_line_start_space ws :
  Str.all Str.isspace ws = true -> no_line_start ws = true.
Proof.
  induction ws as [|c ws IH]; [reflexivity|].
  simpl. intros [Hc Hws]%andb_prop. rewrite (IH Hws), andb_true_r.
  destruct ws as [|d ws]; [rewrite andb_false_r; reflexivity|].
  simpl in Hws. apply andb_prop in Hws as [Hd _]. simpl.
  rewrite (space_not_name _ Hd), andb_false_r. reflexivity.
Qed.

Lemma no_line_start_token tok ws :
  Str.all token_char tok = true -> Str.all Str.isspace ws = true ->
  no_line_start (tok ++ ws) = true.
Proof.
  intros Ht Hws. induction tok as [|c tok IH].
  - apply no_line_start_space, Hws.
  - simpl in Ht. apply andb_prop in Ht as [Hc Ht].
    rewrite app_cons. simpl.
    rewrite (token_not_newline _ Hc), (IH Ht). reflexivity.
Qed.

(** The search skips whatever comes before a line break followed by text
    that is not all white space. *)
Lemma search_skip_text body pos pre c rest :
  (forall x, alphabet body x = true -> Str.isspace x = false) ->
  newline_char c = true ->
  Str.all Str.isspace rest = false ->
  search_from (anchored body) pos (pre ++ String c rest)
  = search_from (anchored body) (pos + String.length pre) (String c rest).
Proof.
  intros Hbody Hc Hrest. revert pos. induction pre as [|a pre IH]; intros pos.
  - rewrite app_nil_l, Nat.add_0_r. reflexivity.
  - rewrite app_cons, search_miss.
    + rewrite IH. f_equal. simpl. lia.
    + destruct (exec (anchored body) pos (String a (pre ++ String c rest)) []
                  accept) as [m|] eqn:He; [exfalso | reflexivity].
      apply anchored_shape in He as (c' & b & ws & E & _ & Hb & Hws).
      injection E as _ E.
      apply app_eq_app in E as [[mid [-> E]]|[mid [-> E]]].
      * rewrite E, all_app in Hws. apply andb_prop in Hws as [_ Hws].
        simpl in Hws. apply andb_prop in Hws as [_ Hws]. congruence.
      * destruct mid as [|x mid].
        -- rewrite app_nil_l in E. subst ws.
           simpl in Hws. apply andb_prop in Hws as [_ Hws]. congruence.
        -- rewrite app_cons in E. injection E as <- _.
           rewrite all_app in Hb. apply andb_prop in Hb as [_ Hb].
           simpl in Hb. apply andb_prop in Hb as [Hb _].
           apply Hbody in Hb. rewrite (newline_is_space _ Hc) in Hb.
           discriminate.
Qed.


(** Group 1 with the groups the body sets itself. *)
Lemma anchored_at_groups body pos c tok ws m1 :
  newline_char c = true -> Str.all Str.isspace ws = true ->
  (forall k, exec body (S pos) (tok ++ ws) [] k
             = k (S pos + String.length tok) ws m1) ->
  exec (anchored body) pos (String c (tok ++ ws)) [] accept
  = Some ((1, tok) :: m1).
Proof.
  intros Hc Hws Hb. unfold anchored. rewrite exec_cls_seq, Hc.
  rewrite exec_seq, exec_group, Hb, exec_tail, Hws.
  rewrite substring_prefix by lia. reflexivity.
Qed.

(** The pattern of [execute] matches every prompt. *)
Lemma prompt_body_exact tok rest pos :
  prompt_line tok ->
  exists m1, forall k,
    exec prompt_body pos (tok ++ rest) [] k
    = k (pos + String.length tok) rest m1.
Proof.
  assert (Hk : forall k p u m', starts name_char u = true ->
            exec (Opt (Group 2
                         (Cls (is_char "(") >> Plus submode_char
                          >> Cls (is_char ")")))
                  >> Cls mark_char) p u m' k = None).
  { intros k p [|c u] m' H; [discriminate|]. simpl in H.
    rewrite exec_opt, exec_group, exec_cls_seq, (name_not_lparen c H).
    rewrite exec_cls, (name_not_mark c H). reflexivity. }
  intros [(name & x & [Hne Hn] & Hx & ->)
         |(name & sub & x & [Hne Hn] & [Hne' Hs] & Hx & ->)].
  - destruct name as [|a w]; [congruence|].
    simpl in Hn. apply andb_prop in Hn as [Ha Hw].
    exists []. intros k. rewrite length_app. norm_app. unfold prompt_body.
    rewrite exec_plus_seq;
      [ | apply Hk | exact Ha | exact Hw | exact (mark_not_name x Hx) ].
    rewrite exec_opt, exec_group, exec_cls_seq, (mark_not_lparen x Hx).
    rewrite exec_cls, Hx. f_equal. simpl. lia.
  - destruct name as [|a w]; [congruence|].
    destruct sub as [|d v]; [congruence|].
    simpl in Hn, Hs.
    apply andb_prop in Hn as [Ha Hw]. apply andb_prop in Hs as [Hd Hv].
    eexists. intros k. rewrite !length_app. norm_app. unfold prompt_body.
    rewrite exec_plus_seq; [ | apply Hk | exact Ha | exact Hw | reflexivity ].
    rewrite exec_opt, exec_group.
    rewrite exec_cls_seq. change (is_char "(" "(") with true. cbv iota.
    rewrite exec_plus_seq; [ | | exact Hd | exact Hv | reflexivity ].
    + rewrite exec_cls. change (is_char ")" ")") with true. cbv iota.
      rewrite exec_cls, Hx.
      match goal with
      | |- match k ?p ?u ?g with _ => _ end = k ?q _ ?g' =>
          replace q with p by (simpl; lia);
          instantiate (1 := g); destruct (k p u g); reflexivity
      end.
    + intros p [|c u] m' H; [discriminate|]. simpl in H.
      rewrite exec_cls, (submode_not_rparen c H). reflexivity.
Qed.

(** ** [detect_device_mode] and the pattern of [execute] *)

Lemma first_pattern_prompt s tok :
  ends_in_prompt s tok -> first_pattern patterns s = Some tok.
Proof.
  intros (pre & c & ws & -> & Hc & Hp & Hws).
  pose proof (prompt_line_token _ Hp) as Ht.
  pose proof (prompt_line_nonempty _ Hp) as Hne.
  pose proof (token_then_space_not_blank tok ws Hne Ht) as Hnb.
  unfold patterns.
  destruct Hp as [(name & x & Hn & Hx & ->)
                 |(name & sub & x & Hn & Hs & Hx & ->)].
  - rewrite first_pattern_miss.
    + erewrite first_pattern_hit.
      * rewrite (token_strip _ Hne Ht). reflexivity.
      * unfold search.
        rewrite (search_skip_text _ _ _ _ _ plain_alphabet Hc Hnb).
        apply search_hit, anchored_at; [exact Hc | exact Hws |].
        intros m k. apply plain_body_exact; assumption.
    + unfold search.
      rewrite (search_skip_text _ _ _ _ _ config_alphabet Hc Hnb).
      rewrite search_miss.
      * apply search_no_line_start; [apply plus_name_first|].
        apply no_line_start_token; assumption.
      * unfold anchored. rewrite exec_cls_seq, Hc, exec_seq, exec_group.
        apply config_body_rejects_plain; assumption.
  - erewrite first_pattern_hit.
    + rewrite (token_strip _ Hne Ht). reflexivity.
    + unfold search.
      rewrite (search_skip_text _ _ _ _ _ config_alphabet Hc Hnb).
      apply search_hit, anchored_at; [exact Hc | exact Hws |].
      intros m k. apply config_body_exact; assumption.
Qed.

Lemma prompt_alphabet x :
  alphabet prompt_body x = true -> Str.isspace x = false.
Proof. by_character x. Qed.

Lemma prompt_pattern_prompt s tok :
  ends_in_prompt s tok ->
  exists m, search prompt_pattern s = Some m /\ group 1 m = tok.
Proof.
  intros (pre & c & ws & -> & Hc & Hp & Hws).
  pose proof (prompt_line_token _ Hp) as Ht.
  pose proof (prompt_line_nonempty _ Hp) as Hne.
  pose proof (token_then_space_not_blank tok ws Hne Ht) as Hnb.
  destruct (prompt_body_exact tok ws (S (0 + String.length pre)) Hp)
    as [m1 Hb].
  exists ((1, tok) :: m1). split; [|reflexivity].
  unfold search, prompt_pattern.
  rewrite (search_skip_text _ _ _ _ _ prompt_alphabet Hc Hnb).
  apply search_hit, anchored_at_groups; assumption.
Qed.

Lemma prompt_pattern_inv s m :
  search prompt_pattern s = Some m -> ends_in_prompt s (group 1 m).
Proof.
  intros H.
  apply (search_anchored_inv _ _ _ _ prompt_body_sound) in H
    as (pre & c & tok & ws & -> & Hc & Hp & Hws & ->).
  exists pre, c, ws. auto.
Qed.

Lemma first_pattern_inv s mode :
  first_pattern patterns s = Some mode -> ends_in_prompt s mode.
Proof.
  unfold patterns. simpl.
  destruct (search (anchored config_body) s) as [m|] eqn:E1.
  - intros H. injection H as <-.
    apply (search_anchored_inv _ _ _ _ config_body_sound) in E1
      as (pre & c & tok & ws & -> & Hc & Hp & Hws & ->).
    assert (Hl : prompt_line tok) by (right; exact Hp).
    rewrite (token_strip _ (prompt_line_nonempty _ Hl)
               (prompt_line_token _ Hl)).
    exists pre, c, ws. auto.
  - destruct (search (anchored plain_body) s) as [m|] eqn:E2; [|discriminate].
    intros H. injection H as <-.
    apply (search_anchored_inv _ _ _ _ plain_body_sound) in E2
      as (pre & c & tok & ws & -> & Hc & Hp & Hws & ->).
    assert (Hl : prompt_line tok) by (left; exact Hp).
    rewrite (token_strip _ (prompt_line_nonempty _ Hl)
               (prompt_line_token _ Hl)).
    exists pre, c, ws. auto.
Qed.

Lemma ends_in_prompt_nonempty s tok : ends_in_prompt s tok -> s <> EmptyString.
Proof. intros (pre & c & ws & -> & _). apply eqb_empty_app. Qed.

Lemma clean_empty output : clean output <> EmptyString -> output <> EmptyString.
Proof. intros H ->. apply H. reflexivity. Qed.

Lemma detect_ends_in_prompt output tok :
  ends_in_prompt (clean output) tok -> detect_device_mode output = tok.
Proof.
  intros H. rewrite detect_nonempty
    by (apply clean_empty, (ends_in_prompt_nonempty _ _ H)).
  rewrite (first_pattern_prompt _ _ H). reflexivity.
Qed.

Lemma space_not_backspace ws :
  Str.all Str.isspace ws = true ->
  Str.all (fun x => negb (Ascii.eqb x BS)) ws = true.
Proof. apply all_impl. intros c. by_character c. Qed.

(** X1: white space after the prompt of the last line does not matter:
    a text that ends in a carriage return or line feed, a prompt and any
    white space is detected as that prompt. *)
Theorem detect_trailing_space (pre ws tok : string) (c : ascii) :
  newline_char c = true -> prompt_line tok ->
  Str.all Str.isspace ws = true ->
  detect_device_mode (pre ++ String c (tok ++ ws)) = tok.
Proof.
  intros Hc Hp Hws. apply detect_ends_in_prompt.
  exists (clean pre), c, ws. repeat (split; [|auto]).
  rewrite clean_app. f_equal. apply clean_id. simpl.
  rewrite (newline_not_backspace _ Hc), all_app. simpl.
  rewrite (space_not_backspace _ Hws), andb_true_r.
  generalize (prompt_line_token _ Hp). apply all_impl.
  apply token_char_not_backspace.
Qed.

(** X2: what [detect_device_mode] returns is ["unknown"] or a prompt
    [<name>(<submode>)?<#|>>], never any other text. *)
Theorem detect_unknown_or_prompt (output : string) :
  detect_device_mode output = "unknown"
  \/ prompt_line (detect_device_mode output).
Proof.
  destruct output as [|a output]; [left; reflexivity|].
  rewrite detect_nonempty by discriminate.
  destruct (first_pattern patterns (clean (String a output))) as [mode|] eqn:E.
  - right. apply first_pattern_inv in E as (pre & c & ws & _ & _ & Hp & _).
    exact Hp.
  - pose proof (scan_lines_spec
                  (rev (Str.last_n 5
                          (Str.split LF
                             (Str.strip (clean (String a output))))))) as H.
    destruct (scan_lines _) as [l|]; [|left; reflexivity].
    right. destruct H as (_ & _ & _ & _ & _ & Hp & _). exact Hp.
Qed.

Lemma clean_clean output : clean (clean output) = clean output.
Proof.
  rewrite !clean_remove_char. apply remove_char_id, remove_char_absent.
Qed.

(** X3: the erase characters do not count: [clean] takes out every
    backspace, its second [replace] finding nothing to do, cleaning twice
    is cleaning once, and [detect_device_mode] gives the same answer on a
    text and on the text cleaned. *)
Theorem detect_ignores_erase (output : string) :
  clean output = Str.remove_char BS output
  /\ clean (clean output) = clean output
  /\ detect_device_mode (clean output) = detect_device_mode output.
Proof.
  split; [apply clean_remove_char|]. split; [apply clean_clean|].
  destruct output as [|a output]; [reflexivity|].
  rewrite (detect_nonempty (String a output)) by discriminate.
  destruct (clean (String a output)) as [|b s] eqn:E; [reflexivity|].
  rewrite detect_nonempty by discriminate.
  rewrite <- E, clean_clean. reflexivity.
Qed.

(** X4: the prompt that ends a command for [execute] is the mode
    [detect_device_mode] reports: when the pattern of [execute] is found
    in the cleaned buffer, [detect_device_mode] returns its group 1, a
    prompt. *)
Theorem prompt_pattern_agrees (output : string) (m : groups) :
  search prompt_pattern (clean output) = Some m ->
  detect_device_mode output = group 1 m /\ prompt_line (group 1 m).
Proof.
  intros H. apply prompt_pattern_inv in H. split.
  - apply detect_ends_in_prompt, H.
  - destruct H as (_ & _ & _ & _ & _ & Hp & _). exact Hp.
Qed.

(** X5: the pattern of [execute] and the two patterns of
    [detect_device_mode] are found in the same texts, those that end in a
    line break, a prompt and white space, and they capture the same
    prompt. *)
Theorem prompt_pattern_same_texts (s tok : string) :
  ((exists m, search prompt_pattern s = Some m /\ group 1 m = tok)
   <-> ends_in_prompt s tok)
  /\ (first_pattern patterns s = Some tok <-> ends_in_prompt s tok).
Proof.
  split; split.
  - intros (m & H & <-). apply prompt_pattern_inv, H.
  - apply prompt_pattern_prompt.
  - apply first_pattern_inv.
  - apply first_pattern_prompt.
Qed.

(** ** The wait *)

(** X6: the adjustment of the wait never lowers it, never raises it above
    [max(wait_ms, 12000)], leaves a wait of twelve seconds or more as it
    is, and changes nothing when applied twice. *)
Theorem wait_never_lowered (command : string) (wait_ms : Z) :
  (wait_ms <= effective_wait_ms command wait_ms)%Z
  /\ (effective_wait_ms command wait_ms <= Z.max wait_ms 12000)%Z
  /\ ((12000 <= wait_ms)%Z -> effective_wait_ms command wait_ms = wait_ms)
  /\ effective_wait_ms command (effective_wait_ms command wait_ms)
     = effective_wait_ms command wait_ms.
Proof.
  unfold effective_wait_ms. rewrite !adjust_wait_spec.
  destruct (existsb _ long_running_commands); repeat split; try lia.
Qed.

(** ** What [execute] does to the transport *)

Lemma round_log env session wait_seconds start_time output last w :
  exists evs,
    log (round_world
           (loop_round env session wait_seconds start_time output last w))
    = (log w ++ evs)%list
    /\ forallb (is_poll_event (reader session)) evs = true.
Proof.
  assert (Hr : is_poll_event (reader session)
                 (Read (reader session) read_size poll_timeout) = true).
  { simpl. rewrite Nat.eqb_refl. reflexivity. }
  unfold loop_round. cbn zeta.
  destruct (Qle_bool wait_seconds (env_time env (ticks w) - start_time)).
  { exists []. simpl. rewrite List.app_nil_r. auto. }
  assert (H1 : exists evs,
             log (with_event (Read (reader session) read_size poll_timeout)
                    (with_tick w)) = (log w ++ evs)%list
             /\ forallb (is_poll_event (reader session)) evs = true).
  { eexists [_]. split; [reflexivity|]. cbn [forallb]. rewrite Hr. reflexivity. }
  assert (H3 : exists evs,
             log (with_event (Read (reader session) read_size poll_timeout)
                    (with_event (Sleep grace_delay)
                       (with_event
                          (Read (reader session) read_size poll_timeout)
                          (with_tick w)))) = (log w ++ evs)%list
             /\ forallb (is_poll_event (reader session)) evs = true).
  { eexists [_; _; _]. split; [simpl; rewrite <- !List.app_assoc; reflexivity|].
    cbn [forallb]. rewrite Hr. reflexivity. }
  repeat match goal with
         | |- context [match env_read ?e ?h ?k with _ => _ end] =>
             destruct (env_read e h k) as [?|[]]
         | |- context [if ?b then _ else _] => destruct b
         | |- context [match search ?p ?s with _ => _ end] =>
             destruct (search p s)
         end;
    first [exact H1 | exact H3].
Qed.

(** The loop of [execute] returns and does not raise; all it does is
    poll. *)
Lemma read_loop_log env session wait_seconds start_time fuel :
  forall output last w r w',
    read_loop env fuel session wait_seconds start_time output last w
    = Some (r, w') ->
    (exists out, r = Ret out)
    /\ exists evs,
         log w' = (log w ++ evs)%list
         /\ forallb (is_poll_event (reader session)) evs = true.
Proof.
  induction fuel as [|fuel IH]; intros output last w r w' H; [discriminate|].
  rewrite read_loop_round in H.
  destruct (round_log env session wait_seconds start_time output last w)
    as (evs & Hl & He).
  destruct (loop_round env session wait_seconds start_time output last w)
    as [out w1|out last' w1]; simpl in Hl.
  - injection H as <- <-. split; [eauto|]. exists evs. auto.
  - apply IH in H as [Hr (evs' & Hl' & He')]. split; [exact Hr|].
    exists (evs ++ evs')%list. rewrite Hl', Hl, <- List.app_assoc.
    split; [reflexivity|]. rewrite forallb_app, He, He'. reflexivity.
Qed.

(** X7: on a known session [execute], with a wait that converts to
    seconds, writes the command and its line end once, flushes once, and
    from then on only polls its reader: bounded reads and the sleep
    before a grace read.  It opens and closes nothing, writes nothing
    else, and leaves [sessions] as it is.  With a wait beyond the floats
    it raises the [OverflowError] of the division and has done nothing. *)
Theorem execute_effects env fuel sid session command wait_ms w r w' :
  sessions w !! sid = Some session ->
  execute env fuel sid command wait_ms w = Some (r, w') ->
  if converts_to_float (effective_wait_ms command wait_ms) then
    exists evs,
      log w'
      = (log w
         ++ Write (writer session) (command ++ CRLF)
            :: Drain (writer session) :: evs)%list
      /\ forallb (is_poll_event (reader session)) evs = true
      /\ sessions w' = sessions w
  else r = Raise overflow_error /\ w' = w.
Proof.
  intros Hs H. pose proof (execute_sessions _ _ _ _ _ _ _ _ H) as Hk.
  destruct (converts_to_float (effective_wait_ms command wait_ms)) eqn:Hc.
  - rewrite (execute_known _ _ _ _ _ _ _ Hs Hc) in H. cbn zeta in H.
    destruct (env_drain env (writer session)
                (count (is_drain (writer session)) (log w))) as [e|].
    + injection H as _ <-. exists []. simpl. rewrite <- List.app_assoc. auto.
    + apply read_loop_log in H as [_ (evs & Hl & He)].
      exists evs. simpl in Hl. rewrite Hl, <- !List.app_assoc. auto.
  - rewrite (execute_overflow _ _ _ _ _ _ _ Hs Hc) in H.
    injection H as <- <-. auto.
Qed.


Lemma lower_char_twice c :
  Str.lower_char (Str.lower_char c) = Str.lower_char c.
Proof. by_character c. Qed.

Lemma lower_twice s : Str.lower (Str.lower s) = Str.lower s.
Proof.
  induction s as [|c s IH]; [reflexivity|].
  simpl. rewrite lower_char_twice, IH. reflexivity.
Qed.

Lemma rstrip_twice s : Str.rstrip (Str.rstrip s) = Str.rstrip s.
Proof.
  induction s as [|c s IH]; [reflexivity|].
  rewrite rstrip_cons. destruct (Str.rstrip s) as [|d r] eqn:E.
  - destruct (Str.isspace c) eqn:Hc; [reflexivity|].
    rewrite rstrip_cons. simpl Str.rstrip. rewrite Hc. reflexivity.
  - rewrite rstrip_cons, IH. reflexivity.
Qed.

Lemma lstrip_rstrip s :
  Str.lstrip (Str.rstrip s) = Str.rstrip (Str.lstrip s).
Proof.
  induction s as [|c s IH]; [reflexivity|].
  rewrite rstrip_cons, (lstrip_cons c s).
  destruct (Str.isspace c) eqn:Hc.
  - rewrite <- IH. destruct (Str.rstrip s) as [|d r] eqn:E; [reflexivity|].
    rewrite lstrip_cons, Hc. reflexivity.
  - rewrite rstrip_cons. destruct (Str.rstrip s) as [|d r] eqn:E.
    + rewrite Hc, lstrip_cons, Hc. reflexivity.
    + rewrite lstrip_cons, Hc. reflexivity.
Qed.

Lemma lstrip_twice s : Str.lstrip (Str.lstrip s) = Str.lstrip s.
Proof.
  induction s as [|c s IH]; [reflexivity|].
  rewrite lstrip_cons. destruct (Str.isspace c) eqn:Hc; [exact IH|].
  rewrite lstrip_cons, Hc. reflexivity.
Qed.

Lemma strip_twice s : Str.strip (Str.strip s) = Str.strip s.
Proof.
  unfold Str.strip. rewrite lstrip_rstrip, lstrip_twice, rstrip_twice.
  reflexivity.
Qed.

(** X9: the letter case of a command and the white space around it do not
    count for its wait. *)
Theorem wait_ignores_case_and_space (command : string) (wait_ms : Z) :
  effective_wait_ms (Str.lower command) wait_ms
  = effective_wait_ms command wait_ms
  /\ effective_wait_ms (Str.strip command) wait_ms
     = effective_wait_ms command wait_ms.
Proof.
  unfold effective_wait_ms. split.
  - rewrite lower_twice. reflexivity.
  - rewrite <- !strip_lower, strip_twice. reflexivity.
Qed.


(** ** [execute] on a transport that delivers nothing *)

Lemma round_silent env session wait_seconds start_time last w :
  delivered (env_read env (reader session)
               (count (is_read (reader session)) (log w))) = EmptyString ->
  ~ (wait_seconds <= env_time env (ticks w) - start_time)%Q ->
  loop_round env session wait_seconds start_time EmptyString last w
  = Again EmptyString last
      (with_event (Read (reader session) read_size poll_timeout)
         (with_tick w)).
Proof.
  intros Hd Hw. unfold loop_round. cbn zeta.
  rewrite (not_Qle_bool _ _ Hw). change (log (with_tick w)) with (log w).
  destruct (env_read env (reader session)
              (count (is_read (reader session)) (log w))) as [d|[]];
    try reflexivity.
  - simpl in Hd. subst d. reflexivity.
  - rewrite andb_false_r. reflexivity.
Qed.

Lemma read_loop_silent env session wait_seconds start_time n :
  forall fuel last w,
    (forall k, delivered (env_read env (reader session) k) = EmptyString) ->
    (forall i, i < n ->
       ~ (wait_seconds <= env_time env (ticks w + i) - start_time)%Q) ->
    (wait_seconds <= env_time env (ticks w + n) - start_time)%Q ->
    (fuel <= n ->
     read_loop env fuel session wait_seconds start_time EmptyString last w
     = None)
    /\ (n < fuel ->
        exists w',
          read_loop env fuel session wait_seconds start_time EmptyString
            last w = Some (Ret EmptyString, w')
          /\ log w'
             = (log w
                ++ repeat (Read (reader session) read_size poll_timeout) n)%list
          /\ ticks w' = ticks w + n + 1
          /\ sessions w' = sessions w).
Proof.
  induction n as [|n IH]; intros fuel last w Hd Hb Ha.
  - split; intros Hf.
    + assert (fuel = 0) as -> by lia. reflexivity.
    + destruct fuel as [|fuel]; [lia|]. rewrite read_loop_round.
      rewrite Nat.add_0_r in Ha. rewrite (round_deadline _ _ _ _ _ _ _ Ha).
      exists (with_tick w). simpl. rewrite List.app_nil_r.
      repeat split. lia.
  - destruct fuel as [|fuel]; [split; [reflexivity | lia]|].
    rewrite read_loop_round, round_silent.
    + destruct (IH fuel last
                  (with_event (Read (reader session) read_size poll_timeout)
                     (with_tick w)) Hd) as [H1 H2].
      * intros i Hi. simpl ticks.
        replace (S (ticks w) + i) with (ticks w + S i) by lia.
        apply Hb. lia.
      * simpl ticks. replace (S (ticks w) + n) with (ticks w + S n) by lia.
        exact Ha.
      * split; intros Hf.
        -- apply H1. lia.
        -- destruct H2 as (w' & E & Hl & Ht & Hs); [lia|].
           exists w'. split; [exact E|]. simpl in Hl, Ht, Hs.
           rewrite Hl, Ht, Hs, <- List.app_assoc. repeat split. lia.
    + apply Hd.
    + specialize (Hb 0). rewrite Nat.add_0_r in Hb. apply Hb. lia.
Qed.

(** X10: on a transport whose reads deliver nothing, because they time
    out, fail, or return the empty string of a closed connection,
    [execute], with a wait that converts to seconds, polls until the
    deadline and then returns the empty string:
    with [n] readings of the clock before the deadline it makes exactly
    [n] reads, and is still polling after any smaller number of rounds.
    The end of file does not end it. *)
Theorem execute_silent env fuel n sid session command wait_ms w :
  let h := reader session in
  let wait_seconds := seconds_of_ms (effective_wait_ms command wait_ms) in
  sessions w !! sid = Some session ->
  converts_to_float (effective_wait_ms command wait_ms) = true ->
  env_drain env (writer session) (count (is_drain (writer session)) (log w))
  = None ->
  (forall k, delivered (env_read env h k) = EmptyString) ->
  (forall i, i < n ->
     ~ (wait_seconds
        <= env_time env (S (ticks w) + i) - env_time env (ticks w))%Q) ->
  (wait_seconds
   <= env_time env (S (ticks w) + n) - env_time env (ticks w))%Q ->
  (fuel <= n -> execute env fuel sid command wait_ms w = None)
  /\ (n < fuel ->
      exists w',
        execute env fuel sid command wait_ms w = Some (Ret EmptyString, w')
        /\ log w'
           = (log w
              ++ Write (writer session) (command ++ CRLF)
                 :: Drain (writer session)
                 :: repeat (Read h read_size poll_timeout) n)%list
        /\ sessions w' = sessions w).
Proof.
  intros h wait_seconds Hs Hc Hdr Hd Hb Ha.
  rewrite (execute_known _ _ _ _ _ _ _ Hs Hc). cbn zeta. rewrite Hdr.
  set (w2 := with_tick _).
  destruct (read_loop_silent env session wait_seconds
              (env_time env (ticks w)) n fuel (env_time env (ticks w)) w2 Hd
              Hb Ha) as [H1 H2].
  split; [exact H1|]. intros Hf.
  destruct (H2 Hf) as (w' & E & Hl & _ & Hk).
  exists w'. split; [exact E|]. split; [|exact Hk].
  rewrite Hl. simpl. rewrite <- !List.app_assoc. reflexivity.
Qed.

(** ** Output that arrives in several reads *)

Lemma round_more env session wait_seconds start_time output last w d :
  ~ (wait_seconds <= env_time env (ticks w) - start_time)%Q ->
  env_read env (reader session) (count (is_read (reader session)) (log w))
  = Data d ->
  d <> EmptyString ->
  search prompt_pattern (clean (output ++ d)) = None ->
  loop_round env session wait_seconds start_time output last w
  = Again (output ++ d) (env_time env (ticks w))
      (with_event (Read (reader session) read_size poll_timeout)
         (with_tick w)).
Proof.
  intros Hw Hr Hd Hm. unfold loop_round. cbn zeta.
  rewrite (not_Qle_bool _ _ Hw). change (log (with_tick w)) with (log w).
  rewrite Hr, (nonempty_true _ Hd), Hm. reflexivity.
Qed.

Lemma round_prompt env session wait_seconds start_time output last w d m :
  let h := reader session in
  let k := count (is_read h) (log w) in
  ~ (wait_seconds <= env_time env (ticks w) - start_time)%Q ->
  env_read env h k = Data d ->
  d <> EmptyString ->
  search prompt_pattern (clean (output ++ d)) = Some m ->
  (forall e, env_read env h (S k) = ReadRaises e -> e = TimeoutError) ->
  loop_round env session wait_seconds start_time output last w
  = Done ((output ++ d) ++ delivered (env_read env h (S k)))
      (with_event (Read h read_size poll_timeout)
         (with_event (Sleep grace_delay)
            (with_event (Read h read_size poll_timeout) (with_tick w)))).
Proof.
  intros h k Hw Hr Hd Hm Hg. unfold loop_round. cbn zeta.
  rewrite (not_Qle_bool _ _ Hw). change (log (with_tick w)) with (log w).
  fold h. fold k. rewrite Hr, (nonempty_true _ Hd), Hm.
  rewrite count_read_after_sleep, count_read_after_read.
  change (log (with_tick w)) with (log w). fold k.
  destruct (env_read env h (S k)) as [extra|e] eqn:E; simpl delivered.
  - destruct (nonempty extra) eqn:He; [reflexivity|].
    rewrite (nonempty_false _ He), app_nil_r. reflexivity.
  - rewrite (Hg e eq_refl), app_nil_r. reflexivity.
Qed.

Lemma read_loop_chunks env session wait_seconds start_time d m :
  forall ds fuel output last w,
    let h := reader session in
    let k := count (is_read h) (log w) in
    no_prompt_yet env h k output ds ->
    (forall i, i <= length ds ->
       ~ (wait_seconds <= env_time env (ticks w + i) - start_time)%Q) ->
    env_read env h (k + length ds) = Data d ->
    d <> EmptyString ->
    search prompt_pattern (clean ((output ++ join ds) ++ d)) = Some m ->
    (forall e, env_read env h (S (k + length ds)) = ReadRaises e ->
               e = TimeoutError) ->
    length ds < fuel ->
    exists w',
      read_loop env fuel session wait_seconds start_time output last w
      = Some (Ret (((output ++ join ds) ++ d)
                   ++ delivered (env_read env h (S (k + length ds)))), w')
      /\ count (is_read h) (log w') = k + length ds + 2.
Proof.
  induction ds as [|d0 ds IH]; intros fuel output last w h k Hn Hb Hr Hd Hm
    Hg Hf; (destruct fuel as [|fuel]; [simpl in Hf; lia|]);
    rewrite read_loop_round.
  - simpl in *. rewrite Nat.add_0_r in Hr, Hg. rewrite app_nil_r in Hm.
    rewrite app_nil_r.
    rewrite (round_prompt env session wait_seconds start_time output last w
               d m).
    + eexists. split; [rewrite Nat.add_0_r; reflexivity|].
      rewrite count_read_after_read, count_read_after_sleep,
        count_read_after_read.
      change (log (with_tick w)) with (log w). fold h. fold k. lia.
    + specialize (Hb 0). rewrite Nat.add_0_r in Hb. apply Hb. lia.
    + exact Hr.
    + exact Hd.
    + exact Hm.
    + exact Hg.
  - destruct Hn as (Hr0 & Hd0 & Hm0 & Hn).
    rewrite (round_more env session wait_seconds start_time output last w d0).
    + set (w2 := with_event _ (with_tick w)).
      assert (Ek : count (is_read h) (log w2) = S k).
      { subst w2. rewrite count_read_after_read. reflexivity. }
      destruct (IH fuel (output ++ d0) (env_time env (ticks w)) w2)
        as (w' & E & Hc).
      * fold h. rewrite Ek. exact Hn.
      * intros i Hi. simpl ticks.
        replace (S (ticks w) + i) with (ticks w + S i) by lia.
        apply Hb. simpl. lia.
      * fold h. rewrite Ek. simpl in Hr.
        replace (S k + length ds) with (k + S (length ds)) by lia. exact Hr.
      * exact Hd.
      * simpl in Hm. rewrite <- app_assoc in Hm.
        rewrite (app_assoc output d0 (join ds)) in Hm.
        replace ((output ++ d0) ++ join ds)
          with (output ++ d0 ++ join ds) by (rewrite app_assoc; reflexivity).
        exact Hm.
      * fold h. rewrite Ek. simpl in Hg.
        replace (S k + length ds) with (k + S (length ds)) by lia. exact Hg.
      * simpl in Hf. lia.
      * fold h in E, Hc. rewrite Ek in E, Hc. exists w'. split.
        -- rewrite E. simpl length. simpl join.
           replace (S k + length ds) with (k + S (length ds)) by lia.
           rewrite (app_assoc output d0 (join ds)). reflexivity.
        -- simpl length. lia.
    + specialize (Hb 0). rewrite Nat.add_0_r in Hb. apply Hb. lia.
    + exact Hr0.
    + exact Hd0.
    + exact Hm0.
Qed.

Lemma execute_chunks_run env fuel sid session command wait_ms w ds d m :
  let h := reader session in
  let k := count (is_read h) (log w) in
  let wait_seconds := seconds_of_ms (effective_wait_ms command wait_ms) in
  let grace := delivered (env_read env h (S (k + length ds))) in
  sessions w !! sid = Some session ->
  converts_to_float (effective_wait_ms command wait_ms) = true ->
  env_drain env (writer session) (count (is_drain (writer session)) (log w))
  = None ->
  no_prompt_yet env h k EmptyString ds ->
  (forall i, i <= length ds ->
     ~ (wait_seconds
        <= env_time env (S (ticks w) + i) - env_time env (ticks w))%Q) ->
  env_read env h (k + length ds) = Data d ->
  d <> EmptyString ->
  search prompt_pattern (clean (join ds ++ d)) = Some m ->
  (forall e, env_read env h (S (k + length ds)) = ReadRaises e ->
             e = TimeoutError) ->
  length ds < fuel ->
  exists w',
    execute env fuel sid command wait_ms w
    = Some (Ret ((join ds ++ d) ++ grace), w')
    /\ count (is_read h) (log w') = k + length ds + 2
    /\ (grace = EmptyString ->
        detect_device_mode ((join ds ++ d) ++ grace) = group 1 m).
Proof.
  intros h k wait_seconds grace Hs Hc Hdr Hn Hb Hr Hd Hm Hg Hf.
  rewrite (execute_known _ _ _ _ _ _ _ Hs Hc). cbn zeta. rewrite Hdr.
  set (w2 := with_tick _).
  assert (Ek : count (is_read h) (log w2) = k).
  { subst w2 k. simpl. rewrite !count_app. simpl. lia. }
  destruct (read_loop_chunks env session wait_seconds (env_time env (ticks w))
              d m ds fuel EmptyString (env_time env (ticks w)) w2)
    as (w' & E & Hk); fold h; rewrite ?Ek; try assumption.
  fold h in E, Hk. rewrite Ek in E, Hk.
  exists w'. split; [exact E|]. split; [exact Hk|].
  intros Hgr. rewrite Hgr, app_nil_r.
  apply detect_ends_in_prompt, prompt_pattern_inv, Hm.
Qed.

(** X11: output that arrives in several reads is put together: when the
    wait converts to seconds and the
    reads deliver the chunks [ds], none empty and none completing a
    prompt, then a chunk [d] with which the cleaned buffer ends in a
    prompt, all before the deadline, [execute] makes one grace read and
    returns the chunks in order, followed by what the grace read
    delivered.  When it delivered nothing, [detect_device_mode] of the
    output is the prompt that ended it. *)
Theorem execute_chunks env fuel sid session command wait_ms w ds d m :
  let h := reader session in
  let k := count (is_read h) (log w) in
  let wait_seconds := seconds_of_ms (effective_wait_ms command wait_ms) in
  let grace := delivered (env_read env h (S (k + length ds))) in
  sessions w !! sid = Some session ->
  converts_to_float (effective_wait_ms command wait_ms) = true ->
  env_drain env (writer session) (count (is_drain (writer session)) (log w))
  = None ->
  no_prompt_yet env h k EmptyString ds ->
  (forall i, i <= length ds ->
     ~ (wait_seconds
        <= env_time env (S (ticks w) + i) - env_time env (ticks w))%Q) ->
  env_read env h (k + length ds) = Data d ->
  d <> EmptyString ->
  search prompt_pattern (clean (join ds ++ d)) = Some m ->
  (forall e, env_read env h (S (k + length ds)) = ReadRaises e ->
             e = TimeoutError) ->
  length ds < fuel ->
  exists w',
    execute env fuel sid command wait_ms w
    = Some (Ret ((join ds ++ d) ++ grace), w')
    /\ count (is_read h) (log w') = k + length ds + 2
    /\ (grace = EmptyString ->
        detect_device_mode ((join ds ++ d) ++ grace) = group 1 m).
Proof. apply execute_chunks_run. Qed.

(** ** The silence rule *)

Lemma round_no_silence env session wait_seconds start_time output last w :
  unmatched output ->
  (forall k e, env_read env (reader session) k = ReadRaises e ->
               e = TimeoutError) ->
  match loop_round env session wait_seconds start_time output last w with
  | Again output' _ w' => unmatched output' /\ ticks w' = S (ticks w)
  | Done out w' =>
      ticks w' = S (ticks w)
      /\ ((wait_seconds <= env_time env (ticks w) - start_time)%Q
          \/ log w' = (log w ++ grace_events (reader session))%list)
  end.
Proof.
  intros Hu He. unfold loop_round. cbn zeta.
  destruct (Qle_bool wait_seconds (env_time env (ticks w) - start_time))
    eqn:Hq.
  { split; [reflexivity|]. left. apply Qle_bool_iff, Hq. }
  destruct (env_read env (reader session)
              (count (is_read (reader session)) (log (with_tick w))))
    as [data|e] eqn:Hr.
  - destruct (nonempty data); [|cbn beta iota; auto].
    destruct (search prompt_pattern (clean (output ++ data))) eqn:Hm;
      [|cbn beta iota; auto].
    assert (Hl : log (with_event
                        (Read (reader session) read_size poll_timeout)
                        (with_event (Sleep grace_delay)
                           (with_event
                              (Read (reader session) read_size poll_timeout)
                              (with_tick w))))
                 = (log w ++ grace_events (reader session))%list).
    { simpl. rewrite <- !List.app_assoc. reflexivity. }
    destruct (env_read env (reader session)
                (count _ (log (with_event (Sleep grace_delay) _))))
      as [extra|e] eqn:Hr'.
    + destruct (nonempty extra); cbn beta iota;
        (split; [reflexivity|]); right; exact Hl.
    + rewrite (He _ _ Hr'). cbn beta iota. split; [reflexivity|].
      right. exact Hl.
  - rewrite (He _ _ Hr). unfold unmatched in Hu. rewrite Hu.
    destruct (_ && _); cbn beta iota; auto.
Qed.

Lemma read_loop_no_silence env session wait_seconds start_time fuel :
  (forall k e, env_read env (reader session) k = ReadRaises e ->
               e = TimeoutError) ->
  forall output last w out w',
  unmatched output ->
  read_loop env fuel session wait_seconds start_time output last w
  = Some (Ret out, w') ->
  (wait_seconds <= env_time env (ticks w' - 1) - start_time)%Q
  \/ exists evs, log w' = (evs ++ grace_events (reader session))%list.
Proof.
  intros He.
  induction fuel as [|fuel IH]; intros output last w out w' Hu H;
    [discriminate|].
  rewrite read_loop_round in H.
  pose proof (round_no_silence env session wait_seconds start_time output
                last w Hu He) as Hr.
  destruct (loop_round env session wait_seconds start_time output last w)
    as [o v'|o last' v'].
  - injection H as -> ->. destruct Hr as [Ht [Hq|Hl]].
    + left. rewrite Ht. simpl. rewrite Nat.sub_0_r. exact Hq.
    + right. eauto.
  - destruct Hr as [Hu' _]. apply (IH _ _ _ _ _ Hu' H).
Qed.

(** X12: the silence rule needs a failed grace read.  When no read raises
    anything but the timeout, [execute] on a known session returns either
    with the clock past the deadline or right after a grace read: it
    never returns for a prompt found after a second of silence, since a
    buffer that ends in a prompt has ended the loop when it arrived. *)
Theorem execute_never_on_silence env fuel sid session command wait_ms w out w' :
  let wait_seconds := seconds_of_ms (effective_wait_ms command wait_ms) in
  sessions w !! sid = Some session ->
  (forall k e, env_read env (reader session) k = ReadRaises e ->
               e = TimeoutError) ->
  execute env fuel sid command wait_ms w = Some (Ret out, w') ->
  (wait_seconds
   <= env_time env (ticks w' - 1) - env_time env (ticks w))%Q
  \/ exists evs, log w' = (evs ++ grace_events (reader session))%list.
Proof.
  intros wait_seconds Hs He H.
  destruct (converts_to_float (effective_wait_ms command wait_ms)) eqn:Hc.
  - rewrite (execute_known _ _ _ _ _ _ _ Hs Hc) in H. cbn zeta in H.
    destruct (env_drain env (writer session) _); [discriminate|].
    fold wait_seconds in H.
    apply (read_loop_no_silence env session wait_seconds _ fuel He _ _ _ _ _
             (eq_refl : unmatched EmptyString) H).
  - rewrite (execute_overflow _ _ _ _ _ _ _ Hs Hc) in H. discriminate.
Qed.

(** ** [connect] step by step *)

Lemma bind_run {A B} (m : M A) (f : A -> M B) w a w1 :
  m w = Some (Ret a, w1) -> bind m f w = f a w1.
Proof. intros H. unfold bind. rewrite H. reflexivity. Qed.

Lemma with_events_app a b w :
  with_events b (with_events a w) = with_events (a ++ b) w.
Proof. unfold with_events. simpl. rewrite <- List.app_assoc. reflexivity. Qed.

Lemma count_with_events p evs w :
  count p (log (with_events evs w)) = count p (log w) + count p evs.
Proof. simpl. apply count_app. Qed.

Lemma count_reads h n : count (is_read h) (reads h n) = n.
Proof.
  induction n as [|n IH]; [reflexivity|].
  simpl. rewrite Nat.eqb_refl. unfold reads in IH. rewrite IH. reflexivity.
Qed.

Lemma count_burst h n h' data pause :
  count (is_read h) (burst n h' data pause) = 0.
Proof. induction n as [|n IH]; [reflexivity | exact IH]. Qed.

Lemma run_step env h data pause w :
  env_drain env h (count (is_drain h) (log w)) = None ->
  (write h data ;;; drain env h ;;; sleep pause) w
  = Some (Ret tt, with_events [Write h data; Drain h; Sleep pause] w).
Proof.
  intros H. unfold bind, write, drain, sleep. cbn beta iota.
  rewrite count_drain_after_write, H. unfold with_events, with_event. simpl.
  rewrite <- !List.app_assoc. reflexivity.
Qed.

Lemma run_burst env h data pause n :
  (forall j, env_drain env h j = None) ->
  forall w,
    repeat_do n (write h data ;;; drain env h ;;; sleep pause) w
    = Some (Ret tt, with_events (burst n h data pause) w).
Proof.
  intros Hd. induction n as [|n IH]; intros w.
  - unfold with_events. simpl. rewrite List.app_nil_r.
    destruct w; reflexivity.
  - cbn [repeat_do]. erewrite bind_run; [|apply run_step, Hd].
    rewrite IH, with_events_app. reflexivity.
Qed.

Lemma falls_silent_next env h k n :
  falls_silent env h k (S n) -> falls_silent env h (S k) n.
Proof.
  intros [H1 H2]. split.
  - intros i Hi. replace (S k + i) with (k + S i) by lia. apply H1. lia.
  - replace (S k + n) with (k + S n) by lia. exact H2.
Qed.

(** The loop that empties the reader returns what was delivered before
    the device fell silent. *)
Lemma discard_run env h n :
  forall fuel acc w,
    falls_silent env h (count (is_read h) (log w)) n ->
    n < fuel ->
    discard_output env fuel h acc w
    = Some (Ret (acc ++ received env h (count (is_read h) (log w)) n),
            with_events (reads h (S n)) w).
Proof.
  induction n as [|n IH]; intros fuel acc w Hs Hf;
    (destruct fuel as [|fuel]; [lia|]); cbn [discard_output];
    unfold bind, attempt, read; cbn beta iota.
  - destruct Hs as [_ Hs]. rewrite Nat.add_0_r in Hs.
    simpl. rewrite app_nil_r. destruct Hs as [-> | ->]; reflexivity.
  - pose proof Hs as [H1 _]. destruct (H1 0) as (d & Hr & Hd); [lia|].
    rewrite Nat.add_0_r in Hr. rewrite Hr, (nonempty_true _ Hd).
    rewrite IH.
    + rewrite count_read_after_read. simpl received. rewrite Hr.
      simpl delivered. rewrite app_assoc.
      f_equal. f_equal. unfold with_events, with_event, reads. simpl.
      rewrite <- List.app_assoc. reflexivity.
    + rewrite count_read_after_read. apply falls_silent_next, Hs.
    + lia.
Qed.

Lemma run_open env host port timeout w :
  env_open env (count is_open (log w)) = None ->
  open_connection env host port timeout w
  = Some (Ret (count is_open (log w), count is_open (log w)),
          with_events [Open host port timeout] w).
Proof. intros H. unfold open_connection. rewrite H. reflexivity. Qed.

Lemma run_step_then {A} env h data pause (X : M A) w :
  env_drain env h (count (is_drain h) (log w)) = None ->
  (write h data ;;; drain env h ;;; sleep pause ;;; X) w
  = X (with_events [Write h data; Drain h; Sleep pause] w).
Proof.
  intros H. unfold bind at 1. unfold write. cbn beta iota.
  unfold bind at 1. unfold drain. cbn beta iota.
  rewrite count_drain_after_write, H. cbn beta iota.
  unfold bind at 1. unfold sleep. cbn beta iota.
  f_equal. unfold with_events, with_event. simpl.
  rewrite <- !List.app_assoc. reflexivity.
Qed.

Lemma connect_handshake_run env fuel host port timeout w n1 n2 n3 :
  let h := count is_open (log w) in
  let k := count (is_read h) (log w) in
  let in_config := Str.contains "(config" (received env h k n1) in
  let k3 := if in_config then k + S n1 + S n2 else k + S n1 in
  let session :=
    {| session_id := env_uuid4 env h; host := host; port := port;
       reader := h; writer := h; connected_at := env_now env h |} in
  converts_to_float timeout = true ->
  env_open env h = None ->
  (forall j, env_drain env h j = None) ->
  falls_silent env h k n1 ->
  (in_config = true -> falls_silent env h (k + S n1) n2 /\ n2 < fuel) ->
  falls_silent env h k3 n3 ->
  n1 < fuel -> n3 < fuel ->
  exists w',
    connect env fuel host port timeout w = Some (Ret (env_uuid4 env h), w')
    /\ log w'
       = (log w ++ Open host port (seconds_of_ms timeout)
                   :: handshake h in_config n1 n2 n3)%list
    /\ sessions w' = <[env_uuid4 env h := session]> (sessions w)
    /\ ticks w' = ticks w.
Proof.
  intros h k in_config k3 session Hfl Ho Hd H1 H2 H3 Hf1 Hf3.
  unfold connect. rewrite (bind_to_seconds _ _ _ Hfl). unfold try_except.
  erewrite bind_run; [|apply run_open, Ho]. fold h.
  cbn beta iota zeta. fold session.
  erewrite bind_run; [|reflexivity].
  erewrite bind_run; [|apply run_burst, Hd].
  erewrite bind_run; [|apply run_burst, Hd].
  set (w3 := with_events (burst 5 _ _ _) _).
  assert (E3 : count (is_read h) (log w3) = k).
  { subst w3. simpl. rewrite !count_app. simpl. fold k. lia. }
  erewrite bind_run; [|apply discard_run; [rewrite E3; exact H1 | exact Hf1]].
  rewrite E3, app_nil_l. fold in_config.
  assert (E4 : count (is_read h) (log (with_events (reads h (S n1)) w3))
               = k + S n1).
  { rewrite count_with_events, count_reads, E3. reflexivity. }
  destruct in_config eqn:Hc.
  - destruct (H2 eq_refl) as [H2' Hf2].
    erewrite bind_run.
    2:{ rewrite run_step_then by apply Hd.
        erewrite bind_run; [reflexivity|].
        apply discard_run; [|exact Hf2].
        rewrite count_with_events, E4. simpl. rewrite Nat.add_0_r.
        exact H2'. }
    rewrite run_step_then by apply Hd.
    erewrite bind_run.
    2:{ apply discard_run; [|exact Hf3].
        match goal with
        | |- falls_silent _ _ ?c _ =>
            replace c with (k + S n1 + S n2); [exact H3|]
        end.
        do 3 rewrite count_with_events. rewrite E4, count_reads. simpl. lia. }
    eexists. split; [reflexivity|]. split; [|split; reflexivity].
    subst w3. unfold handshake. simpl. rewrite <- !List.app_assoc.
    reflexivity.
  - erewrite bind_run; [|reflexivity].
    rewrite run_step_then by apply Hd.
    erewrite bind_run.
    2:{ apply discard_run; [|exact Hf3].
        rewrite count_with_events, E4. simpl. rewrite Nat.add_0_r.
        exact H3. }
    eexists. split; [reflexivity|]. split; [|split; reflexivity].
    subst w3. unfold handshake. simpl. rewrite <- !List.app_assoc.
    reflexivity.
Qed.

(** X13: the handshake.  With a timeout that converts to seconds, on a
    transport that opens and flushes, with a device that falls silent
    after each step, [connect] returns the
    identifier drawn and has, in this order: sent the line end three
    times and the question mark five times, each flushed and followed by
    its pause; read until silence; sent [end] and read until silence,
    when and only when what it had read contained ["(config"]; sent
    [terminal length 0] and read until silence.  The session is in
    [sessions] under the identifier. *)
Theorem connect_handshake env fuel host port timeout w n1 n2 n3 :
  let h := count is_open (log w) in
  let k := count (is_read h) (log w) in
  let in_config := Str.contains "(config" (received env h k n1) in
  let k3 := if in_config then k + S n1 + S n2 else k + S n1 in
  let session :=
    {| session_id := env_uuid4 env h; host := host; port := port;
       reader := h; writer := h; connected_at := env_now env h |} in
  converts_to_float timeout = true ->
  env_open env h = None ->
  (forall j, env_drain env h j = None) ->
  falls_silent env h k n1 ->
  (in_config = true -> falls_silent env h (k + S n1) n2 /\ n2 < fuel) ->
  falls_silent env h k3 n3 ->
  n1 < fuel -> n3 < fuel ->
  exists w',
    connect env fuel host port timeout w = Some (Ret (env_uuid4 env h), w')
    /\ log w'
       = (log w ++ Open host port (seconds_of_ms timeout)
                   :: handshake h in_config n1 n2 n3)%list
    /\ sessions w' = <[env_uuid4 env h := session]> (sessions w)
    /\ ticks w' = ticks w.
Proof. apply connect_handshake_run. Qed.

(** ** The registry *)

(** X14: when the transport does not open, [connect] with a timeout
    that converts to seconds raises the connection error, "timed out"
    for the timeout of [wait_for] and "failed" with the text of the
    exception for any other, having done nothing but the attempt: no
    session, no identifier drawn, no write.  With a timeout beyond the
    floats it raises the [OverflowError] of the division and does not
    attempt to open. *)
Theorem connect_open_failure env fuel host port timeout w e :
  env_open env (count is_open (log w)) = Some e ->
  connect env fuel host port timeout w
  = if converts_to_float timeout then
      Some (Raise (ConnectionError
                     (match e with
                      | TimeoutError =>
                          "连接超时: " ++ host ++ ":" ++ Str.of_int port
                      | _ =>
                          "连接失败: " ++ host ++ ":" ++ Str.of_int port
                          ++ " - " ++ exn_str e
                      end)),
            with_event (Open host port (seconds_of_ms timeout)) w)
    else Some (Raise overflow_error, w).
Proof.
  intros H. destruct (converts_to_float timeout) eqn:Hc.
  - unfold connect. rewrite (bind_to_seconds _ _ _ Hc).
    unfold try_except, bind, open_connection.
    rewrite H. destruct e; reflexivity.
  - apply connect_overflow, Hc.
Qed.

Lemma list_sessions_insert w w' sid session :
  sessions w !! sid = None ->
  sessions w' = <[sid := session]> (sessions w) ->
  list_sessions w' ≡ₚ to_dict session :: list_sessions w.
Proof.
  intros Hn E. unfold list_sessions. rewrite E.
  rewrite (map_to_list_insert _ _ _ Hn). reflexivity.
Qed.

Lemma list_sessions_delete w w' sid session :
  sessions w !! sid = Some session ->
  sessions w' = delete sid (sessions w) ->
  list_sessions w ≡ₚ to_dict session :: list_sessions w'.
Proof.
  intros Hs E. unfold list_sessions. rewrite E.
  rewrite <- (map_to_list_delete _ _ _ Hs). reflexivity.
Qed.

Lemma list_sessions_elem w sid session :
  sessions w !! sid = Some session -> to_dict session ∈ list_sessions w.
Proof.
  intros H. unfold list_sessions. apply list_elem_of_fmap.
  exists session. split; [reflexivity|].
  apply list_elem_of_fmap. exists (sid, session). split; [reflexivity|].
  apply elem_of_map_to_list, H.
Qed.

(** X15: the identifier [connect] returns is a key of [sessions]: the
    session under it has that identifier, the host and port given and one
    transport for reading and writing, [list_sessions] shows it, and
    [execute] on the identifier gets to write its command. *)
Theorem connect_registers env fuel hostname portno timeout w sid w' :
  connect env fuel hostname portno timeout w = Some (Ret sid, w') ->
  exists session,
    sessions w' !! sid = Some session
    /\ session_id session = sid
    /\ host session = hostname /\ port session = portno
    /\ reader session = writer session
    /\ to_dict session ∈ list_sessions w'
    /\ forall fuel' command wait_ms,
         execute env fuel' sid command wait_ms w'
         = send_and_poll env fuel' session command
             (effective_wait_ms command wait_ms) w'.
Proof.
  intros H. pose proof (connect_ret_converts _ _ _ _ _ _ _ _ H) as Hfl.
  apply connect_cases in H as [Hr Hs]; [|exact Hfl].
  destruct Hr as [Hr|(msg & Hr & _)]; [|discriminate].
  injection Hr as ->.
  destruct (env_open env (count is_open (log w))) as [e|];
    [destruct Hs as [_ Hs]; congruence|].
  eexists. split; [rewrite Hs; apply lookup_insert_eq|].
  repeat (split; [reflexivity|]). split.
  - eapply list_sessions_elem. rewrite Hs. apply lookup_insert_eq.
  - intros fuel' command wait_ms. unfold execute.
    rewrite Hs, lookup_insert_eq. reflexivity.
Qed.

(** X16: when the identifier drawn is not yet a key, [connect] that
    returns adds one dictionary to what [list_sessions] gives, that of
    the new session, and keeps the others. *)
Theorem connect_lists_one_more env fuel host port timeout w sid w' :
  connect env fuel host port timeout w = Some (Ret sid, w') ->
  sessions w !! sid = None ->
  exists connected_at,
    list_sessions w'
    ≡ₚ {| sessionId := sid; dict_host := host; dict_port := port;
          connectedAt := connected_at |} :: list_sessions w.
Proof.
  intros H Hn. pose proof (connect_ret_converts _ _ _ _ _ _ _ _ H) as Hfl.
  apply connect_cases in H as [Hr Hs]; [|exact Hfl].
  destruct Hr as [Hr|(msg & Hr & _)]; [|discriminate].
  injection Hr as ->.
  destruct (env_open env (count is_open (log w))) as [e|];
    [destruct Hs as [_ Hs]; congruence|].
  eexists. apply (list_sessions_insert _ _ _ _ Hn Hs).
Qed.

(** X17: [connect] then [disconnect] of the identifier it returned, when
    that identifier was not a key before, gives back the [sessions] of
    before the two calls; the transport closed is the one [connect]
    opened. *)
Theorem connect_then_disconnect env fuel host port timeout w sid w1 :
  connect env fuel host port timeout w = Some (Ret sid, w1) ->
  sessions w !! sid = None ->
  exists w2,
    disconnect env sid w1 = Some (Ret true, w2)
    /\ sessions w2 = sessions w
    /\ log w2 = (log w1 ++ [Close (count is_open (log w))])%list
    /\ list_sessions w2 = list_sessions w.
Proof.
  intros H Hn. pose proof (connect_ret_converts _ _ _ _ _ _ _ _ H) as Hfl.
  apply connect_cases in H as [Hr Hs]; [|exact Hfl].
  destruct Hr as [Hr|(msg & Hr & _)]; [|discriminate].
  injection Hr as ->.
  destruct (env_open env (count is_open (log w))) as [e|];
    [destruct Hs as [_ Hs]; congruence|].
  unfold disconnect. rewrite Hs, lookup_insert_eq.
  unfold bind, attempt, close, unregister, ret. cbn beta iota.
  eexists. split.
  - destruct (env_close env _); reflexivity.
  - assert (E : delete (env_uuid4 env (count is_open (log w)))
                  (sessions w1) = sessions w).
    { rewrite Hs. apply delete_insert_id, Hn. }
    split; [exact E|]. split; [reflexivity|].
    unfold list_sessions. simpl. rewrite E. reflexivity.
Qed.

Lemma disconnect_missing env sid w :
  sessions w !! sid = None ->
  disconnect env sid w
  = Some (Raise (ValueError ("会话不存在: " ++ sid)), w).
Proof. intros H. unfold disconnect. rewrite H. reflexivity. Qed.

(** X18: [disconnect] works once: on a known identifier the first call
    returns [True] and a second call with the same identifier raises the
    unknown-session error and changes nothing, so that [close] is called
    once in all. *)
Theorem disconnect_twice env sid session w :
  sessions w !! sid = Some session ->
  exists w1,
    disconnect env sid w = Some (Ret true, w1)
    /\ disconnect env sid w1
       = Some (Raise (ValueError ("会话不存在: " ++ sid)), w1)
    /\ count is_close (log w1) = S (count is_close (log w)).
Proof.
  intros Hs. unfold disconnect at 1. rewrite Hs.
  unfold bind, attempt, close, unregister, ret. cbn beta iota.
  eexists. split.
  - destruct (env_close env (writer session)); reflexivity.
  - split.
    + apply disconnect_missing. simpl. apply lookup_delete_eq.
    + simpl. rewrite count_app. simpl. lia.
Qed.

(** X19: [disconnect] touches one session: the other keys of [sessions]
    keep their sessions, and [list_sessions] loses the dictionary of the
    session removed and no other. *)
Theorem disconnect_others_stay env sid session w r w' :
  sessions w !! sid = Some session ->
  disconnect env sid w = Some (r, w') ->
  (forall other, other <> sid -> sessions w' !! other = sessions w !! other)
  /\ sessions w' !! sid = None
  /\ list_sessions w ≡ₚ to_dict session :: list_sessions w'.
Proof.
  intros Hs H. apply disconnect_cases in H. rewrite Hs in H.
  destruct H as [_ E]. split; [|split].
  - intros other Hne. rewrite E. apply lookup_delete_ne. congruence.
  - rewrite E. apply lookup_delete_eq.
  - apply (list_sessions_delete _ _ _ _ Hs E).
Qed.

(** X20: [list_sessions] gives the empty list exactly when [sessions] is
    empty, and, the keys being the identifiers of their sessions, no two
    of its dictionaries have the same [sessionId]. *)
Theorem list_sessions_distinct w :
  (list_sessions w = [] <-> sessions w = ∅)
  /\ (keys_match w -> NoDup (sessionId <$> list_sessions w)).
Proof.
  split.
  - unfold list_sessions. split.
    + intros H. apply map_to_list_empty_iff.
      destruct (map_to_list (sessions w)); [reflexivity | discriminate].
    + intros ->. rewrite map_to_list_empty. reflexivity.
  - intros Hk. unfold list_sessions.
    assert (E : sessionId <$> (to_dict <$> (map_to_list (sessions w)).*2)
                = (map_to_list (sessions w)).*1).
    { rewrite <- !list_fmap_compose. apply list_fmap_ext.
      intros i [k s] Hl. simpl.
      apply list_elem_of_lookup_2, elem_of_map_to_list in Hl.
      apply Hk, Hl. }
    rewrite E. apply NoDup_fst_map_to_list.
Qed.

(** X21: [connect] raises two exceptions only: with a timeout that
    converts to seconds, whatever makes it fail, the connection error,
    whose message names the endpoint; with a timeout beyond the floats,
    the [OverflowError] of the division, before anything is done. *)
Theorem connect_error_names_endpoint env fuel host port timeout w e w' :
  connect env fuel host port timeout w = Some (Raise e, w') ->
  if converts_to_float timeout then
    exists msg,
      e = ConnectionError msg
      /\ Str.contains (host ++ ":" ++ Str.of_int port) msg = true
  else e = overflow_error /\ w' = w.
Proof.
  intros H. destruct (converts_to_float timeout) eqn:Hc.
  - apply connect_cases in H as [[Hr|(msg & Hr & Hm)] _]; [| |exact Hc];
      [discriminate|].
    injection Hr as ->. eauto.
  - rewrite (connect_overflow _ _ _ _ _ _ Hc) in H.
    injection H as <- <-. auto.
Qed.

(** ** The tools *)

Lemma count_handshake h c n1 n2 n3 :
  count (is_read h) (handshake h c n1 n2 n3)
  = S n1 + (if c then S n2 else 0) + S n3.
Proof.
  unfold handshake.
  rewrite !count_app, !count_burst, count_reads.
  destruct c; simpl; rewrite ?Nat.eqb_refl; simpl;
    fold (reads h n2); fold (reads h n3); rewrite ?count_reads; lia.
Qed.

Lemma json_escape_token s :
  Str.all token_char s = true -> json_escape s = s.
Proof.
  induction s as [|c s IH]; [reflexivity|].
  simpl. intros [Hc Hs]%andb_prop. rewrite (IH Hs).
  assert (E : json_escape_char c = String c EmptyString)
    by (revert Hc; by_character c).
  rewrite E. reflexivity.
Qed.

(** X22: end to end.  When the timeout converts to seconds, the
    transport opens and flushes, the device
    falls silent after each step of the handshake, and then answers the
    empty command of the probe, within its second, with chunks that end
    in a prompt, the grace read bringing nothing, [telnet_connect] returns
    the document that says success, with the identifier drawn as
    [sessionId] and that prompt as [deviceMode]; the session is
    registered. *)
Theorem telnet_connect_reports_prompt env fuel host port timeout w n1 n2 n3
    ds d m :
  let h := count is_open (log w) in
  let k := count (is_read h) (log w) in
  let in_config := Str.contains "(config" (received env h k n1) in
  let k3 := if in_config then k + S n1 + S n2 else k + S n1 in
  let kp := k3 + S n3 in
  converts_to_float timeout = true ->
  env_open env h = None ->
  (forall j, env_drain env h j = None) ->
  falls_silent env h k n1 ->
  (in_config = true -> falls_silent env h (k + S n1) n2 /\ n2 < fuel) ->
  falls_silent env h k3 n3 ->
  n1 < fuel -> n3 < fuel ->
  no_prompt_yet env h kp EmptyString ds ->
  (forall i, i <= length ds ->
     ~ (seconds_of_ms 1000
        <= env_time env (S (ticks w) + i) - env_time env (ticks w))%Q) ->
  env_read env h (kp + length ds) = Data d ->
  d <> EmptyString ->
  search prompt_pattern (clean (join ds ++ d)) = Some m ->
  env_read env h (S (kp + length ds)) = Data EmptyString
  \/ env_read env h (S (kp + length ds)) = ReadRaises TimeoutError ->
  length ds < fuel ->
  exists w',
    telnet_connect env fuel host port timeout w
    = Some (Ret (json_dumps [("success", JBool true);
                             ("sessionId", JStr (env_uuid4 env h));
                             ("deviceMode", JStr (group 1 m));
                             ("message", JStr "连接成功")]), w')
    /\ is_Some (sessions w' !! env_uuid4 env h)
    /\ json_string (group 1 m)
       = String DQUOTE (group 1 m ++ String DQUOTE EmptyString).
Proof.
  intros h k in_config k3 kp Hfl Ho Hd H1 H2 H3 Hf1 Hf3 Hn Hb Hr Hne Hm Hg
    Hf.
  destruct (connect_handshake_run env fuel host port timeout w n1 n2 n3
              Hfl Ho Hd H1 H2 H3 Hf1 Hf3) as (w1 & Ec & Hl & Hs & Et).
  fold h k in_config k3 in Ec, Hl, Hs.
  set (session := {| session_id := env_uuid4 env h; host := host;
                     port := port; reader := h; writer := h;
                     connected_at := env_now env h |}) in *.
  assert (Ek : count (is_read h) (log w1) = kp).
  { rewrite Hl, count_app. cbn [count]. rewrite count_handshake.
    subst kp k3. fold k. simpl is_read. destruct in_config; lia. }
  assert (Hk : sessions w1 !! env_uuid4 env h = Some session).
  { rewrite Hs. apply lookup_insert_eq. }
  destruct (execute_chunks_run env fuel (env_uuid4 env h) session EmptyString
              1000 w1 ds d m) as (w2 & Ee & _ & Hdet).
  - exact Hk.
  - apply converts_small. vm_compute. discriminate.
  - apply Hd.
  - simpl reader. rewrite Ek. exact Hn.
  - rewrite Et. exact Hb.
  - simpl reader. rewrite Ek. exact Hr.
  - exact Hne.
  - exact Hm.
  - simpl reader. rewrite Ek. intros e He.
    destruct Hg as [Hg|Hg]; rewrite Hg in He; [discriminate|].
    injection He as <-. reflexivity.
  - exact Hf.
  - simpl reader in Ee, Hdet. rewrite Ek in Ee, Hdet.
    assert (Egr : delivered (env_read env h (S (kp + length ds)))
                  = EmptyString)
      by (destruct Hg as [-> | ->]; reflexivity).
    specialize (Hdet Egr).
    exists w2. split; [|split].
    + unfold telnet_connect, try_except.
      erewrite bind_run; [|exact Ec].
      erewrite bind_run; [|exact Ee].
      cbv zeta. rewrite Hdet. reflexivity.
    + rewrite (execute_sessions _ _ _ _ _ _ _ _ Ee), Hk. eauto.
    + unfold json_string. rewrite json_escape_token; [reflexivity|].
      apply prompt_line_token.
      apply prompt_pattern_inv in Hm as (_ & _ & _ & _ & _ & Hp & _).
      exact Hp.
Qed.

(** X23: when the transport does not open, [telnet_connect] with a
    timeout that converts to seconds does not raise: it returns the
    document that says failure, whose [error] is the message of
    [connect] and names the endpoint, and nothing is registered or
    written.  With a timeout beyond the floats the [OverflowError] of
    [connect] is not caught: [telnet_connect] raises it, and no open is
    attempted. *)
Theorem telnet_connect_open_failure env fuel host port timeout w e :
  env_open env (count is_open (log w)) = Some e ->
  if converts_to_float timeout then
    exists msg,
      telnet_connect env fuel host port timeout w
      = Some (Ret (json_dumps [("success", JBool false);
                               ("error", JStr msg)]),
              with_event (Open host port (seconds_of_ms timeout)) w)
      /\ Str.contains (host ++ ":" ++ Str.of_int port) msg = true
  else
    telnet_connect env fuel host port timeout w
    = Some (Raise overflow_error, w).
Proof.
  intros H. destruct (converts_to_float timeout) eqn:Hfl.
  - destruct (handler_names_endpoint host port e) as (msg & E & Hc).
    exists msg. split; [|exact Hc].
    unfold telnet_connect, try_except at 1, bind at 1.
    unfold connect. rewrite (bind_to_seconds _ _ _ Hfl).
    unfold try_except, bind, open_connection. rewrite H.
    destruct e; injection E as <-; reflexivity.
  - unfold telnet_connect, try_except at 1, bind at 1.
    rewrite (connect_overflow _ _ _ _ _ _ Hfl). reflexivity.
Qed.

(** X24: once the transport has opened, which takes a timeout that
    converts to seconds, the session is in [sessions] when
    [telnet_connect] is over, whatever it returns or raises: also when
    it reports a failure and gives the caller no identifier. *)
Theorem telnet_connect_keeps_session env fuel host port timeout w r w' :
  let h := count is_open (log w) in
  converts_to_float timeout = true ->
  env_open env h = None ->
  telnet_connect env fuel host port timeout w = Some (r, w') ->
  exists session,
    sessions w' = <[env_uuid4 env h := session]> (sessions w)
    /\ session_id session = env_uuid4 env h.
Proof.
  intros h Hfl Ho H. unfold telnet_connect, try_except at 1, bind at 1 in H.
  destruct (connect env fuel host port timeout w) as [[rc w1]|] eqn:Ec;
    [|discriminate].
  apply connect_cases in Ec as [_ Hs]; [|exact Hfl].
  fold h in Hs. rewrite Ho in Hs.
  exists {| session_id := env_uuid4 env h; host := host; port := port;
            reader := h; writer := h; connected_at := env_now env h |}.
  split; [|reflexivity]. rewrite <- Hs.
  destruct rc as [sid|e].
  - unfold bind in H.
    destruct (execute env fuel sid EmptyString 1000 w1) as [[[out|e] w2]|]
      eqn:Ee; [| |discriminate].
    + injection H as _ <-. apply (execute_sessions _ _ _ _ _ _ _ _ Ee).
    + destruct e; injection H as _ <-;
        apply (execute_sessions _ _ _ _ _ _ _ _ Ee).
  - destruct e; injection H as _ <-; reflexivity.
Qed.

(** X25: [telnet_disconnect] never raises: it says that the session is
    disconnected when the identifier is a key of [sessions], which it
    then is no more, and gives the unknown-session error as a text when
    it is not, in which case nothing changes. *)
Theorem telnet_disconnect_total env sid w :
  exists text w',
    telnet_disconnect env sid w = Some (Ret text, w')
    /\ sessions w' = delete sid (sessions w)
    /\ match sessions w !! sid with
       | Some session =>
           text = "会话 " ++ sid ++ " 已断开"
           /\ log w' = (log w ++ [Close (writer session)])%list
       | None => text = "错误: 会话不存在: " ++ sid /\ w' = w
       end.
Proof.
  unfold telnet_disconnect, try_except, bind, disconnect.
  destruct (sessions w !! sid) as [session|] eqn:Hs.
  - unfold bind, attempt, close, unregister, ret. cbn beta iota.
    eexists _, _. split.
    + destruct (env_close env (writer session)); reflexivity.
    + simpl. auto.
  - eexists _, _. split; [reflexivity|]. split; [|auto].
    symmetry. apply delete_id, Hs.
Qed.

Lemma fold_lines (f : SessionDict -> string) l acc :
  fold_left (fun result session => result ++ f session) l acc
  = acc ++ join (f <$> l).
Proof.
  revert acc. induction l as [|d l IH]; intros acc; simpl.
  - rewrite app_nil_r. reflexivity.
  - rewrite IH, app_assoc. reflexivity.
Qed.

Lemma prefix_app_l p s t :
  String.prefix p s = true -> String.prefix p (s ++ t) = true.
Proof.
  revert s. induction p as [|a p IH]; intros s H.
  - destruct (s ++ t); reflexivity.
  - destruct s as [|b s]; [discriminate|].
    apply prefix_cons in H as [-> H]. rewrite app_cons.
    apply prefix_cons_intro, IH, H.
Qed.

Lemma contains_app_l p s t :
  Str.contains p s = true -> Str.contains p (s ++ t) = true.
Proof.
  induction s as [|a s IH]; intros H.
  - apply contains_here.
    change (String.prefix p EmptyString || false = true) in H.
    rewrite orb_false_r in H. apply prefix_app_l, H.
  - change (Str.contains p (String a s))
      with (String.prefix p (String a s) || Str.contains p s) in H.
    apply orb_prop in H as [H|H].
    + apply contains_here, prefix_app_l, H.
    + rewrite app_cons.
      change (Str.contains p (String a (s ++ t)))
        with (String.prefix p (String a (s ++ t)) || Str.contains p (s ++ t)).
      rewrite (IH H). apply orb_true_r.
Qed.

Lemma contains_join (f : SessionDict -> string) d l p :
  d ∈ l -> Str.contains p (f d) = true ->
  Str.contains p (join (f <$> l)) = true.
Proof.
  intros Hd Hp. induction l as [|d' l IH]; [inversion Hd|].
  cbn [fmap list_fmap join].
  apply elem_of_cons in Hd as [-> | Hd].
  - apply contains_app_l, Hp.
  - apply contains_app, IH, Hd.
Qed.

Lemma app_head a x y b z :
  String a x ++ y = String b z -> a = b.
Proof. rewrite app_cons. intros H. injection H as -> _. reflexivity. Qed.

(** X26: [telnet_list_sessions] says that there is no session exactly
    when [sessions] is empty; otherwise its text has, for every session
    stored, the line of its identifier and the line of its host and
    port. *)
Theorem telnet_list_sessions_lists w :
  (telnet_list_sessions w = "当前没有活动会话" <-> sessions w = ∅)
  /\ forall sid session,
       sessions w !! sid = Some session ->
       Str.contains ("- ID: " ++ session_id session ++ String LF EmptyString)
         (telnet_list_sessions w) = true
       /\ Str.contains
            ("  主机: " ++ host session ++ ":" ++ Str.of_int (port session)
             ++ String LF EmptyString)
            (telnet_list_sessions w) = true.
Proof.
  split.
  - unfold telnet_list_sessions. split.
    + destruct (list_sessions w) as [|d l] eqn:E.
      * intros _. unfold list_sessions in E.
        apply map_to_list_empty_iff.
        destruct (map_to_list (sessions w)); [reflexivity | discriminate].
      * rewrite fold_lines. intros H. apply app_head in H. discriminate.
    + intros H. unfold list_sessions. rewrite H, map_to_list_empty.
      reflexivity.
  - intros sid session Hs.
    pose proof (list_sessions_elem _ _ _ Hs) as Hin.
    unfold telnet_list_sessions.
    destruct (list_sessions w) as [|d l] eqn:E; [inversion Hin|].
    rewrite fold_lines. split.
    + apply contains_app, (contains_join _ _ _ _ Hin).
      unfold session_lines. apply contains_here, prefix_app.
    + apply contains_app, (contains_join _ _ _ _ Hin).
      unfold session_lines. apply contains_app.
      replace (("  主机: " ++ dict_host (to_dict session) ++ ":"
                ++ Str.of_int (dict_port (to_dict session))
                ++ String LF EmptyString)
               ++ "  连接时间: " ++ connectedAt (to_dict session)
               ++ String LF EmptyString)
        with (("  主机: " ++ host session ++ ":"
               ++ Str.of_int (port session) ++ String LF EmptyString)
              ++ "  连接时间: " ++ connectedAt (to_dict session)
              ++ String LF EmptyString) by reflexivity.
      apply contains_here, prefix_app.
Qed.

(** ** The further properties at work on the example inputs *)

Lemma huge_overflows : converts_to_float (10 ^ 400) = false.
Proof. vm_compute. reflexivity. Qed.

Lemma prompt_line_config : prompt_line "SW3(config-if)#".
Proof.
  right. exists "SW3", "config-if", "#"%char.
  repeat split; discriminate.
Defined.

Lemma detect_trailing_space_witness :
  detect_device_mode
    ("interface Gi0/1" ++ String LF ("SW3(config-if)#" ++ "  "))
  = "SW3(config-if)#".
Proof.
  exact (detect_trailing_space "interface Gi0/1" "  " "SW3(config-if)#" LF
           eq_refl prompt_line_config eq_refl).
Defined.

Lemma prompt_pattern_agrees_witness :
  detect_device_mode (CRLF ++ "SW1#") = group 1 [(1, "SW1#")]
  /\ prompt_line (group 1 [(1, "SW1#")]).
Proof.
  apply (prompt_pattern_agrees (CRLF ++ "SW1#") [(1, "SW1#")]).
  vm_compute. reflexivity.
Defined.

Lemma execute_effects_witness :
  exists r w' evs,
    execute prompting 5 "id-0" "show version" 2000 world1 = Some (r, w')
    /\ log w'
       = (log world1
          ++ Write 0 ("show version" ++ CRLF) :: Drain 0 :: evs)%list
    /\ forallb (is_poll_event 0) evs = true
    /\ sessions w' = sessions world1.
Proof.
  destruct (execute prompting 5 "id-0" "show version" 2000 world1)
    as [[r w']|] eqn:E; [|vm_compute in E; discriminate].
  destruct (execute_effects prompting 5 "id-0" session0 "show version" 2000
              world1 r w' eq_refl E) as [evs H].
  exists r, w', evs. split; [reflexivity|exact H].
Defined.


Lemma execute_silent_witness :
  exists w',
    execute quiet 6 "id-0" "show version" 500 world1
    = Some (Ret EmptyString, w')
    /\ log w'
       = (log world1
          ++ Write 0 ("show version" ++ CRLF) :: Drain 0
             :: repeat (Read 0 read_size poll_timeout) 4)%list
    /\ sessions w' = sessions world1.
Proof.
  refine (proj2 (execute_silent quiet 6 4 "id-0" session0 "show version" 500
                   world1 eq_refl eq_refl eq_refl _ _ _) _).
  - intros k. reflexivity.
  - intros i Hi C. apply Qle_bool_iff in C.
    destruct i as [|[|[|[|i]]]]; try (vm_compute in C; discriminate). lia.
  - apply Qle_bool_iff. vm_compute. reflexivity.
  - lia.
Defined.

Lemma execute_chunks_witness :
  exists w',
    execute answering 5 "id-0" "show clock" 2000 world1
    = Some (Ret ("show clock" ++ CRLF ++ "12:00:00" ++ CRLF ++ "SW1#"), w')
    /\ count (is_read 0) (log w') = 3
    /\ detect_device_mode
         ("show clock" ++ CRLF ++ "12:00:00" ++ CRLF ++ "SW1#")
       = "SW1#".
Proof.
  destruct (execute_chunks answering 5 "id-0" session0 "show clock" 2000
              world1 ["show clock" ++ CRLF] ("12:00:00" ++ CRLF ++ "SW1#")
              [(1, "SW1#")])
    as (w' & E & Hc & Hd).
  - reflexivity.
  - reflexivity.
  - reflexivity.
  - repeat split. discriminate.
  - intros i Hi C. apply Qle_bool_iff in C.
    destruct i as [|[|i]]; try (vm_compute in C; discriminate).
    simpl in Hi. lia.
  - reflexivity.
  - discriminate.
  - vm_compute. reflexivity.
  - intros e H. injection H as <-. reflexivity.
  - simpl. lia.
  - exists w'. split; [exact E|]. split; [exact Hc|]. exact (Hd eq_refl).
Defined.

Lemma falls_silent_configuring k :
  Nat.Even k -> k < 6 -> falls_silent configuring 0 k 1.
Proof.
  intros [j ->] Hk. split.
  - intros i Hi. replace i with 0 by lia.
    destruct j as [|[|[|j]]]; try lia;
      (eexists; split; [reflexivity|discriminate]).
  - right. destruct j as [|[|[|j]]]; try lia; reflexivity.
Defined.

Lemma connect_handshake_witness :
  exists w',
    connect configuring 3 "10.0.0.1" 23 5000 world0 = Some (Ret "id-0", w')
    /\ log w'
       = (log world0
          ++ Open "10.0.0.1" 23 (seconds_of_ms 5000)
             :: handshake 0 true 1 1 1)%list
    /\ sessions w' = <["id-0" := session0]> (sessions world0)
    /\ ticks w' = ticks world0.
Proof.
  refine (connect_handshake configuring 3 "10.0.0.1" 23 5000 world0 1 1 1
            eq_refl eq_refl _ _ _ _ _ _).
  - intros j. reflexivity.
  - apply (falls_silent_configuring 0); [exists 0; reflexivity|lia].
  - intros _. split; [|lia].
    apply (falls_silent_configuring 2); [exists 1; reflexivity|lia].
  - apply (falls_silent_configuring 4); [exists 2; reflexivity|lia].
  - lia.
  - lia.
Defined.

Lemma connect_open_failure_witness :
  connect refusing 3 "10.0.0.1" 23 5000 world0
  = Some (Raise (ConnectionError
                   ("连接失败: " ++ "10.0.0.1" ++ ":" ++ "23"
                    ++ " - " ++ "Connection refused")),
          with_event (Open "10.0.0.1" 23 (seconds_of_ms 5000)) world0)
  /\ connect refusing 3 "10.0.0.1" 23 (10 ^ 400) world0
     = Some (Raise overflow_error, world0).
Proof.
  split.
  - exact (connect_open_failure refusing 3 "10.0.0.1" 23 5000 world0
             (OtherException "Connection refused") eq_refl).
  - pose proof (connect_open_failure refusing 3 "10.0.0.1" 23 (10 ^ 400)
                  world0 (OtherException "Connection refused") eq_refl) as H.
    rewrite huge_overflows in H. exact H.
Defined.

Lemma connect_quiet :
  exists w', connect quiet 2 "10.0.0.2" 23 5000 world1 = Some (Ret "id-1", w').
Proof. eexists. vm_compute. reflexivity. Defined.

Lemma connect_registers_witness :
  exists w' session,
    connect quiet 2 "10.0.0.2" 23 5000 world1 = Some (Ret "id-1", w')
    /\ sessions w' !! "id-1" = Some session
    /\ session_id session = "id-1"
    /\ host session = "10.0.0.2" /\ port session = 23%Z
    /\ reader session = writer session
    /\ to_dict session ∈ list_sessions w'
    /\ forall fuel' command wait_ms,
         execute quiet fuel' "id-1" command wait_ms w'
         = send_and_poll quiet fuel' session command
             (effective_wait_ms command wait_ms) w'.
Proof.
  destruct connect_quiet as [w' E].
  destruct (connect_registers quiet 2 "10.0.0.2" 23 5000 world1 "id-1" w' E)
    as [session H].
  exists w', session. split; [exact E|exact H].
Defined.

Lemma connect_lists_one_more_witness :
  exists w' connected_at,
    connect quiet 2 "10.0.0.2" 23 5000 world1 = Some (Ret "id-1", w')
    /\ list_sessions w'
       ≡ₚ {| sessionId := "id-1"; dict_host := "10.0.0.2"; dict_port := 23;
             connectedAt := connected_at |} :: list_sessions world1.
Proof.
  destruct connect_quiet as [w' E].
  destruct (connect_lists_one_more quiet 2 "10.0.0.2" 23 5000 world1 "id-1"
              w' E eq_refl) as [c H].
  exists w', c. split; [exact E|exact H].
Defined.

Lemma connect_then_disconnect_witness :
  exists w1 w2,
    connect quiet 2 "10.0.0.2" 23 5000 world1 = Some (Ret "id-1", w1)
    /\ disconnect quiet "id-1" w1 = Some (Ret true, w2)
    /\ sessions w2 = sessions world1
    /\ log w2 = (log w1 ++ [Close 1])%list
    /\ list_sessions w2 = list_sessions world1.
Proof.
  destruct connect_quiet as [w1 E].
  destruct (connect_then_disconnect quiet 2 "10.0.0.2" 23 5000 world1 "id-1"
              w1 E eq_refl) as [w2 H].
  exists w1, w2. split; [exact E|exact H].
Defined.

Lemma disconnect_twice_witness :
  exists w1,
    disconnect prompting "id-0" world1 = Some (Ret true, w1)
    /\ disconnect prompting "id-0" w1
       = Some (Raise (ValueError ("会话不存在: " ++ "id-0")), w1)
    /\ count is_close (log w1) = S (count is_close (log world1)).
Proof.
  exact (disconnect_twice prompting "id-0" session0 world1 eq_refl).
Defined.

Lemma disconnect_others_stay_witness :
  exists r w',
    disconnect quiet "id-1" world2 = Some (r, w')
    /\ sessions w' !! "id-0" = Some session0
    /\ sessions w' !! "id-1" = None
    /\ list_sessions world2 ≡ₚ to_dict session1 :: list_sessions w'.
Proof.
  destruct (disconnect quiet "id-1" world2) as [[r w']|] eqn:E;
    [|vm_compute in E; discriminate].
  destruct (disconnect_others_stay quiet "id-1" session1 world2 r w'
              eq_refl E) as (Ho & Hn & Hl).
  exists r, w'. split; [reflexivity|]. split; [|split; [exact Hn|exact Hl]].
  rewrite (Ho "id-0"); [reflexivity|discriminate].
Defined.

Lemma telnet_connect_reports_prompt_witness :
  exists w',
    telnet_connect configuring 3 "10.0.0.1" 23 5000 world0
    = Some (Ret (json_dumps [("success", JBool true);
                             ("sessionId", JStr "id-0");
                             ("deviceMode", JStr "SW1#");
                             ("message", JStr "连接成功")]), w')
    /\ is_Some (sessions w' !! "id-0").
Proof.
  destruct (telnet_connect_reports_prompt configuring 3 "10.0.0.1" 23 5000
              world0 1 1 1 [CRLF] "SW1#" [(1, "SW1#")])
    as (w' & E & Hs & _).
  - reflexivity.
  - reflexivity.
  - intros j. reflexivity.
  - apply (falls_silent_configuring 0); [exists 0; reflexivity|lia].
  - intros _. split; [|lia].
    apply (falls_silent_configuring 2); [exists 1; reflexivity|lia].
  - apply (falls_silent_configuring 4); [exists 2; reflexivity|lia].
  - lia.
  - lia.
  - repeat split. discriminate.
  - intros i Hi C. apply Qle_bool_iff in C.
    destruct i as [|[|i]]; try (vm_compute in C; discriminate).
    simpl in Hi. lia.
  - reflexivity.
  - discriminate.
  - vm_compute. reflexivity.
  - right. reflexivity.
  - simpl. lia.
  - exists w'. split; [exact E|exact Hs].
Defined.

Lemma telnet_connect_open_failure_witness :
  (exists msg,
      telnet_connect refusing 3 "10.0.0.1" 23 5000 world0
      = Some (Ret (json_dumps [("success", JBool false);
                               ("error", JStr msg)]),
              with_event (Open "10.0.0.1" 23 (seconds_of_ms 5000)) world0)
      /\ Str.contains ("10.0.0.1" ++ ":" ++ "23") msg = true)
  /\ telnet_connect refusing 3 "10.0.0.1" 23 (10 ^ 400) world0
     = Some (Raise overflow_error, world0).
Proof.
  split.
  - exact (telnet_connect_open_failure refusing 3 "10.0.0.1" 23 5000 world0
             (OtherException "Connection refused") eq_refl).
  - pose proof (telnet_connect_open_failure refusing 3 "10.0.0.1" 23
                  (10 ^ 400) world0 (OtherException "Connection refused")
                  eq_refl) as H.
    rewrite huge_overflows in H. exact H.
Defined.

Lemma telnet_connect_keeps_session_witness :
  exists text w' session,
    telnet_connect resetting 3 "10.0.0.2" 23 5000 world1
    = Some (Ret text, w')
    /\ Str.contains "false" text = true
    /\ sessions w' = <["id-1" := session]> (sessions world1)
    /\ session_id session = "id-1".
Proof.
  destruct (telnet_connect resetting 3 "10.0.0.2" 23 5000 world1)
    as [[[text|e] w']|] eqn:E; [| |]; try (vm_compute in E; discriminate).
  destruct (telnet_connect_keeps_session resetting 3 "10.0.0.2" 23 5000
              world1 (Ret text) w' eq_refl eq_refl E) as (session & Hs & Hi).
  exists text, w', session. split; [reflexivity|].
  split; [|split; [exact Hs|exact Hi]].
  vm_compute in E. injection E as <- _. vm_compute. reflexivity.
Defined.

Lemma connect_error_names_endpoint_witness :
  exists e w' msg,
    connect resetting 3 "10.0.0.2" 23 5000 world1 = Some (Raise e, w')
    /\ e = ConnectionError msg
    /\ Str.contains ("10.0.0.2" ++ ":" ++ Str.of_int 23) msg = true.
Proof.
  destruct (connect resetting 3 "10.0.0.2" 23 5000 world1)
    as [[[sid|e] w']|] eqn:E; [| |]; try (vm_compute in E; discriminate).
  destruct (connect_error_names_endpoint resetting 3 "10.0.0.2" 23 5000
              world1 e w' E) as (msg & H).
  exists e, w', msg. split; [reflexivity|exact H].
Defined.

Lemma execute_never_on_silence_witness :
  exists out w' evs,
    execute prompting 5 "id-0" "show version" 2000 world1
    = Some (Ret out, w')
    /\ log w' = (evs ++ grace_events 0)%list.
Proof.
  destruct (execute prompting 5 "id-0" "show version" 2000 world1)
    as [[[out|e] w']|] eqn:E; [| |]; try (vm_compute in E; discriminate).
  destruct (execute_never_on_silence prompting 5 "id-0" session0
              "show version" 2000 world1 out w' eq_refl) as [C|[evs H]].
  - intros k e H. destruct k as [|[|k]]; try discriminate.
    injection H as <-. reflexivity.
  - exact E.
  - exfalso. apply Qle_bool_iff in C. vm_compute in E.
    injection E as _ <-. vm_compute in C. discriminate.
  - exists out, w', evs. split; [reflexivity|exact H].
Defined.
